(** * ShelfCook backend: the ingredient-matching resolvers

    A shallow embedding of the three generations of the GraphQL resolver
    file of the repository

      - [ResolversTs] : src/lib/graphql/resolvers.ts
      - [Part000]     : src/unnamed/part_000
      - [Part001]     : src/unnamed/part_001

    together with the fragment of JavaScript they rely on: strings as
    sequences of UTF-16 code units, the regular expressions of the
    ingredient normaliser, binary64 arithmetic, [Math.round] and
    [Array.prototype.sort]. *)

From Stdlib Require Import List Bool Arith ZArith NArith QArith Qround Qpower Lia Lqa.
From Stdlib Require Import Ascii String Permutation Sorted.
From Stdlib Require Floats.SpecFloat DecimalString.
Import ListNotations.

Set Implicit Arguments.

(* ================================================================== *)
(** * JavaScript strings *)
(* ================================================================== *)

Module JS.

(** A JavaScript string is a finite sequence of UTF-16 code units. *)
Definition codeunit := N.
Definition jsstring := list codeunit.

(** ASCII literals, for readable examples. *)
Definition str (s : string) : jsstring :=
  List.map N_of_ascii (list_ascii_of_string s).

Definition jsstring_eqb (a b : jsstring) : bool :=
  if list_eq_dec N.eq_dec a b then true else false.

Local Open Scope N_scope.

(** ** Character classes of ECMAScript regular expressions *)

(** [\s] : WhiteSpace and LineTerminator code points. [String.prototype.trim]
    strips exactly the same set. *)
Definition is_space (c : codeunit) : bool :=
  (9 <=? c) && (c <=? 13)            (* \t \n \v \f \r *)
  || (c =? 32) || (c =? 160) || (c =? 5760)
  || (8192 <=? c) && (c <=? 8202)    (* U+2000 .. U+200A *)
  || (c =? 8232) || (c =? 8233) || (c =? 8239) || (c =? 8287)
  || (c =? 12288) || (c =? 65279).

(** [\d] : the ten ASCII digits. *)
Definition is_digit (c : codeunit) : bool := (48 <=? c) && (c <=? 57).

(** [.] without the [s] flag: anything but a line terminator. *)
Definition is_dot (c : codeunit) : bool :=
  negb ((c =? 10) || (c =? 13) || (c =? 8232) || (c =? 8233)).

(** The class [[\d½¼¾⅓⅔⅕⅖⅗⅘⅙⅚⅛⅜⅝⅞]] of part_001: ASCII digits, the three
    Latin-1 fractions U+00BC..U+00BE and the vulgar fractions
    U+2153..U+215E. *)
Definition is_quantity_char (c : codeunit) : bool :=
  is_digit c
  || (188 <=? c) && (c <=? 190)
  || (8531 <=? c) && (c <=? 8542).

(** Comparison of an input code unit with a lower-case ASCII pattern letter
    under the [i] flag (no [u] flag): Canonicalize upper-cases both sides,
    and never maps a code unit above 127 to one below 128, so only the
    letter itself and its ASCII capital match. *)
Definition eq_ci (p c : codeunit) : bool :=
  (c =? p) || ((97 <=? p) && (p <=? 122) && (c =? p - 32)).

(** ** A backtracking matcher

    A matcher consumes a prefix of the input and hands the rest to its
    continuation; a continuation that fails makes the matcher try its next
    alternative, which is how the ECMAScript pattern semantics is written. *)
Definition Matcher := jsstring -> (jsstring -> option jsstring) -> option jsstring.

Definition one (p : codeunit -> bool) : Matcher :=
  fun s k => match s with
             | c :: t => if p c then k t else None
             | [] => None
             end.

Definition eps : Matcher := fun s k => k s.

Definition seq (m1 m2 : Matcher) : Matcher :=
  fun s k => m1 s (fun s' => m2 s' k).

Definition alt (m1 m2 : Matcher) : Matcher :=
  fun s k => match m1 s k with
             | Some r => Some r
             | None => m2 s k
             end.

Definition fail : Matcher := fun _ _ => None.

(** [(m)?], greedy. *)
Definition opt (m : Matcher) : Matcher := alt m eps.

(** A literal word, compared with or without the [i] flag. *)
Fixpoint lit (ci : bool) (w : jsstring) : Matcher :=
  match w with
  | [] => eps
  | p :: w' => seq (one (if ci then eq_ci p else N.eqb p)) (lit ci w')
  end.

(** [(w1|w2|...)]: alternatives are tried from left to right. *)
Fixpoint alts (ci : bool) (ws : list jsstring) : Matcher :=
  match ws with
  | [] => fail
  | w :: ws' => alt (lit ci w) (alts ci ws')
  end.

(** [c*] for a character class, greedy: longest run first, then shorter. *)
Fixpoint star (p : codeunit -> bool) (s : jsstring)
         (k : jsstring -> option jsstring) : option jsstring :=
  match s with
  | c :: t =>
      if p c then
        match star p t k with
        | Some r => Some r
        | None => k s
        end
      else k s
  | [] => k []
  end.

(** [c+], greedy. *)
Definition plus (p : codeunit -> bool) : Matcher := seq (one p) (star p).

(** [c*?], lazy: shortest run first. *)
Fixpoint star_lazy (p : codeunit -> bool) (s : jsstring)
         (k : jsstring -> option jsstring) : option jsstring :=
  match k s with
  | Some r => Some r
  | None =>
      match s with
      | c :: t => if p c then star_lazy p t k else None
      | [] => None
      end
  end.

(** [$] without the [m] flag: end of input. *)
Definition eos : Matcher :=
  fun s k => match s with [] => k [] | _ :: _ => None end.

(** [run m s] is the input left after the first successful match of [m] at
    the start of [s]. *)
Definition run (m : Matcher) (s : jsstring) : option jsstring := m s Some.

(** ** String.prototype.replace *)

(** [s.replace(/m/g, rep)]: scan from the left; at a match, emit [rep] and
    resume after the match ([skip] counts the code units of the match still
    to be dropped); an empty match emits [rep] and copies one code unit. *)
Fixpoint replace_go (m : Matcher) (rep : jsstring) (s : jsstring) (skip : nat)
  : jsstring :=
  match s with
  | [] =>
      match skip with
      | O => match run m [] with Some _ => rep | None => [] end
      | S _ => []
      end
  | c :: t =>
      match skip with
      | S k => replace_go m rep t k
      | O =>
          match run m s with
          | Some rest =>
              match (List.length s - List.length rest)%nat with
              | O => rep ++ c :: replace_go m rep t 0
              | S k => rep ++ replace_go m rep t k
              end
          | None => c :: replace_go m rep t 0
          end
      end
  end.

Definition replace_all (m : Matcher) (rep s : jsstring) : jsstring :=
  replace_go m rep s 0.

(** [s.replace(/^m/, rep)]: the pattern can only match at position 0. *)
Definition replace_anchored (m : Matcher) (rep s : jsstring) : jsstring :=
  match run m s with
  | Some rest => rep ++ rest
  | None => s
  end.

(** [s.replace(/m/, rep)] without the [g] flag: the leftmost match only. *)
Fixpoint replace_first (m : Matcher) (rep s : jsstring) : jsstring :=
  match run m s with
  | Some rest => rep ++ rest
  | None =>
      match s with
      | [] => []
      | c :: t => c :: replace_first m rep t
      end
  end.

(** ** Other string methods *)

(** [s.split(",")[0]]: the part before the first comma. *)
Fixpoint before_comma (s : jsstring) : jsstring :=
  match s with
  | [] => []
  | c :: t => if c =? 44 then [] else c :: before_comma t
  end.

Fixpoint trimStart (s : jsstring) : jsstring :=
  match s with
  | c :: t => if is_space c then trimStart t else s
  | [] => []
  end.

Definition trimEnd (s : jsstring) : jsstring := rev (trimStart (rev s)).

Definition trim (s : jsstring) : jsstring := trimEnd (trimStart s).

Fixpoint startsWith (s sub : jsstring) : bool :=
  match sub, s with
  | [], _ => true
  | _ :: _, [] => false
  | p :: sub', c :: s' => (c =? p) && startsWith s' sub'
  end.

(** [s.includes(sub)]: [sub] occurs in [s] at some position. *)
Fixpoint includes (s sub : jsstring) : bool :=
  startsWith s sub ||
  match s with
  | [] => false
  | _ :: t => includes t sub
  end.

(** [Boolean(s)] for a string: true unless empty. *)
Definition truthy (s : jsstring) : bool :=
  match s with [] => false | _ :: _ => true end.

(** The ASCII fragment of [String.prototype.toLowerCase], used to run the
    resolvers on concrete ASCII inputs. The resolvers themselves are
    parametrised by the lower-casing function. *)
Definition asciiLower (s : jsstring) : jsstring :=
  List.map (fun c => if (65 <=? c) && (c <=? 90) then c + 32 else c) s.

End JS.

(* ================================================================== *)
(** * The ingredient normalisers *)
(* ================================================================== *)

Module Units.
Import JS.

(** The unit vocabularies, in the order of the alternations in the source. *)
Definition seeded : list jsstring :=
  List.map str ["g"; "kg"; "ml"; "l"; "oz"; "lb"; "tbsp"; "tsp"; "cup"; "cups";
                "pinch"; "handful"]%string.

Definition weights : list jsstring :=
  List.map str ["g"; "kg"; "ml"; "l"; "oz"; "lb"]%string.

Definition sizes : list jsstring :=
  List.map str ["clove"; "large"; "medium"; "small"]%string.

Definition cans : list jsstring := List.map str ["can"; "cans"]%string.

End Units.

(** ** src/lib/graphql/resolvers.ts, lines 7-23 *)
Module ResolversTsNormalizer.
Import JS.
Section WithLowerCase.
Variable toLowerCase : jsstring -> jsstring.

(** [/^\d+(\.\d+)?\s*(g|...|handful)\s*\/?\s*\d*\s*(g|kg|ml|l|oz|lb)?\s*/i] *)
Definition quantity_unit_prefix : Matcher :=
  seq (plus is_digit)
 (seq (opt (seq (one (N.eqb 46)) (plus is_digit)))
 (seq (star is_space)
 (seq (alts true Units.seeded)
 (seq (star is_space)
 (seq (opt (one (N.eqb 47)))
 (seq (star is_space)
 (seq (star is_digit)
 (seq (star is_space)
 (seq (opt (alts true Units.weights))
      (star is_space)))))))))).

(** [/^\d+\s*/] *)
Definition leading_number : Matcher := seq (plus is_digit) (star is_space).

(** [/,.*$/] *)
Definition comma_to_end : Matcher :=
  seq (one (N.eqb 44)) (seq (star is_dot) eos).

(** [/\(.*?\)/g] *)
Definition parenthetical : Matcher :=
  seq (one (N.eqb 40)) (seq (star_lazy is_dot) (one (N.eqb 41))).

Definition cleanIngredient (ingredient : jsstring) : jsstring :=
  let cleaned :=
    trim
      (replace_all parenthetical []
         (replace_first comma_to_end []
            (replace_anchored leading_number []
               (replace_anchored quantity_unit_prefix []
                  (toLowerCase ingredient))))) in
  (* cleaned || ingredient.toLowerCase() *)
  if truthy cleaned then cleaned else toLowerCase ingredient.

Definition extractIngredientNames (ingredients : list jsstring) : list jsstring :=
  List.filter (fun ingredient => (0 <? List.length ingredient)%nat)
              (List.map cleanIngredient ingredients).

End WithLowerCase.
End ResolversTsNormalizer.

(** ** src/unnamed/part_000, lines 6-21 *)
Module Part000Normalizer.
Import JS.
Section WithLowerCase.
Variable toLowerCase : jsstring -> jsstring.

(** [/^\d+(\.\d+)?\s*(g|...|handful|clove|large|medium|small)?\s*/i] *)
Definition quantity_unit_prefix : Matcher :=
  seq (plus is_digit)
 (seq (opt (seq (one (N.eqb 46)) (plus is_digit)))
 (seq (star is_space)
 (seq (opt (alts true (Units.seeded ++ Units.sizes)))
      (star is_space)))).

Definition parenthetical : Matcher :=
  seq (one (N.eqb 40)) (seq (star_lazy is_dot) (one (N.eqb 41))).

Definition cleanIngredient (ingredient : jsstring) : jsstring :=
  trim
    (before_comma
       (replace_all parenthetical []
          (replace_anchored quantity_unit_prefix []
             (toLowerCase ingredient)))).

Definition extractIngredientNames (ingredients : list jsstring) : list jsstring :=
  List.filter truthy (List.map cleanIngredient ingredients).

End WithLowerCase.
End Part000Normalizer.

(** ** src/unnamed/part_001, lines 6-21 *)
Module Part001Normalizer.
Import JS.
Section WithLowerCase.
Variable toLowerCase : jsstring -> jsstring.

Definition parenthetical : Matcher :=
  seq (one (N.eqb 40)) (seq (star_lazy is_dot) (one (N.eqb 41))).

Definition unit_vocabulary : list jsstring :=
  Units.seeded ++ Units.sizes ++ Units.cans.

(** [/\s*(g|kg|...|can|cans)\s*/gi]: no word boundary on either side. *)
Definition unit_pattern : Matcher :=
  seq (star is_space) (seq (alts true unit_vocabulary) (star is_space)).

(** The stages of the [map] callback, named after the value they produce. *)
Definition mainClause (ingredient : jsstring) : jsstring :=
  before_comma (replace_all parenthetical [] (toLowerCase ingredient)).

Definition stripQuantities (s : jsstring) : jsstring :=
  replace_all (one is_quantity_char) [] s.

Definition stripUnits (s : jsstring) : jsstring :=
  replace_all unit_pattern (str " ") s.

Definition stripStars (s : jsstring) : jsstring :=
  replace_all (one (N.eqb 42)) [] s.

Definition collapseSpaces (s : jsstring) : jsstring :=
  replace_all (plus is_space) (str " ") s.

Definition cleanIngredient (ingredient : jsstring) : jsstring :=
  collapseSpaces
    (trim (stripStars (stripUnits (stripQuantities (mainClause ingredient))))).

Definition extractIngredientNames (ingredients : list jsstring) : list jsstring :=
  List.filter truthy (List.map cleanIngredient ingredients).

End WithLowerCase.
End Part001Normalizer.

(* ================================================================== *)
(** * JavaScript numbers *)
(* ================================================================== *)

Module Number.

Local Open Scope Q_scope.

(** The values that occur in the scorers are non-negative finite doubles
    far from the overflow and underflow thresholds (array lengths are below
    2^32), so a double is represented by the rational it denotes and an
    arithmetic operation is the exact operation followed by rounding to
    the nearest 53-bit significand, ties to even. *)

Definition pow2 (e : Z) : Q := 2 ^ e.

(** [ilog2 q] is the integer [d] with [2^d <= q < 2^(d+1)], for [q > 0]. *)
Definition ilog2 (q : Q) : Z :=
  let d := (Z.log2 (Qnum q) - Z.log2 (Zpos (Qden q)))%Z in
  if Qle_bool (pow2 d) q then d else (d - 1)%Z.

(** Nearest integer, ties to even. *)
Definition round_half_even (q : Q) : Z :=
  let f := Qfloor q in
  match Qcompare (q - inject_Z f) (1 # 2) with
  | Lt => f
  | Gt => (f + 1)%Z
  | Eq => if Z.even f then f else (f + 1)%Z
  end.

(** Rounding of a non-negative real to binary64. *)
Definition fl (x : Q) : Q :=
  let q := Qred x in
  if Qle_bool q 0 then 0
  else
    let e := (ilog2 q - 52)%Z in
    inject_Z (round_half_even (q / pow2 e)) * pow2 e.

Definition fdiv (a b : Q) : Q := fl (a / b).
Definition fmul (a b : Q) : Q := fl (a * b).

(** [Math.round]: the nearest integer, ties towards +infinity; it is exact
    on every finite double. *)
Definition Math_round (x : Q) : Z := Qfloor (x + (1 # 2)).

(** A length or count as a number. *)
Definition of_nat (n : nat) : Q := inject_Z (Z.of_nat n).

(** The expression [Math.round((matchingCount / total) * 100)]. *)
Definition percentage (matchingCount total : nat) : Z :=
  Math_round (fmul (fdiv (of_nat matchingCount) (of_nat total)) 100).

(** The same operations in the IEEE 754 model of the Standard Library, to
    compare [fl] with. *)
Definition of_spec (x : SpecFloat.spec_float) : option Q :=
  match x with
  | SpecFloat.S754_zero _ => Some 0
  | SpecFloat.S754_finite false m e => Some (inject_Z (Zpos m) * pow2 e)
  | _ => None
  end.

Definition spec_of_nat (n : nat) : SpecFloat.spec_float :=
  SpecFloat.binary_normalize 53 1024 (Z.of_nat n) 0 false.

Definition spec_percentage_arg (matchingCount total : nat) : option Q :=
  of_spec (SpecFloat.SFmul 53 1024
             (SpecFloat.SFdiv 53 1024 (spec_of_nat matchingCount)
                                      (spec_of_nat total))
             (spec_of_nat 100)).

Definition agrees_with_spec (matchingCount total : nat) : bool :=
  match spec_percentage_arg matchingCount total with
  | Some x =>
      Qeq_bool x (fmul (fdiv (of_nat matchingCount) (of_nat total)) 100)
  | None => false
  end.

End Number.

(* ================================================================== *)
(** * Arrays *)
(* ================================================================== *)

Module Array.

Section Sort.
Variable A : Type.
Variable comparefn : A -> A -> Z.

(** [Array.prototype.sort(comparefn)]. Since ECMAScript 2019 the sort is
    stable, so for a consistent comparator its result is determined: the
    elements in non-decreasing [comparefn] order, equal ones in their
    original order. Insertion from the right computes that list. *)
Fixpoint insert (x : A) (l : list A) : list A :=
  match l with
  | [] => [x]
  | y :: l' => if (0 <? comparefn x y)%Z then y :: insert x l' else x :: l
  end.

Fixpoint sort (l : list A) : list A :=
  match l with
  | [] => []
  | x :: l' => insert x (sort l')
  end.

End Sort.

(** [l.slice(0, e)] for an integer [e]: a negative [e] counts from the end. *)
Definition slice0 (A : Type) (l : list A) (e : Z) : list A :=
  if (e <? 0)%Z
  then firstn (Z.to_nat (Z.max (Z.of_nat (List.length l) + e) 0)) l
  else firstn (Z.to_nat e) l.

End Array.

(* ================================================================== *)
(** * The store *)
(* ================================================================== *)

Module Prisma.
Import JS.

(** The columns of the [Recipe] table that the resolvers read. *)
Record Recipe := {
  id : Z;
  recipeName : jsstring;
  ingredients : list jsstring;
  vegan : bool;
  categories : list jsstring
}.

(** [interface RecipeFilters { vegan?: boolean; categories?: string[] }] *)
Record RecipeFilters := {
  filters_vegan : option bool;
  filters_categories : option (list jsstring)
}.

(** The two conditions that the resolvers put in a where clause. *)
Inductive Condition :=
| VeganEquals (b : bool)                      (* { vegan: b } *)
| CategoriesHasSome (cs : list jsstring).     (* { categories: { hasSome: cs } } *)

(** [RecipeWhereInput]: [{}] or [{ AND: [...] }]. *)
Record RecipeWhereInput := { AND : option (list Condition) }.

Definition shares_category (cs : list jsstring) (recipe : Recipe) : bool :=
  existsb (fun cat => existsb (jsstring_eqb cat) (categories recipe)) cs.

Definition holds (c : Condition) (recipe : Recipe) : bool :=
  match c with
  | VeganEquals b => Bool.eqb (vegan recipe) b
  | CategoriesHasSome cs => shares_category cs recipe
  end.

Definition satisfies (where_ : RecipeWhereInput) (recipe : Recipe) : bool :=
  match AND where_ with
  | None => true
  | Some conditions => forallb (fun c => holds c recipe) conditions
  end.

(** A row of the full-text query: the recipe columns and [relevance_score]. *)
Record SearchRow := { row : Recipe; relevance_score : Q }.

(** The store: the table, and the rows that PostgreSQL selects for a
    [plainto_tsquery] over the joined ingredient text, in the order it
    yields them (with [ORDER BY relevance_score DESC] when [ranked]) and
    before any [LIMIT]. *)
Record Store := {
  table : list Recipe;
  textSearch : jsstring -> forall ranked : bool, list SearchRow
}.

(** The requests a resolver sends to the store. *)
Inductive StoreCall :=
| FindMany (where_ : RecipeWhereInput)
| QueryRaw (searchTerms : jsstring) (ranked : bool) (limit : nat).

(** A resolver reads the store and leaves a trace of its requests. A store
    that fails makes every resolver throw; that path is not modelled. *)
Definition Resolver (A : Type) : Type := Store -> A * list StoreCall.

Definition ret (A : Type) (a : A) : Resolver A := fun _ => (a, []).

Definition bind (A B : Type) (m : Resolver A) (f : A -> Resolver B)
  : Resolver B :=
  fun st => let (a, t1) := m st in
            let (b, t2) := f a st in
            (b, t1 ++ t2).

(** [prisma.recipe.findMany({ where })] *)
Definition findMany (where_ : RecipeWhereInput) : Resolver (list Recipe) :=
  fun st => (List.filter (satisfies where_) (table st), [FindMany where_]).

(** [prisma.$queryRaw`SELECT ... @@ plainto_tsquery('english', ${q}) LIMIT n`] *)
Definition queryRawFullText (searchTerms : jsstring) (ranked : bool) (limit : nat)
  : Resolver (list SearchRow) :=
  fun st => (firstn limit (textSearch st searchTerms ranked),
             [QueryRaw searchTerms ranked limit]).

Definition result (A : Type) (m : Resolver A) (st : Store) : A := fst (m st).
Definition calls (A : Type) (m : Resolver A) (st : Store) : list StoreCall :=
  snd (m st).

(** [buildPrismaWhereClause], identical in the three files. *)
Definition buildPrismaWhereClause (filters : option RecipeFilters)
  : RecipeWhereInput :=
  let conditions :=
    match filters with
    | Some f =>
        (match filters_vegan f with
         | Some b => [VeganEquals b]
         | None => []
         end) ++
        (match filters_categories f with
         | Some (c :: cs) => [CategoriesHasSome (c :: cs)]
         | _ => []
         end)
    | None => []
    end in
  match conditions with
  | [] => {| AND := None |}
  | _ :: _ => {| AND := Some conditions |}
  end.

(** [availableIngredients.join(" | ")] *)
Fixpoint join (sep : jsstring) (l : list jsstring) : jsstring :=
  match l with
  | [] => []
  | [x] => x
  | x :: l' => x ++ sep ++ join sep l'
  end.

(** What the scoring resolvers return for a recipe. The count fields are
    absent from some of the object literals of the source. *)
Record MatchResult := {
  recipe : Recipe;
  matchPercentage : Z;
  matchingIngredientsCount : option nat;
  totalIngredientsCount : option nat;
  missingIngredients : list jsstring
}.

Record SearchResult := { sr_recipe : SearchRow; relevanceScore : Q }.

(** [.filter((r) => r.matchPercentage >= minMatchPercentage)
     .sort((a, b) => b.matchPercentage - a.matchPercentage)],
    the tail of every scoring resolver. *)
Definition filterAndSort (minMatchPercentage : Z) (recipesWithScores : list MatchResult)
  : list MatchResult :=
  Array.sort (fun a b => (matchPercentage b - matchPercentage a)%Z)
    (List.filter (fun r => (minMatchPercentage <=? matchPercentage r)%Z)
                 recipesWithScores).

End Prisma.

Declare Scope resolver_scope.
Delimit Scope resolver_scope with resolver.
Notation "x <- m ;; k" := (Prisma.bind m (fun x => k))
  (at level 61, m at next level, right associativity) : resolver_scope.

(* ================================================================== *)
(** * The resolvers of src/unnamed/part_001 *)
(* ================================================================== *)

Module Part001.
Import JS Prisma.
Local Open Scope resolver_scope.

Section WithLowerCase.
Variable toLowerCase : jsstring -> jsstring.

Definition extractIngredientNames :=
  Part001Normalizer.extractIngredientNames toLowerCase.

(** [availableLower.some((avail) => req.includes(avail))] *)
Definition matchedBy (available : list jsstring) (req : jsstring) : bool :=
  existsb (fun avail => includes req avail) available.

Definition findRecipesByCategories (categories : list jsstring)
           (filters : option RecipeFilters) : Resolver (list Recipe) :=
  let baseWhere := buildPrismaWhereClause filters in
  let finalWhere :=
    {| AND := Some ((match AND baseWhere with Some cs => cs | None => [] end)
                    ++ [CategoriesHasSome categories]) |} in
  findMany finalWhere.

Definition recipesWithExactIngredients (availableIngredients : list jsstring)
           (filters : option RecipeFilters) : Resolver (list Recipe) :=
  let baseWhere := buildPrismaWhereClause filters in
  candidateRecipes <- findMany baseWhere ;;
  let availableLower := List.map toLowerCase availableIngredients in
  ret (List.filter
         (fun recipe =>
            let required := extractIngredientNames (ingredients recipe) in
            if (List.length required =? 0)%nat then false
            else forallb (matchedBy availableLower) required)
         candidateRecipes).

(** The callback of [candidateRecipes.map] in [recipesByIngredientMatch]. *)
Definition scoreRecipe (availableIngredients : list jsstring) (recipe : Recipe)
  : MatchResult :=
  let required := extractIngredientNames (ingredients recipe) in
  if (List.length required =? 0)%nat then
    {| recipe := recipe; matchPercentage := 0;
       matchingIngredientsCount := None; totalIngredientsCount := None;
       missingIngredients := required |}
  else
    let availableLower := List.map toLowerCase availableIngredients in
    let missing :=
      List.filter (fun req => negb (matchedBy availableLower req)) required in
    let matchingCount := (List.length required - List.length missing)%nat in
    {| recipe := recipe;
       matchPercentage := Number.percentage matchingCount (List.length required);
       matchingIngredientsCount := Some matchingCount;
       totalIngredientsCount := Some (List.length required);
       missingIngredients := missing |}.

Definition recipesByIngredientMatch (availableIngredients : list jsstring)
           (minMatchPercentage : Z) (filters : option RecipeFilters)
  : Resolver (list MatchResult) :=
  let baseWhere := buildPrismaWhereClause filters in
  candidateRecipes <- findMany baseWhere ;;
  let recipesWithScores :=
    List.map (scoreRecipe availableIngredients) candidateRecipes in
  ret (filterAndSort minMatchPercentage recipesWithScores).

Definition findRecipesByIngredientNames (ingredientNames : list jsstring)
           (filters : option RecipeFilters) : Resolver (list Recipe) :=
  let baseWhere := buildPrismaWhereClause filters in
  candidateRecipes <- findMany baseWhere ;;
  ret (List.filter
         (fun recipe =>
            forallb (fun name =>
                       let nameLower := toLowerCase name in
                       existsb (fun ing => includes ing nameLower)
                               (extractIngredientNames (ingredients recipe)))
                    ingredientNames)
         candidateRecipes).

(** The filter callback of [recipesWithFullTextSearch]:
    [!filters?.vegan || recipe.vegan === filters.vegan] and
    [!filters?.categories || filters.categories.some(...)]. *)
Definition veganMatch (filters : option RecipeFilters) (recipe : Recipe) : bool :=
  match filters with
  | Some {| filters_vegan := Some true |} => Bool.eqb (vegan recipe) true
  | _ => true      (* no filters, vegan absent, or vegan === false: falsy *)
  end.

Definition categoryMatch (filters : option RecipeFilters) (recipe : Recipe) : bool :=
  match filters with
  | Some {| filters_categories := Some cs |} => shares_category cs recipe
  | _ => true
  end.

Definition recipesWithFullTextSearch (availableIngredients : list jsstring)
           (filters : option RecipeFilters) : Resolver (list SearchResult) :=
  if (List.length availableIngredients =? 0)%nat then ret []
  else
    let searchTerms := join (str " | ") availableIngredients in
    results <- queryRawFullText searchTerms false 100 ;;
    let filteredResults :=
      List.filter (fun r => veganMatch filters (row r) && categoryMatch filters (row r))
                  results in
    ret (List.map (fun r => {| sr_recipe := r; relevanceScore := relevance_score r |})
                  filteredResults).

(** The hard-coded synonym table [ingredientMap]. *)
Definition ingredientMap (key : jsstring) : option (list jsstring) :=
  if jsstring_eqb key (str "onion")
  then Some (List.map str ["onions"; "red onion"; "white onion"]%string)
  else if jsstring_eqb key (str "garlic")
  then Some (List.map str ["garlic cloves"; "garlic paste"]%string)
  else if jsstring_eqb key (str "tomato")
  then Some (List.map str ["tomatoes"; "canned tomatoes"]%string)
  else None.

Definition expandIngredients (availableIngredients : list jsstring) : list jsstring :=
  List.flat_map
    (fun ing => toLowerCase ing ::
                match ingredientMap (toLowerCase ing) with
                | Some aliases => aliases
                | None => []
                end)
    availableIngredients.

Definition smartScoreRecipe (expandedIngredients : list jsstring) (recipe : Recipe)
  : MatchResult :=
  let required := extractIngredientNames (ingredients recipe) in
  if (List.length required =? 0)%nat then
    {| recipe := recipe; matchPercentage := 0;
       matchingIngredientsCount := None; totalIngredientsCount := None;
       missingIngredients := required |}
  else
    let missing :=
      List.filter (fun req => negb (matchedBy expandedIngredients req)) required in
    let matchingCount := (List.length required - List.length missing)%nat in
    {| recipe := recipe;
       matchPercentage := Number.percentage matchingCount (List.length required);
       matchingIngredientsCount := None; totalIngredientsCount := None;
       missingIngredients := missing |}.

Definition recipesWithSmartMatching (availableIngredients : list jsstring)
           (minMatchPercentage : Z) (filters : option RecipeFilters)
  : Resolver (list MatchResult) :=
  let baseWhere := buildPrismaWhereClause filters in
  candidateRecipes <- findMany baseWhere ;;
  let expandedIngredients := expandIngredients availableIngredients in
  let recipesWithScores :=
    List.map (smartScoreRecipe expandedIngredients) candidateRecipes in
  ret (filterAndSort minMatchPercentage recipesWithScores).

(** [limit || 10]: an absent, null or zero limit is falsy. *)
Definition limitOrDefault (limit : option Z) : Z :=
  match limit with
  | Some 0%Z | None => 10%Z
  | Some n => n
  end.

Definition hasMatchingIngredient (availableLower : list jsstring) (recipe : Recipe)
  : bool :=
  existsb (fun ing => existsb (fun avail => includes ing avail) availableLower)
          (extractIngredientNames (ingredients recipe)).

Definition quickRecipeSuggestions (availableIngredients : list jsstring)
           (limit : option Z) (filters : option RecipeFilters)
  : Resolver (list Recipe) :=
  let baseWhere := buildPrismaWhereClause filters in
  candidateRecipes <- findMany baseWhere ;;
  let availableLower := List.map toLowerCase availableIngredients in
  ret (Array.slice0
         (List.filter (hasMatchingIngredient availableLower) candidateRecipes)
         (limitOrDefault limit)).

End WithLowerCase.
End Part001.

(* ================================================================== *)
(** * The resolvers of src/unnamed/part_000 *)
(* ================================================================== *)

Module Part000.
Import JS Prisma.
Local Open Scope resolver_scope.

Section WithLowerCase.
Variable toLowerCase : jsstring -> jsstring.

Definition extractIngredientNames :=
  Part000Normalizer.extractIngredientNames toLowerCase.

(** [!xs || xs.length === 0] for an argument that is an array. *)
Definition isEmpty (A : Type) (xs : list A) : bool := (List.length xs =? 0)%nat.

(** [availableIngredients.some((available) =>
      line.toLowerCase().includes(available.toLowerCase()))] *)
Definition lineMatches (availableIngredients : list jsstring) (line : jsstring)
  : bool :=
  existsb (fun available => includes (toLowerCase line) (toLowerCase available))
          availableIngredients.

Definition findRecipesByCategories (categories : list jsstring)
           (filters : option RecipeFilters) : Resolver (list Recipe) :=
  if isEmpty categories then ret []
  else
    let baseWhere := buildPrismaWhereClause filters in
    let finalWhere :=
      {| AND := Some ((match AND baseWhere with Some cs => cs | None => [] end)
                      ++ [CategoriesHasSome categories]) |} in
    findMany finalWhere.

Definition recipesWithExactIngredients (availableIngredients : list jsstring)
           (filters : option RecipeFilters) : Resolver (list Recipe) :=
  if isEmpty availableIngredients then ret []
  else
    let baseWhere := buildPrismaWhereClause filters in
    candidateRecipes <- findMany baseWhere ;;
    ret (List.filter
           (fun recipe => forallb (lineMatches availableIngredients)
                                  (ingredients recipe))
           candidateRecipes).

Definition matchedBy (available : list jsstring) (req : jsstring) : bool :=
  existsb (fun avail => includes req avail) available.

Definition scoreRecipe (availableIngredients : list jsstring) (recipe : Recipe)
  : MatchResult :=
  let required := extractIngredientNames (ingredients recipe) in
  if (List.length required =? 0)%nat then
    {| recipe := recipe; matchPercentage := 0;
       matchingIngredientsCount := Some 0%nat; totalIngredientsCount := Some 0%nat;
       missingIngredients := [] |}
  else
    let availableLower := List.map toLowerCase availableIngredients in
    let missing :=
      List.filter (fun req => negb (matchedBy availableLower req)) required in
    let matchingCount := (List.length required - List.length missing)%nat in
    {| recipe := recipe;
       matchPercentage := Number.percentage matchingCount (List.length required);
       matchingIngredientsCount := Some matchingCount;
       totalIngredientsCount := Some (List.length required);
       missingIngredients := missing |}.

Definition recipesByIngredientMatch (availableIngredients : list jsstring)
           (minMatchPercentage : Z) (filters : option RecipeFilters)
  : Resolver (list MatchResult) :=
  if isEmpty availableIngredients then ret []
  else
    let baseWhere := buildPrismaWhereClause filters in
    candidateRecipes <- findMany baseWhere ;;
    let recipesWithScores :=
      List.map (scoreRecipe availableIngredients) candidateRecipes in
    ret (filterAndSort minMatchPercentage recipesWithScores).

Definition findRecipesByIngredientNames (ingredientNames : list jsstring)
           (filters : option RecipeFilters) : Resolver (list Recipe) :=
  if isEmpty ingredientNames then ret []
  else
    let baseWhere := buildPrismaWhereClause filters in
    candidateRecipes <- findMany baseWhere ;;
    ret (List.filter
           (fun recipe =>
              forallb (fun name =>
                         existsb (fun ing => includes (toLowerCase ing)
                                                      (toLowerCase name))
                                 (ingredients recipe))
                      ingredientNames)
           candidateRecipes).

Definition recipesWithFullTextSearch (availableIngredients : list jsstring)
           (filters : option RecipeFilters) : Resolver (list SearchResult) :=
  if isEmpty availableIngredients then ret []
  else
    let searchTerms := join (str " | ") availableIngredients in
    results <- queryRawFullText searchTerms false 100 ;;
    let filteredResults :=
      List.filter (fun r => Part001.veganMatch filters (row r)
                            && Part001.categoryMatch filters (row r))
                  results in
    ret (List.map (fun r => {| sr_recipe := r; relevanceScore := 0 |})
                  filteredResults).

Definition smartScoreRecipe (expandedIngredients : list jsstring) (recipe : Recipe)
  : MatchResult :=
  let required := extractIngredientNames (ingredients recipe) in
  if (List.length required =? 0)%nat then
    {| recipe := recipe; matchPercentage := 0;
       matchingIngredientsCount := None; totalIngredientsCount := None;
       missingIngredients := [] |}
  else
    let missing :=
      List.filter (fun req => negb (matchedBy expandedIngredients req)) required in
    let matchingCount := (List.length required - List.length missing)%nat in
    {| recipe := recipe;
       matchPercentage := Number.percentage matchingCount (List.length required);
       matchingIngredientsCount := None; totalIngredientsCount := None;
       missingIngredients := missing |}.

Definition recipesWithSmartMatching (availableIngredients : list jsstring)
           (minMatchPercentage : Z) (filters : option RecipeFilters)
  : Resolver (list MatchResult) :=
  if isEmpty availableIngredients then ret []
  else
    let baseWhere := buildPrismaWhereClause filters in
    candidateRecipes <- findMany baseWhere ;;
    let expandedIngredients := Part001.expandIngredients toLowerCase availableIngredients in
    let recipesWithScores :=
      List.map (smartScoreRecipe expandedIngredients) candidateRecipes in
    ret (filterAndSort minMatchPercentage recipesWithScores).

Definition quickRecipeSuggestions (availableIngredients : list jsstring)
           (limit : option Z) (filters : option RecipeFilters)
  : Resolver (list Recipe) :=
  if isEmpty availableIngredients then ret []
  else
    let baseWhere := buildPrismaWhereClause filters in
    candidateRecipes <- findMany baseWhere ;;
    ret (Array.slice0
           (List.filter
              (fun recipe => existsb (lineMatches availableIngredients)
                                     (ingredients recipe))
              candidateRecipes)
           (Part001.limitOrDefault limit)).

End WithLowerCase.
End Part000.

(* ================================================================== *)
(** * The resolvers of src/lib/graphql/resolvers.ts *)
(* ================================================================== *)

(** [findRecipesByIngredientNames] and [quickRecipeSuggestions] of this file
    are single SQL statements evaluated by the store; they follow in
    [ResolversTsRest]. *)
Module ResolversTs.
Import JS Prisma.
Local Open Scope resolver_scope.

Section WithLowerCase.
Variable toLowerCase : jsstring -> jsstring.

Definition extractIngredientNames :=
  ResolversTsNormalizer.extractIngredientNames toLowerCase.

Definition recipesWithExactIngredients (availableIngredients : list jsstring)
           (filters : option RecipeFilters) : Resolver (list Recipe) :=
  let where_ := buildPrismaWhereClause filters in
  allRecipes <- findMany where_ ;;
  ret (List.filter
         (fun recipe =>
            forallb (fun recipeIngredient =>
                       existsb (fun available =>
                                  includes (toLowerCase recipeIngredient)
                                           (toLowerCase available))
                               availableIngredients)
                    (ingredients recipe))
         allRecipes).

(** The two-way substring test of this generation's scorer. *)
Definition matchedBy (availableIngredients : list jsstring) (ingredient : jsstring)
  : bool :=
  existsb (fun available =>
             includes (toLowerCase ingredient) (toLowerCase available)
             || includes (toLowerCase available) (toLowerCase ingredient))
          availableIngredients.

Definition scoreRecipe (availableIngredients : list jsstring) (recipe : Recipe)
  : MatchResult :=
  let recipeIngredients := extractIngredientNames (ingredients recipe) in
  let missingIngredients :=
    List.filter (fun ingredient => negb (matchedBy availableIngredients ingredient))
                recipeIngredients in
  let matchingCount :=
    (List.length recipeIngredients - List.length missingIngredients)%nat in
  let matchPercentage :=
    if (0 <? List.length recipeIngredients)%nat
    then Number.percentage matchingCount (List.length recipeIngredients)
    else Number.Math_round 0 in
  {| recipe := recipe;
     matchPercentage := matchPercentage;
     matchingIngredientsCount := Some matchingCount;
     totalIngredientsCount := Some (List.length recipeIngredients);
     missingIngredients := missingIngredients |}.

Definition recipesByIngredientMatch (availableIngredients : list jsstring)
           (minMatchPercentage : Z) (filters : option RecipeFilters)
  : Resolver (list MatchResult) :=
  let where_ := buildPrismaWhereClause filters in
  allRecipes <- findMany where_ ;;
  let recipesWithScores :=
    List.map (scoreRecipe availableIngredients) allRecipes in
  ret (filterAndSort minMatchPercentage recipesWithScores).

(** The filter callback of [recipesWithFullTextSearch], applied only when
    [filters] is given. *)
Definition veganMatch (filters : RecipeFilters) (recipe : Recipe) : bool :=
  match filters_vegan filters with
  | Some b => Bool.eqb (vegan recipe) b
  | None => true
  end.

Definition categoryMatch (filters : RecipeFilters) (recipe : Recipe) : bool :=
  match filters_categories filters with
  | None | Some [] => true
  | Some cs => shares_category cs recipe
  end.

Definition recipesWithFullTextSearch (availableIngredients : list jsstring)
           (filters : option RecipeFilters) : Resolver (list SearchResult) :=
  if (List.length availableIngredients =? 0)%nat then ret []
  else
    let searchTerms := join (str " | ") availableIngredients in
    results <- queryRawFullText searchTerms true 50 ;;
    let results :=
      match filters with
      | Some f => List.filter (fun r => veganMatch f (row r) && categoryMatch f (row r))
                              results
      | None => results
      end in
    ret (List.map (fun r => {| sr_recipe := r; relevanceScore := relevance_score r |})
                  results).

End WithLowerCase.
End ResolversTs.



(* ================================================================== *)
(** * Vocabulary of the statements *)
(* ================================================================== *)

Module Text.
Import JS.

(** [w] occurs in [s] as a contiguous run of code units. *)
Definition occurs (w s : jsstring) : Prop :=
  exists pre post, s = pre ++ w ++ post.

Definition starts (w s : jsstring) : Prop := exists post, s = w ++ post.

(** [\w]: letters, digits and the underscore. *)
Definition is_word_char (c : codeunit) : bool :=
  ((48 <=? c) && (c <=? 57) || (65 <=? c) && (c <=? 90)
   || (97 <=? c) && (c <=? 122) || (c =? 95))%N.

Definition boundary_after (post : jsstring) : bool :=
  match post with
  | [] => true
  | c :: _ => negb (is_word_char c)
  end.

Definition boundary_before (pre : jsstring) : bool := boundary_after (rev pre).

(** [w] occurs in [s] as a whole word: with a word boundary on both sides. *)
Definition occurs_as_word (w s : jsstring) : Prop :=
  exists pre post, s = pre ++ w ++ post
                   /\ boundary_before pre = true /\ boundary_after post = true.

Definition space : codeunit := 32%N.

Definition star_char : codeunit := 42%N.

(** A vocabulary word is non-empty and made of non-space code units. *)
Definition wellformed_unit (u : jsstring) : bool :=
  negb (List.length u =? 0)%nat && forallb (fun c => negb (is_space c)) u.

(** A matcher that hands to its continuation an input shorter by at least
    [n] code units. *)
Definition advances (n : nat) (m : Matcher) : Prop :=
  forall s k r, m s k = Some r ->
                exists s', k s' = Some r /\ (List.length s' + n <= List.length s)%nat.

End Text.

Module Ranking.
Section DescendingKey.
Variable A : Type.
Variable key : A -> Z.

(** The comparator [(a, b) => key(b) - key(a)]. *)
Definition descending (a b : A) : Z := (key b - key a)%Z.

Definition keyIs (p : Z) (a : A) : bool := (key a =? p)%Z.

Definition nonIncreasing : list A -> Prop :=
  StronglySorted (fun a b => (key b <= key a)%Z).

End DescendingKey.
End Ranking.

(* ================================================================== *)
(** * Predicates and sample data used in the statements *)
(* ================================================================== *)

Module Statements.
Import JS Prisma.

(** The MatchResult invariant, for a result [r] computed from the
    normalised ingredient list [required]: the percentage is 0 for an empty
    list and otherwise [Math.round((matchingCount / total) * 100)], with the
    counts reported in the result; in both cases it lies in [0, 100]. *)
Definition percentageInvariant (required : list jsstring) (r : MatchResult) : Prop :=
  let total := List.length required in
  let matching := (total - List.length (missingIngredients r))%nat in
  (total = 0%nat -> matchPercentage r = 0%Z)
  /\ ((0 < total)%nat ->
      matchPercentage r
      = Number.Math_round
          (Number.fmul (Number.fdiv (Number.of_nat matching) (Number.of_nat total)) 100)
      /\ matchingIngredientsCount r = Some matching
      /\ totalIngredientsCount r = Some total)
  /\ (0 <= matchPercentage r <= 100)%Z.


(** [round(matching / total * 100)] as the specification words it: the
    exact quotient, rounded to the nearest integer, a half going up; that
    is, the floor of [(200 * matching + total) / (2 * total)]. *)
Definition exactRound (matching total : nat) : Z :=
  ((200 * Z.of_nat matching + Z.of_nat total) / (2 * Z.of_nat total))%Z.




(** Comparison of two reported matching counts; the field is absent on
    both sides when the recipe has no normalised ingredient. *)
Definition countLe (a b : option nat) : Prop :=
  match a, b with
  | Some x, Some y => (x <= y)%nat
  | None, None => True
  | _, _ => False
  end.

(** The code units the quantity stage is written to remove. *)
Definition hasQuantityChar (tok : jsstring) : Prop :=
  exists c, In c tok /\ is_quantity_char c = true.

End Statements.

Module Samples.
Import JS Prisma.

Definition mkRecipe (n : Z) (lines : list string) (isVegan : bool) : Recipe :=
  {| id := n; recipeName := str "sample"; ingredients := List.map str lines;
     vegan := isVegan; categories := [] |}.

(** A store whose text search selects every row, with relevance 1. *)
Definition storeOf (rows : list Recipe) : Store :=
  {| table := rows;
     textSearch := fun _ _ =>
       List.map (fun r => {| row := r; relevance_score := 1 |}) rows |}.

Definition garlicMinced : Recipe := mkRecipe 1 ["garlic, minced"%string] false.

(** 199 lines of rice and one of pepper. *)
Definition riceAndPepper : Recipe :=
  mkRecipe 2 (List.repeat "rice"%string 199 ++ ["pepper"%string]) true.

Definition riceBowl : Recipe := mkRecipe 3 ["rice"%string; "pepper"%string] true.


(** A scored entry with nothing but an id and a percentage. *)
Definition entry (n p : Z) : MatchResult :=
  {| recipe := mkRecipe n [] false; matchPercentage := p;
     matchingIngredientsCount := None; totalIngredientsCount := None;
     missingIngredients := [] |}.

Definition onlyVegan : RecipeFilters :=
  {| filters_vegan := Some true; filters_categories := None |}.

Definition onlyNonVegan : RecipeFilters :=
  {| filters_vegan := Some false; filters_categories := None |}.

End Samples.

(* ================================================================== *)
(** * The remaining resolvers of src/lib/graphql/resolvers.ts *)
(* ================================================================== *)

Module ResolversTsRest.
Import JS Prisma.
Local Open Scope resolver_scope.

Section WithLowerCase.
Variable toLowerCase : jsstring -> jsstring.

Definition findRecipesByCategories (categories : list jsstring)
           (filters : option RecipeFilters) : Resolver (list Recipe) :=
  let where_ := buildPrismaWhereClause filters in
  let whereClause :=
    {| AND := Some ((match AND where_ with Some cs => cs | None => [] end)
                    ++ [CategoriesHasSome categories]) |} in
  findMany whereClause.

(** [availableIngredients.flatMap((ing) => [ing, ...(ingredientMap[...] || [])])]:
    in this file the term itself is kept as typed. *)
Definition expandIngredients (availableIngredients : list jsstring) : list jsstring :=
  List.flat_map
    (fun ing => ing ::
                match Part001.ingredientMap (toLowerCase ing) with
                | Some aliases => aliases
                | None => []
                end)
    availableIngredients.

Definition smartMatchedBy (expandedIngredients : list jsstring)
           (ingredient : jsstring) : bool :=
  existsb (fun available =>
             includes (toLowerCase ingredient) (toLowerCase available))
          expandedIngredients.

Definition smartScoreRecipe (expandedIngredients : list jsstring) (recipe : Recipe)
  : MatchResult :=
  let recipeIngredients :=
    ResolversTs.extractIngredientNames toLowerCase (ingredients recipe) in
  let missingIngredients :=
    List.filter (fun ingredient => negb (smartMatchedBy expandedIngredients ingredient))
                recipeIngredients in
  let matchingCount :=
    (List.length recipeIngredients - List.length missingIngredients)%nat in
  let matchPercentage :=
    if (0 <? List.length recipeIngredients)%nat
    then Number.percentage matchingCount (List.length recipeIngredients)
    else Number.Math_round 0 in
  {| recipe := recipe;
     matchPercentage := matchPercentage;
     matchingIngredientsCount := Some matchingCount;
     totalIngredientsCount := Some (List.length recipeIngredients);
     missingIngredients := missingIngredients |}.

Definition recipesWithSmartMatching (availableIngredients : list jsstring)
           (minMatchPercentage : Z) (filters : option RecipeFilters)
  : Resolver (list MatchResult) :=
  let where_ := buildPrismaWhereClause filters in
  allRecipes <- findMany where_ ;;
  let expandedIngredients := expandIngredients availableIngredients in
  let recipesWithScores :=
    List.map (smartScoreRecipe expandedIngredients) allRecipes in
  ret (filterAndSort minMatchPercentage recipesWithScores).

End WithLowerCase.

(** ** The two resolvers written in SQL *)

(** A value bound to a [$n] placeholder. *)
Inductive SqlValue :=
| SqlText (s : jsstring)
| SqlBool (b : bool)
| SqlTextArray (l : list jsstring)
| SqlInt (n : option Z).

(** What PostgreSQL answers to the two statements. *)
Record SqlStore := {
  queryRawUnsafe : jsstring -> list SqlValue -> list Recipe;
  querySimilarTo : jsstring -> option Z -> list Recipe
}.

Inductive SqlCall :=
| RawUnsafe (query : jsstring) (queryParams : list SqlValue)
| RawSimilarTo (ingredientPattern : jsstring) (limit : option Z).

Definition SqlResolver (A : Type) : Type := SqlStore -> A * list SqlCall.

(** A number inside a template literal: its decimal numeral. *)
Definition decimal (n : nat) : jsstring :=
  str (DecimalString.NilEmpty.string_of_uint (Nat.to_uint n)).

Definition quote : jsstring := [34%N].

(** The three variables that the statement builder updates. *)
Record Builder := {
  whereClauses : list jsstring;
  queryParams : list SqlValue;
  paramIndex : nat
}.

(** The body of [ingredientNames.forEach]. *)
Definition addName (b : Builder) (name : jsstring) : Builder :=
  {| whereClauses :=
       whereClauses b
       ++ [str "array_to_string(ingredients, ' ') ILIKE $" ++ decimal (paramIndex b)];
     queryParams := queryParams b ++ [SqlText (str "%" ++ name ++ str "%")];
     paramIndex := S (paramIndex b) |}.

Definition addVegan (b : Builder) (filters : option RecipeFilters) : Builder :=
  match filters with
  | Some {| filters_vegan := Some v |} =>
      {| whereClauses := whereClauses b ++ [str "vegan = $" ++ decimal (paramIndex b)];
         queryParams := queryParams b ++ [SqlBool v];
         paramIndex := S (paramIndex b) |}
  | _ => b
  end.

Definition addCategories (b : Builder) (filters : option RecipeFilters) : Builder :=
  match filters with
  | Some {| filters_categories := Some (c :: cs) |} =>
      {| whereClauses :=
           whereClauses b ++ [str "categories && $" ++ decimal (paramIndex b)];
         queryParams := queryParams b ++ [SqlTextArray (c :: cs)];
         paramIndex := S (paramIndex b) |}
  | _ => b
  end.

(** The statement and the parameters handed to [$queryRawUnsafe]. *)
Definition buildStatement (ingredientNames : list jsstring)
           (filters : option RecipeFilters) : jsstring * list SqlValue :=
  let start := {| whereClauses := []; queryParams := []; paramIndex := 1 |} in
  let b := addCategories
             (addVegan (List.fold_left addName ingredientNames start) filters)
             filters in
  let query := str "SELECT * FROM " ++ quote ++ str "Recipe" ++ quote in
  let query :=
    if (0 <? List.length (whereClauses b))%nat
    then query ++ str " WHERE " ++ join (str " AND ") (whereClauses b)
    else query in
  (query ++ str " LIMIT 50;", queryParams b).

Definition findRecipesByIngredientNames (ingredientNames : list jsstring)
           (filters : option RecipeFilters) : SqlResolver (list Recipe) :=
  if (List.length ingredientNames =? 0)%nat then fun _ => ([], [])
  else
    let (query, params) := buildStatement ingredientNames filters in
    fun st => (queryRawUnsafe st query params, [RawUnsafe query params]).

Definition quickRecipeSuggestions (toLowerCase : jsstring -> jsstring)
           (availableIngredients : list jsstring) (limit : option Z)
           (filters : option RecipeFilters) : SqlResolver (list Recipe) :=
  if (List.length availableIngredients =? 0)%nat then fun _ => ([], [])
  else
    let ingredientPattern :=
      join (str "|")
           (List.map (fun ing => str "%" ++ toLowerCase ing ++ str "%")
                     availableIngredients) in
    fun st =>
      let results := querySimilarTo st ingredientPattern limit in
      let results :=
        match filters with
        | Some f => List.filter (fun recipe => ResolversTs.veganMatch f recipe
                                               && ResolversTs.categoryMatch f recipe)
                                results
        | None => results
        end in
      (results, [RawSimilarTo ingredientPattern limit]).

End ResolversTsRest.

(* ================================================================== *)
(** * getHomeScreenData of src/unnamed/part_001: popular categories *)
(* ================================================================== *)

(** The recipe of the day depends on the clock and the featured recipes on
    the collation of the database; the category ranking is computed in the
    resolver and is modelled here. *)
Module HomeScreen.
Import JS Prisma.

(** [Map<string, number>]: entries in insertion order, keys distinct. *)
Definition CategoryCounts := list (jsstring * nat).

Fixpoint mapGet (m : CategoryCounts) (key : jsstring) : option nat :=
  match m with
  | [] => None
  | (k, v) :: m' => if jsstring_eqb k key then Some v else mapGet m' key
  end.

(** [Map.prototype.set]: an existing key keeps its place. *)
Fixpoint mapSet (m : CategoryCounts) (key : jsstring) (value : nat) : CategoryCounts :=
  match m with
  | [] => [(key, value)]
  | (k, v) :: m' =>
      if jsstring_eqb k key then (k, value) :: m' else (k, v) :: mapSet m' key value
  end.

(** [categoryCounts.set(category, (categoryCounts.get(category) || 0) + 1)] *)
Definition countCategory (m : CategoryCounts) (category : jsstring) : CategoryCounts :=
  mapSet m category
         ((match mapGet m category with Some n => n | None => 0 end) + 1)%nat.

Definition countCategories (allRecipes : list Recipe) : CategoryCounts :=
  List.fold_left (fun m recipe => List.fold_left countCategory (categories recipe) m)
                 allRecipes [].

(** [[...categoryCounts.entries()].sort((a, b) => b[1] - a[1]).slice(0, 10)
     .map((entry) => entry[0])] *)
Definition popularCategories (allRecipes : list Recipe) : list jsstring :=
  List.map fst
    (Array.slice0
       (Array.sort (fun a b => (Z.of_nat (snd b) - Z.of_nat (snd a))%Z)
                   (countCategories allRecipes))
       10).

End HomeScreen.

(* ================================================================== *)
(** * Further vocabulary *)
(* ================================================================== *)

Module Shapes.
Import JS Prisma.

(** How often a category is listed in the table. *)
Definition occurrences (allRecipes : list Recipe) (category : jsstring) : nat :=
  count_occ (list_eq_dec N.eq_dec) (List.flat_map categories allRecipes) category.

(** The vegan and category conditions of a filter, as the where clause
    states them. *)
Definition meetsFilters (filters : option RecipeFilters) (recipe : Recipe) : Prop :=
  match filters with
  | None => True
  | Some f =>
      (forall b, filters_vegan f = Some b -> vegan recipe = b)
      /\ (forall c cs, filters_categories f = Some (c :: cs) ->
                       exists cat, In cat (c :: cs) /\ In cat (categories recipe))
  end.

(** Position in a token: at its start, inside a word, right after a space. *)
Inductive Position := AtStart | InWord | AfterSpace.

(** Words without white space, separated by single U+0020, and no white
    space at either end. *)
Fixpoint spaced (p : Position) (s : jsstring) : bool :=
  match s with
  | [] => match p with AfterSpace => false | _ => true end
  | c :: t =>
      match p with
      | InWord =>
          if is_space c then (c =? 32)%N && spaced AfterSpace t
          else spaced InWord t
      | _ => negb (is_space c) && spaced InWord t
      end
  end.

Definition singleSpaced (s : jsstring) : bool := spaced AtStart s.

(** The property names every object literal inherits: looking one of them
    up in [ingredientMap] finds a function or an object, and spreading it
    throws. *)
Definition inheritedKeys : list jsstring :=
  List.map str ["constructor"; "__proto__"; "toString"; "valueOf";
                "hasOwnProperty"; "isPrototypeOf"; "propertyIsEnumerable";
                "toLocaleString"; "__defineGetter__"; "__defineSetter__";
                "__lookupGetter__"; "__lookupSetter__"]%string.

(** Eleven categories on one recipe and the last of them on another. *)
Definition pantry : list Recipe :=
  [ {| id := 1; recipeName := str "all"; ingredients := []; vegan := true;
       categories := List.map str ["a"; "b"; "c"; "d"; "e"; "f"; "g"; "h"; "i";
                                   "j"; "k"]%string |};
    {| id := 2; recipeName := str "one"; ingredients := []; vegan := true;
       categories := [str "k"] |} ].

(** No white space in front, none at the end. *)
Definition startsClean (s : jsstring) : bool :=
  match s with
  | [] => true
  | c :: _ => negb (is_space c)
  end.

Definition endsClean (s : jsstring) : bool := startsClean (rev s).

(** Which of the two conditions a filter adds to a statement. *)
Definition filterShape (filters : option RecipeFilters) : bool * bool :=
  match filters with
  | None => (false, false)
  | Some f =>
      (match filters_vegan f with Some _ => true | None => false end,
       match filters_categories f with Some (_ :: _) => true | _ => false end)
  end.

(** The conditions of a statement for [n] names, with their placeholders
    numbered from 1. *)
Definition numberedClauses (n : nat) (shape : bool * bool) : list jsstring :=
  List.map (fun i => str "array_to_string(ingredients, ' ') ILIKE $"
                     ++ ResolversTsRest.decimal i)
           (List.seq 1 n)
  ++ (if fst shape then [str "vegan = $" ++ ResolversTsRest.decimal (S n)] else [])
  ++ (if snd shape
      then [str "categories && $"
            ++ ResolversTsRest.decimal (if fst shape then S (S n) else S n)]
      else []).

(** The values bound to those placeholders, in order. *)
Definition boundValues (ingredientNames : list jsstring)
           (filters : option RecipeFilters) : list ResolversTsRest.SqlValue :=
  List.map (fun name => ResolversTsRest.SqlText (str "%" ++ name ++ str "%"))
           ingredientNames
  ++ (match filters with
      | Some {| filters_vegan := Some v |} => [ResolversTsRest.SqlBool v]
      | _ => []
      end)
  ++ (match filters with
      | Some {| filters_categories := Some (c :: cs) |} =>
          [ResolversTsRest.SqlTextArray (c :: cs)]
      | _ => []
      end).

(** [s] lists the elements of [l] that satisfy [P], in the order of [l]. *)
Inductive Selected (A : Type) (P : A -> Prop) : list A -> list A -> Prop :=
| Selected_nil : Selected P [] []
| Selected_keep (x : A) (l s : list A) :
    P x -> Selected P l s -> Selected P (x :: l) (x :: s)
| Selected_skip (x : A) (l s : list A) :
    ~ P x -> Selected P l s -> Selected P (x :: l) s.

(** Some available term, lower-cased, occurs in some of the tokens. *)
Definition quickMatch (toLowerCase : jsstring -> jsstring)
           (availableIngredients tokens : list jsstring) : Prop :=
  exists ing avail,
    In ing tokens /\ In avail availableIngredients
    /\ Text.occurs (toLowerCase avail) ing.

(** The recipes a quick suggestion may be: those that meet the filters and
    have an ingredient in which some lower-cased available term occurs;
    part_001 looks at the normalised ingredients, part_000 at the
    lower-cased lines. *)
Definition suggested001 (toLowerCase : jsstring -> jsstring)
           (availableIngredients : list jsstring)
           (filters : option RecipeFilters) (rec : Recipe) : Prop :=
  meetsFilters filters rec
  /\ quickMatch toLowerCase availableIngredients
                (Part001.extractIngredientNames toLowerCase (ingredients rec)).

Definition suggested000 (toLowerCase : jsstring -> jsstring)
           (availableIngredients : list jsstring)
           (filters : option RecipeFilters) (rec : Recipe) : Prop :=
  meetsFilters filters rec
  /\ quickMatch toLowerCase availableIngredients
                (List.map toLowerCase (ingredients rec)).

Definition plainKeys (toLowerCase : jsstring -> jsstring)
           (availableIngredients : list jsstring) : Prop :=
  forall ing, In ing availableIngredients -> ~ In (toLowerCase ing) inheritedKeys.

End Shapes.

(* ================================================================== *)
(** * Facts about the number model *)
(* ================================================================== *)

Module NumberFacts.
Import Number.
Local Open Scope Q_scope.

Lemma pow2_pos (e : Z) : 0 < pow2 e.
Proof.
  unfold pow2. apply Qpower_0_lt. reflexivity.
Qed.

Lemma pow2_add (a b : Z) : pow2 (a + b) == pow2 a * pow2 b.
Proof. unfold pow2. apply Qpower_plus. discriminate. Qed.

Lemma pow2_inject (a : Z) : (0 <= a)%Z -> pow2 a == inject_Z (2 ^ a).
Proof. intros H. unfold pow2. rewrite Zpower_Qpower by assumption. reflexivity. Qed.

(** [ilog2] never overshoots. *)
Lemma ilog2_le (q : Q) : 0 < q -> pow2 (ilog2 q) <= q.
Proof.
  intros Hq. unfold ilog2.
  destruct (Qle_bool (pow2 _) q) eqn:E.
  - now apply Qle_bool_iff.
  - clear E. destruct q as [num den]. cbn [Qnum Qden].
    assert (Hnum : (0 < num)%Z).
    { unfold Qlt in Hq. simpl in Hq. lia. }
    set (a := Z.log2 num). set (b := Z.log2 (Zpos den)).
    destruct (Z.log2_spec num Hnum) as [Ha _]. fold a in Ha.
    destruct (Z.log2_spec (Zpos den) eq_refl) as [_ Hb]. fold b in Hb.
    assert (Ha0 : (0 <= a)%Z) by apply Z.log2_nonneg.
    assert (Hb0 : (0 <= b)%Z) by apply Z.log2_nonneg.
    replace (a - b - 1)%Z with (a + - (b + 1))%Z by lia.
    rewrite pow2_add. unfold pow2 at 2. rewrite Qpower_opp.
    fold (pow2 (b + 1)). rewrite !pow2_inject by lia.
    rewrite (Qmake_Qdiv num den).
    apply Qle_shift_div_l; [reflexivity|].
    assert (HB : 0 < inject_Z (2 ^ (b + 1))).
    { rewrite <- pow2_inject by lia. apply pow2_pos. }
    setoid_replace (inject_Z (2 ^ a) * / inject_Z (2 ^ (b + 1)) * inject_Z (Zpos den))
      with (inject_Z (2 ^ a) * inject_Z (Zpos den) / inject_Z (2 ^ (b + 1)))
      by (field; intro F; rewrite F in HB; discriminate).
    apply Qle_shift_div_r; [assumption|].
    rewrite <- !inject_Z_mult. rewrite <- Zle_Qle.
    apply Z.mul_le_mono_nonneg; lia.
Qed.

(** ... and is the largest such exponent. *)
Lemma ilog2_lt (q : Q) : 0 < q -> q < pow2 (ilog2 q + 1).
Proof.
  intros Hq. unfold ilog2.
  destruct (Qle_bool (pow2 _) q) eqn:E.
  - clear E. destruct q as [num den]. cbn [Qnum Qden].
    assert (Hnum : (0 < num)%Z).
    { unfold Qlt in Hq. simpl in Hq. lia. }
    set (a := Z.log2 num). set (b := Z.log2 (Zpos den)).
    destruct (Z.log2_spec num Hnum) as [_ Ha]. fold a in Ha.
    destruct (Z.log2_spec (Zpos den) eq_refl) as [Hb _]. fold b in Hb.
    assert (Ha0 : (0 <= a)%Z) by apply Z.log2_nonneg.
    assert (Hb0 : (0 <= b)%Z) by apply Z.log2_nonneg.
    replace (a - b + 1)%Z with ((a + 1) + - b)%Z by lia.
    rewrite pow2_add. unfold pow2 at 2. rewrite Qpower_opp.
    fold (pow2 b). rewrite !pow2_inject by lia.
    rewrite (Qmake_Qdiv num den).
    assert (HB : 0 < inject_Z (2 ^ b)).
    { rewrite <- pow2_inject by lia. apply pow2_pos. }
    apply Qlt_shift_div_r; [reflexivity|].
    setoid_replace (inject_Z (2 ^ (a + 1)) * / inject_Z (2 ^ b) * inject_Z (Zpos den))
      with (inject_Z (2 ^ (a + 1)) * inject_Z (Zpos den) / inject_Z (2 ^ b))
      by (field; intro F; rewrite F in HB; discriminate).
    apply Qlt_shift_div_l; [assumption|].
    rewrite <- !inject_Z_mult. rewrite <- Zlt_Qlt.
    assert (0 < 2 ^ b)%Z by (apply Z.pow_pos_nonneg; lia).
    replace (Z.succ a) with (a + 1)%Z in Ha by lia. nia.
  - replace (_ - 1 + 1)%Z with (Z.log2 (Qnum q) - Z.log2 (Zpos (Qden q)))%Z by lia.
    apply Qnot_le_lt. intro H. apply Qle_bool_iff in H. congruence.
Qed.

Lemma round_half_even_le (y : Q) : inject_Z (round_half_even y) <= y + (1 # 2).
Proof.
  unfold round_half_even.
  pose proof (Qfloor_le y) as Hf.
  destruct (Qcompare (y - inject_Z (Qfloor y)) (1 # 2)) eqn:E.
  - apply Qeq_alt in E.
    destruct (Z.even (Qfloor y)); [lra|].
    rewrite inject_Z_plus. change (inject_Z 1) with 1. lra.
  - lra.
  - apply Qgt_alt in E. rewrite inject_Z_plus. change (inject_Z 1) with 1. lra.
Qed.

Lemma round_half_even_ge (y : Q) : y - (1 # 2) <= inject_Z (round_half_even y).
Proof.
  unfold round_half_even.
  pose proof (Qlt_floor y) as Hf. rewrite inject_Z_plus in Hf.
  change (inject_Z 1) with 1 in Hf.
  destruct (Qcompare (y - inject_Z (Qfloor y)) (1 # 2)) eqn:E.
  - apply Qeq_alt in E.
    destruct (Z.even (Qfloor y)); [lra|].
    rewrite inject_Z_plus. change (inject_Z 1) with 1. lra.
  - apply Qlt_alt in E. lra.
  - rewrite inject_Z_plus. change (inject_Z 1) with 1. lra.
Qed.

Lemma round_half_even_nonneg (y : Q) : 0 <= y -> (0 <= round_half_even y)%Z.
Proof.
  intros Hy. unfold round_half_even.
  assert (H0 : (0 <= Qfloor y)%Z).
  { change 0%Z with (Qfloor 0). now apply Qfloor_resp_le. }
  destruct (Qcompare _ _); [destruct (Z.even _)| |]; lia.
Qed.

(** [fl] depends on the value of its argument only. *)
Lemma fl_proper (x y : Q) : x == y -> fl x = fl y.
Proof. intros H. unfold fl. now rewrite (Qred_complete x y H). Qed.

Lemma fl_nonneg (x : Q) : 0 <= fl x.
Proof.
  unfold fl. destruct (Qle_bool (Qred x) 0) eqn:E; [lra|].
  assert (Hq : 0 < Qred x).
  { apply Qnot_le_lt. intro H. apply Qle_bool_iff in H. congruence. }
  apply Qmult_le_0_compat.
  - change 0 with (inject_Z 0). rewrite <- Zle_Qle.
    apply round_half_even_nonneg.
    apply Qle_shift_div_l; [apply pow2_pos|]. lra.
  - apply Qlt_le_weak, pow2_pos.
Qed.

(** The relative error of rounding to binary64 is at most 2^-53. *)
Lemma fl_upper (x : Q) : 0 <= x -> fl x <= x * (1 + pow2 (-53)).
Proof.
  intros Hx. unfold fl.
  pose proof (Qred_correct x) as Hred.
  destruct (Qle_bool (Qred x) 0) eqn:E.
  - pose proof (pow2_pos (-53)). nra.
  - assert (Hq : 0 < Qred x).
    { apply Qnot_le_lt. intro H. apply Qle_bool_iff in H. congruence. }
    set (q := Qred x) in *. set (e := (ilog2 q - 52)%Z).
    pose proof (pow2_pos e) as HP.
    pose proof (round_half_even_le (q / pow2 e)) as Hr.
    pose proof (ilog2_le Hq) as Hl.
    assert (He : pow2 e * 2 == pow2 (ilog2 q) * pow2 (-53) * (2 * 2)).
    { unfold e. replace (ilog2 q - 52)%Z with (ilog2 q + -52)%Z by lia.
      rewrite pow2_add. unfold pow2 at 2 4. simpl. field. }
    assert (Hm : inject_Z (round_half_even (q / pow2 e)) * pow2 e
                 <= (q / pow2 e + (1 # 2)) * pow2 e).
    { apply Qmult_le_compat_r; [assumption | lra]. }
    assert (Hd : (q / pow2 e + (1 # 2)) * pow2 e == q + pow2 e * (1 # 2)).
    { field. intro F. rewrite F in HP. discriminate. }
    rewrite Hd in Hm.
    pose proof (pow2_pos (-53)) as H53.
    assert (Hb : pow2 (ilog2 q) * pow2 (-53) <= q * pow2 (-53)).
    { apply Qmult_le_compat_r; lra. }
    rewrite <- Hred. fold q. lra.
Qed.

Lemma fl_lower (x : Q) : 0 <= x -> x * (1 - pow2 (-53)) <= fl x.
Proof.
  intros Hx. unfold fl.
  pose proof (Qred_correct x) as Hred.
  destruct (Qle_bool (Qred x) 0) eqn:E.
  - apply Qle_bool_iff in E. pose proof (pow2_pos (-53)).
    assert (x == 0) by lra. nra.
  - assert (Hq : 0 < Qred x).
    { apply Qnot_le_lt. intro H. apply Qle_bool_iff in H. congruence. }
    set (q := Qred x) in *. set (e := (ilog2 q - 52)%Z).
    pose proof (pow2_pos e) as HP.
    pose proof (round_half_even_ge (q / pow2 e)) as Hr.
    pose proof (ilog2_le Hq) as Hl.
    assert (He : pow2 e * 2 == pow2 (ilog2 q) * pow2 (-53) * (2 * 2)).
    { unfold e. replace (ilog2 q - 52)%Z with (ilog2 q + -52)%Z by lia.
      rewrite pow2_add. unfold pow2 at 2 4. simpl. field. }
    assert (Hm : (q / pow2 e - (1 # 2)) * pow2 e
                 <= inject_Z (round_half_even (q / pow2 e)) * pow2 e).
    { apply Qmult_le_compat_r; [assumption | lra]. }
    assert (Hd : (q / pow2 e - (1 # 2)) * pow2 e == q - pow2 e * (1 # 2)).
    { field. intro F. rewrite F in HP. discriminate. }
    rewrite Hd in Hm.
    pose proof (pow2_pos (-53)) as H53.
    assert (Hb : pow2 (ilog2 q) * pow2 (-53) <= q * pow2 (-53)).
    { apply Qmult_le_compat_r; lra. }
    rewrite <- Hred. fold q. lra.
Qed.

Lemma of_nat_nonneg (n : nat) : 0 <= of_nat n.
Proof. unfold of_nat. change 0 with (inject_Z 0). rewrite <- Zle_Qle. lia. Qed.

Lemma ratio_bounds (m n : nat) :
  (m <= n)%nat -> 0 <= of_nat m / of_nat n <= 1.
Proof.
  intros Hmn. destruct n as [|n].
  - assert (m = 0)%nat by lia. subst. split; [apply Qle_refl | discriminate].
  - assert (Hn : 0 < of_nat (S n)).
    { unfold of_nat. change 0 with (inject_Z 0). rewrite <- Zlt_Qlt. lia. }
    split.
    + apply Qle_shift_div_l; [assumption|]. pose proof (of_nat_nonneg m). lra.
    + apply Qle_shift_div_r; [assumption|].
      unfold of_nat. rewrite Qmult_1_l. rewrite <- Zle_Qle. lia.
Qed.

(** The percentage of the scorers is an integer between 0 and 100. *)
Lemma percentage_range (m n : nat) :
  (m <= n)%nat -> (0 <= percentage m n <= 100)%Z.
Proof.
  intros Hmn. unfold percentage, Math_round, fmul, fdiv.
  destruct (ratio_bounds Hmn) as [Hlo Hhi].
  set (a := of_nat m / of_nat n) in *.
  pose proof (fl_nonneg a) as H1.
  pose proof (fl_upper Hlo) as H2.
  pose proof (fl_nonneg (fl a * 100)) as H3.
  assert (H4 : 0 <= fl a * 100) by lra.
  pose proof (fl_upper H4) as H5.
  set (x := fl (fl a * 100)) in *.
  assert (Heps : pow2 (-53) == 1 # 9007199254740992) by reflexivity.
  rewrite Heps in *.
  split.
  - change 0%Z with (Qfloor 0). apply Qfloor_resp_le. lra.
  - assert (Hx : x + (1 # 2) < 101).
    { assert (fl a <= 1 + (1 # 9007199254740992)) by nra.
      assert (x <= 100 * (1 + (1 # 9007199254740992)) * (1 + (1 # 9007199254740992))) by nra.
      lra. }
    pose proof (Qfloor_le (x + (1 # 2))) as Hf.
    assert (Hlt : inject_Z (Qfloor (x + (1 # 2))) < inject_Z 101).
    { change (inject_Z 101) with 101. lra. }
    rewrite <- Zlt_Qlt in Hlt. lia.
Qed.

(** The binary64 percentage is within one of the exactly rounded one. *)
Lemma percentage_near_exact (m n : nat) :
  (m <= n)%nat ->
  let exact := Math_round (of_nat m / of_nat n * 100) in
  (exact - 1 <= percentage m n <= exact + 1)%Z.
Proof.
  intros Hmn exact. unfold exact, percentage, Math_round, fmul, fdiv.
  destruct (ratio_bounds Hmn) as [Hlo Hhi].
  set (a := of_nat m / of_nat n) in *.
  pose proof (fl_nonneg a) as H1.
  pose proof (fl_upper Hlo) as H2.
  pose proof (fl_lower Hlo) as H2'.
  assert (H4 : 0 <= fl a * 100) by lra.
  pose proof (fl_upper H4) as H5.
  pose proof (fl_lower H4) as H5'.
  set (x := fl (fl a * 100)) in *.
  assert (Heps : pow2 (-53) == 1 # 9007199254740992) by reflexivity.
  rewrite Heps in *.
  assert (Hx1 : x < a * 100 + (1 # 2)) by nra.
  assert (Hx2 : a * 100 - (1 # 2) < x) by nra.
  pose proof (Qfloor_le (x + (1 # 2))) as F1.
  pose proof (Qlt_floor (x + (1 # 2))) as F1'.
  pose proof (Qfloor_le (a * 100 + (1 # 2))) as F2.
  pose proof (Qlt_floor (a * 100 + (1 # 2))) as F2'.
  rewrite inject_Z_plus in F1', F2'. change (inject_Z 1) with 1 in F1', F2'.
  set (p := Qfloor (x + (1 # 2))) in *.
  set (e := Qfloor (a * 100 + (1 # 2))) in *.
  assert (Ha : inject_Z p < inject_Z (e + 2)).
  { rewrite inject_Z_plus. change (inject_Z 2) with 2. lra. }
  assert (Hb : inject_Z e < inject_Z (p + 2)).
  { rewrite inject_Z_plus. change (inject_Z 2) with 2. lra. }
  rewrite <- Zlt_Qlt in Ha, Hb. lia.
Qed.

(** A full match scores exactly 100. *)
Lemma percentage_full (n : nat) : (0 < n)%nat -> percentage n n = 100%Z.
Proof.
  intros Hn. unfold percentage, fdiv.
  assert (H1 : of_nat n / of_nat n == 1).
  { unfold of_nat. field. change 0 with (inject_Z 0). rewrite inject_Z_injective. lia. }
  rewrite (fl_proper H1). vm_compute. reflexivity.
Qed.

End NumberFacts.

(* ================================================================== *)
(** * Facts about sorting by a descending key *)
(* ================================================================== *)

Module ArrayFacts.

Section DescendingKey.
Variable A : Type.
Variable key : A -> Z.

Local Abbreviation descending := (Ranking.descending key).
Local Abbreviation keyIs := (Ranking.keyIs key).
Local Abbreviation nonIncreasing := (Ranking.nonIncreasing key).

Lemma insert_perm (x : A) (l : list A) :
  Permutation (Array.insert descending x l) (x :: l).
Proof.
  induction l as [|y l IH]; simpl.
  - apply Permutation_refl.
  - destruct (0 <? descending x y)%Z.
    + rewrite IH. apply perm_swap.
    + apply Permutation_refl.
Qed.

Lemma sort_perm (l : list A) : Permutation (Array.sort descending l) l.
Proof.
  induction l as [|x l IH]; simpl.
  - constructor.
  - rewrite insert_perm. now constructor.
Qed.

Lemma insert_sorted (x : A) (l : list A) :
  nonIncreasing l -> nonIncreasing (Array.insert descending x l).
Proof.
  unfold Ranking.nonIncreasing.
  induction 1 as [|y l Hs IH Hy]; simpl.
  - repeat constructor.
  - destruct (0 <? descending x y)%Z eqn:E; unfold Ranking.descending in E.
    + constructor; [assumption|].
      rewrite Forall_forall in *. intros z Hz.
      apply (Permutation_in _ (insert_perm x l)) in Hz.
      destruct Hz as [<-|Hz]; [lia | auto].
    + constructor; [now constructor|].
      constructor; [lia|].
      rewrite Forall_forall in *. intros z Hz.
      specialize (Hy z Hz). lia.
Qed.

Lemma sort_sorted (l : list A) : nonIncreasing (Array.sort descending l).
Proof.
  induction l as [|x l IH]; simpl.
  - constructor.
  - now apply insert_sorted.
Qed.

(** Insertion moves [x] only past elements with a strictly larger key. *)
Lemma insert_stable (p : Z) (x : A) (l : list A) :
  filter (keyIs p) (Array.insert descending x l) = filter (keyIs p) (x :: l).
Proof.
  induction l as [|y l IH]; simpl; [reflexivity|].
  destruct (0 <? descending x y)%Z eqn:E; [|reflexivity].
  unfold Ranking.descending in E. simpl. rewrite IH. simpl. unfold Ranking.keyIs.
  destruct (key x =? p)%Z eqn:Ex; destruct (key y =? p)%Z eqn:Ey;
    try reflexivity; lia.
Qed.

Lemma sort_stable (p : Z) (l : list A) :
  filter (keyIs p) (Array.sort descending l) = filter (keyIs p) l.
Proof.
  induction l as [|x l IH]; simpl; [reflexivity|].
  rewrite insert_stable. simpl. now rewrite IH.
Qed.

(** Two lists in non-increasing key order that agree on every class of
    equal keys are the same list. *)
Lemma sorted_classes_unique (l1 l2 : list A) :
  nonIncreasing l1 -> nonIncreasing l2 ->
  (forall p, filter (keyIs p) l1 = filter (keyIs p) l2) ->
  l1 = l2.
Proof.
  unfold Ranking.nonIncreasing. intros H1. revert l2.
  induction H1 as [|x l1 Hs1 IH Hx]; intros l2 H2 Hf.
  - destruct l2 as [|y l2]; [reflexivity|].
    specialize (Hf (key y)). simpl in Hf. unfold Ranking.keyIs in Hf.
    rewrite Z.eqb_refl in Hf. discriminate.
  - destruct l2 as [|y l2].
    + specialize (Hf (key x)). simpl in Hf. unfold Ranking.keyIs in Hf.
      rewrite Z.eqb_refl in Hf. discriminate.
    + inversion H2 as [|y' l2' Hs2 Hy]; subst.
      rewrite Forall_forall in Hx, Hy.
      assert (Hk : key x = key y).
      { destruct (Z.lt_trichotomy (key x) (key y)) as [Hlt|[Heq|Hgt]];
          [exfalso | assumption | exfalso].
        - pose proof (Hf (key y)) as Hfy. simpl in Hfy. unfold Ranking.keyIs in Hfy.
          rewrite Z.eqb_refl in Hfy.
          replace (key x =? key y)%Z with false in Hfy by lia.
          assert (Hin : In y (filter (keyIs (key y)) l1)).
          { unfold Ranking.keyIs. rewrite Hfy. now left. }
          apply filter_In in Hin. destruct Hin as [Hin _].
          specialize (Hx y Hin). lia.
        - pose proof (Hf (key x)) as Hfx. simpl in Hfx. unfold Ranking.keyIs in Hfx.
          rewrite Z.eqb_refl in Hfx.
          replace (key y =? key x)%Z with false in Hfx by lia.
          assert (Hin : In x (filter (keyIs (key x)) l2)).
          { unfold Ranking.keyIs. rewrite <- Hfx. now left. }
          apply filter_In in Hin. destruct Hin as [Hin _].
          specialize (Hy x Hin). lia. }
      assert (Hxy : x = y).
      { pose proof (Hf (key x)) as Hfx. simpl in Hfx. unfold Ranking.keyIs in Hfx.
        rewrite <- Hk in Hfx. rewrite !Z.eqb_refl in Hfx. congruence. }
      subst y. f_equal. apply IH; [assumption|].
      intros p. specialize (Hf p). simpl in Hf.
      destruct (keyIs p x); congruence.
Qed.

(** Hence [Array.sort] is the only stable sort: whatever algorithm the
    engine runs, a stable result in comparator order is this list. *)
Lemma stable_sort_unique (l out : list A) :
  nonIncreasing out ->
  (forall p, filter (keyIs p) out = filter (keyIs p) l) ->
  out = Array.sort descending l.
Proof.
  intros Hs Hf. apply sorted_classes_unique; [assumption | apply sort_sorted |].
  intros p. now rewrite Hf, sort_stable.
Qed.

End DescendingKey.
End ArrayFacts.

(* ================================================================== *)
(** * Facts about matchers and replacement *)
(* ================================================================== *)

Module TextFacts.
Import JS Text.

Lemma starts_nil (s : jsstring) : starts [] s.
Proof. now exists s. Qed.

Lemma starts_cons (c : codeunit) (w s : jsstring) :
  starts w s -> starts (c :: w) (c :: s).
Proof. intros [post ->]. now exists post. Qed.

Lemma starts_cons_inv (a c : codeunit) (w s : jsstring) :
  starts (a :: w) (c :: s) -> a = c /\ starts w s.
Proof. intros [post H]. simpl in H. injection H as -> ->. split; [reflexivity | now exists post]. Qed.

Lemma starts_occurs (w s : jsstring) : starts w s -> occurs w s.
Proof. intros [post ->]. now exists [], post. Qed.

Lemma occurs_cons (c : codeunit) (w s : jsstring) : occurs w s -> occurs w (c :: s).
Proof. intros (pre & post & ->). now exists (c :: pre), post. Qed.

Lemma occurs_app (a b w s : jsstring) : occurs w s -> occurs w (a ++ s ++ b).
Proof.
  intros (pre & post & ->). exists (a ++ pre), (post ++ b).
  now rewrite <- !app_assoc.
Qed.

Lemma occurs_cons_inv (c : codeunit) (w s : jsstring) :
  occurs w (c :: s) -> starts w (c :: s) \/ occurs w s.
Proof.
  intros (pre & post & H). destruct pre as [|a pre]; simpl in H.
  - left. now exists post.
  - right. injection H as _ ->. now exists pre, post.
Qed.

Lemma occurs_as_word_occurs (w s : jsstring) : occurs_as_word w s -> occurs w s.
Proof. intros (pre & post & H & _). now exists pre, post. Qed.

Lemma occurs_In (w s : jsstring) (c : codeunit) : occurs w s -> In c w -> In c s.
Proof.
  intros (pre & post & ->) H. apply in_or_app. right. apply in_or_app. now left.
Qed.

(** ** Matchers *)

Lemma star_total (p : codeunit -> bool) (s : jsstring) (k : jsstring -> option jsstring) :
  (forall s', k s' <> None) -> star p s k <> None.
Proof.
  intros Hk. induction s as [|c t IH]; simpl; [apply Hk|].
  destruct (p c); [|apply Hk].
  destruct (star p t k); [discriminate | contradiction].
Qed.

Lemma star_stop (p : codeunit -> bool) (c : codeunit) (t : jsstring)
      (k : jsstring -> option jsstring) :
  p c = false -> star p (c :: t) k = k (c :: t).
Proof. intros H. simpl. now rewrite H. Qed.

Lemma eq_ci_refl (c : codeunit) : eq_ci c c = true.
Proof. unfold eq_ci. now rewrite N.eqb_refl. Qed.

Lemma lit_ci_self (w rest : jsstring) (k : jsstring -> option jsstring) :
  lit true w (w ++ rest) k = k rest.
Proof.
  induction w as [|c w IH]; simpl; [reflexivity|].
  unfold seq, one. rewrite eq_ci_refl. apply IH.
Qed.

Lemma alts_ci_some (ws : list jsstring) (w rest : jsstring)
      (k : jsstring -> option jsstring) :
  In w ws -> (forall s', k s' <> None) -> alts true ws (w ++ rest) k <> None.
Proof.
  intros Hin Hk. induction ws as [|w' ws IH]; [contradiction|].
  simpl. unfold alt. destruct (lit true w' (w ++ rest) k) eqn:E; [discriminate|].
  destruct Hin as [->|Hin]; [|now apply IH].
  rewrite lit_ci_self in E. now apply Hk in E.
Qed.

(** ** Progress of matchers *)

Lemma advances_weaken (n n' : nat) (m : Matcher) :
  (n' <= n)%nat -> advances n m -> advances n' m.
Proof.
  intros Hn H s k r E. destruct (H s k r E) as (s' & Hk & Hl).
  exists s'. split; [assumption | lia].
Qed.

Lemma advances_one (p : codeunit -> bool) : advances 1 (one p).
Proof.
  intros [|c t] k r E; simpl in E; [discriminate|].
  destruct (p c); [|discriminate]. exists t. split; [assumption | simpl; lia].
Qed.

Lemma advances_eps : advances 0 eps.
Proof. intros s k r E. exists s. split; [assumption | lia]. Qed.

Lemma advances_seq (n1 n2 : nat) (m1 m2 : Matcher) :
  advances n1 m1 -> advances n2 m2 -> advances (n1 + n2) (seq m1 m2).
Proof.
  intros H1 H2 s k r E. unfold seq in E.
  destruct (H1 _ _ _ E) as (s1 & E1 & L1).
  destruct (H2 _ _ _ E1) as (s2 & E2 & L2).
  exists s2. split; [assumption | lia].
Qed.

Lemma advances_alt (n : nat) (m1 m2 : Matcher) :
  advances n m1 -> advances n m2 -> advances n (alt m1 m2).
Proof.
  intros H1 H2 s k r E. unfold alt in E.
  destruct (m1 s k) eqn:E1.
  - injection E as <-. eauto.
  - eauto.
Qed.

Lemma advances_star (p : codeunit -> bool) : advances 0 (star p).
Proof.
  intros s. induction s as [|c t IH]; intros k r E; simpl in E.
  - exists []. split; [assumption | lia].
  - destruct (p c).
    + destruct (star p t k) eqn:E1.
      * injection E as <-. destruct (IH _ _ E1) as (s' & Hk & Hl).
        exists s'. split; [assumption | simpl; lia].
      * exists (c :: t). split; [assumption | lia].
    + exists (c :: t). split; [assumption | lia].
Qed.

Lemma advances_lit (ci : bool) (w : jsstring) : w <> [] -> advances 1 (lit ci w).
Proof.
  destruct w as [|c w]; [congruence|]. intros _. simpl.
  change 1%nat with (1 + 0)%nat. apply advances_seq; [apply advances_one|].
  induction w as [|c' w IH]; simpl; [apply advances_eps|].
  change 0%nat with (0 + 0)%nat. apply advances_seq; [|assumption].
  apply advances_weaken with (n := 1%nat); [lia | apply advances_one].
Qed.

Lemma advances_alts (ci : bool) (ws : list jsstring) :
  Forall (fun w => w <> []) ws -> advances 1 (alts ci ws).
Proof.
  induction 1 as [|w ws Hw _ IH]; simpl.
  - intros s k r E. discriminate.
  - apply advances_alt; [now apply advances_lit | assumption].
Qed.

Lemma advances_run (n : nat) (m : Matcher) (s rest : jsstring) :
  advances n m -> run m s = Some rest -> (List.length rest + n <= List.length s)%nat.
Proof.
  intros H E. destruct (H _ _ _ E) as (s' & Hk & Hl). now injection Hk as ->.
Qed.

(** ** Global replacement *)

(** A character class replaced by nothing is a filter. *)
Lemma replace_class_filter (p : codeunit -> bool) (s : jsstring) :
  replace_all (one p) [] s = filter (fun c => negb (p c)) s.
Proof.
  unfold replace_all. induction s as [|c t IH]; [reflexivity|].
  cbn [replace_go run one filter].
  destruct (p c); cbn [negb].
  - replace (List.length (c :: t) - List.length t)%nat with 1%nat by (cbn [List.length]; lia).
    simpl. apply IH.
  - now rewrite IH.
Qed.

(** Replacement only emits code units of the input or of the replacement. *)
Lemma replace_go_In (m : Matcher) (rep s : jsstring) (skip : nat) (c : codeunit) :
  In c (replace_go m rep s skip) -> In c rep \/ In c s.
Proof.
  revert skip. induction s as [|a t IH]; intros skip H; cbn [replace_go] in H.
  - destruct skip; [|contradiction].
    destruct (run m []); [now left | contradiction].
  - destruct skip as [|k].
    + destruct (run m (a :: t)) as [rest|].
      * destruct (List.length (a :: t) - List.length rest)%nat.
        -- apply in_app_or in H. destruct H as [H|[H|H]];
             [now left | right; now left |].
           destruct (IH _ H); [now left | right; now right].
        -- apply in_app_or in H. destruct H as [H|H]; [now left|].
           destruct (IH _ H); [now left | right; now right].
      * destruct H as [H|H]; [right; now left|].
        destruct (IH _ H); [now left | right; now right].
    + destruct (IH _ H); [now left | right; now right].
Qed.

Section ReplaceBySpace.
Variable m : Matcher.

Local Abbreviation go := (replace_go m [space]).

(** A run without spaces at the start of the output was copied from the
    start of the input. *)
Lemma go_starts (w : jsstring) :
  Forall (fun c => c <> space) w ->
  forall s, starts w (go s 0) -> starts w s.
Proof.
  induction 1 as [|a w Ha _ IH]; intros s H; [apply starts_nil|].
  destruct s as [|c t]; cbn [replace_go] in H.
  - destruct (run m []); destruct H as [post H]; simpl in H; congruence.
  - destruct (run m (c :: t)) as [rest|].
    + destruct (List.length (c :: t) - List.length rest)%nat;
        destruct H as [post H]; simpl in H; congruence.
    + apply starts_cons_inv in H. destruct H as [-> H].
      apply starts_cons. now apply IH.
Qed.

(** A word without spaces that occurs in the output occurs in the input. *)
Lemma go_occurs (w : jsstring) :
  w <> [] -> Forall (fun c => c <> space) w ->
  forall s skip, occurs w (go s skip) -> occurs w s.
Proof.
  intros Hne Hw.
  assert (Hsp : forall x, ~ starts w (space :: x)).
  { intros x [post H]. destruct w as [|a w]; [congruence|].
    simpl in H. injection H as <- _. inversion Hw; congruence. }
  assert (Hcopy : forall c t, (forall skip, occurs w (go t skip) -> occurs w t) ->
                              occurs w (c :: go t 0) -> occurs w (c :: t)).
  { intros c t IH H. apply occurs_cons_inv in H. destruct H as [H|H].
    - destruct w as [|a w]; [congruence|].
      apply starts_cons_inv in H. destruct H as [-> H].
      apply starts_occurs, starts_cons. inversion Hw; subst.
      now apply go_starts.
    - apply occurs_cons. now apply (IH 0%nat). }
  induction s as [|c t IH]; intros skip H; cbn [replace_go] in H.
  - destruct skip.
    + destruct (run m []).
      * apply occurs_cons_inv in H. destruct H as [H|H]; [now apply Hsp in H | assumption].
      * assumption.
    + assumption.
  - destruct skip as [|k].
    + destruct (run m (c :: t)) as [rest|].
      * destruct (List.length (c :: t) - List.length rest)%nat;
          simpl in H; apply occurs_cons_inv in H;
          (destruct H as [H|H]; [now apply Hsp in H|]).
        -- now apply Hcopy.
        -- apply occurs_cons. now apply (IH n).
      * now apply Hcopy.
    + apply occurs_cons. now apply (IH k).
Qed.

(** If the pattern consumes input and matches wherever [w] starts, no
    occurrence of [w] survives the replacement. *)
Lemma go_removes (w : jsstring) :
  w <> [] -> Forall (fun c => c <> space) w ->
  advances 1 m ->
  (forall rest, run m (w ++ rest) <> None) ->
  forall s skip, ~ occurs w (go s skip).
Proof.
  intros Hne Hw Hadv Hmatch.
  assert (Hsp : forall x, ~ starts w (space :: x)).
  { intros x [post H]. destruct w as [|a w]; [congruence|].
    simpl in H. injection H as <- _. inversion Hw; congruence. }
  induction s as [|c t IH]; intros skip H; cbn [replace_go] in H.
  - assert (Hnil : ~ occurs w []).
    { intros (pre & post & E). destruct pre; destruct w; simpl in E; congruence. }
    destruct skip; [|now apply Hnil].
    destruct (run m []); [|now apply Hnil].
    apply occurs_cons_inv in H. destruct H as [H|H]; [now apply Hsp in H | now apply Hnil].
  - destruct skip as [|k]; [|now apply (IH k)].
    destruct (run m (c :: t)) as [rest|] eqn:E.
    + pose proof (@advances_run 1 m _ _ Hadv E) as Hl.
      destruct (List.length (c :: t) - List.length rest)%nat eqn:El; [lia|].
      simpl in H. apply occurs_cons_inv in H.
      destruct H as [H|H]; [now apply Hsp in H | now apply (IH n)].
    + apply occurs_cons_inv in H. destruct H as [H|H]; [|now apply (IH 0%nat)].
      destruct w as [|a w]; [congruence|].
      apply starts_cons_inv in H. destruct H as [-> H].
      inversion Hw; subst.
      apply go_starts in H; [|assumption].
      destruct H as [post ->].
      apply (Hmatch post). exact E.
Qed.

End ReplaceBySpace.

(** ** Trimming *)

Lemma trimStart_suffix (s : jsstring) : exists a, s = a ++ trimStart s.
Proof.
  induction s as [|c t [a IH]]; simpl.
  - now exists [].
  - destruct (is_space c).
    + exists (c :: a). simpl. now f_equal.
    + now exists [].
Qed.

Lemma trim_middle (s : jsstring) : exists a b, s = a ++ trim s ++ b.
Proof.
  unfold trim, trimEnd.
  destruct (trimStart_suffix s) as [a Ha].
  destruct (trimStart_suffix (rev (trimStart s))) as [b Hb].
  exists a, (rev b). rewrite Ha at 1. f_equal.
  rewrite <- (rev_involutive (trimStart s)) at 1. rewrite Hb at 1.
  now rewrite rev_app_distr.
Qed.

Lemma trim_occurs (w s : jsstring) : occurs w (trim s) -> occurs w s.
Proof.
  intros H. destruct (trim_middle s) as (a & b & E). rewrite E. now apply occurs_app.
Qed.

Lemma trim_In (s : jsstring) (c : codeunit) : In c (trim s) -> In c s.
Proof.
  intros H. destruct (trim_middle s) as (a & b & E). rewrite E.
  apply in_or_app. right. apply in_or_app. now left.
Qed.

Lemma before_comma_In (s : jsstring) (c : codeunit) : In c (before_comma s) -> In c s.
Proof.
  induction s as [|a t IH]; simpl; [tauto|].
  destruct (a =? 44)%N; simpl; [tauto|]. intros [H|H]; auto.
Qed.

End TextFacts.

(* ================================================================== *)
(** * The normaliser of part_001 *)
(* ================================================================== *)

Module NormalizerFacts.
Import JS Text TextFacts.

Section WithLowerCase.
Variable toLowerCase : jsstring -> jsstring.

Local Abbreviation mainClause := (Part001Normalizer.mainClause toLowerCase).
Local Abbreviation cleanIngredient := (Part001Normalizer.cleanIngredient toLowerCase).
Local Abbreviation extractIngredientNames :=
  (Part001Normalizer.extractIngredientNames toLowerCase).

Lemma vocabulary_wellformed (u : jsstring) :
  In u Part001Normalizer.unit_vocabulary -> wellformed_unit u = true.
Proof.
  revert u. apply forallb_forall. vm_compute. reflexivity.
Qed.

Lemma wellformed_unit_inv (u : jsstring) :
  wellformed_unit u = true ->
  u <> [] /\ Forall (fun c => is_space c = false) u /\ Forall (fun c => c <> space) u.
Proof.
  unfold wellformed_unit. intros H. apply andb_true_iff in H. destruct H as [H1 H2].
  assert (Hs : Forall (fun c => is_space c = false) u).
  { apply Forall_forall. intros c Hc.
    rewrite forallb_forall in H2. specialize (H2 c Hc).
    now apply negb_true_iff in H2. }
  repeat split.
  - destruct u; [discriminate | congruence].
  - assumption.
  - eapply Forall_impl; [|exact Hs]. intros c Hc ->. discriminate.
Qed.

Lemma unit_pattern_advances : advances 1 Part001Normalizer.unit_pattern.
Proof.
  unfold Part001Normalizer.unit_pattern.
  change 1%nat with (0 + (1 + 0))%nat.
  apply advances_seq; [apply advances_star|].
  apply advances_seq; [|apply advances_star].
  apply advances_alts. apply Forall_forall. intros u Hu.
  now destruct (wellformed_unit_inv u (vocabulary_wellformed Hu)).
Qed.

(** The pattern matches wherever a vocabulary word starts. *)
Lemma unit_pattern_matches (u rest : jsstring) :
  In u Part001Normalizer.unit_vocabulary ->
  run Part001Normalizer.unit_pattern (u ++ rest) <> None.
Proof.
  intros Hu.
  destruct (wellformed_unit_inv u (vocabulary_wellformed Hu)) as (Hne & Hs & _).
  unfold run, Part001Normalizer.unit_pattern, seq.
  destruct u as [|c u]; [congruence|]. inversion Hs; subst.
  change ((c :: u) ++ rest) with (c :: (u ++ rest)).
  rewrite star_stop by assumption.
  change (c :: (u ++ rest)) with ((c :: u) ++ rest).
  apply alts_ci_some; [assumption|].
  intros s'. apply star_total. discriminate.
Qed.

(** No vocabulary word occurs, at a word boundary or elsewhere, in what the
    unit stage produces. *)
Lemma stripUnits_removes (u s : jsstring) :
  In u Part001Normalizer.unit_vocabulary ->
  ~ occurs u (Part001Normalizer.stripUnits s).
Proof.
  intros Hu.
  destruct (wellformed_unit_inv u (vocabulary_wellformed Hu)) as (Hne & _ & Hsp).
  unfold Part001Normalizer.stripUnits, replace_all.
  apply go_removes; try assumption.
  - apply unit_pattern_advances.
  - intros rest. now apply unit_pattern_matches.
Qed.

Lemma stripQuantities_clean (s : jsstring) (c : codeunit) :
  In c (Part001Normalizer.stripQuantities s) -> is_quantity_char c = false.
Proof.
  unfold Part001Normalizer.stripQuantities. rewrite replace_class_filter.
  intros H. apply filter_In in H. destruct H as [_ H]. now apply negb_true_iff in H.
Qed.

Lemma stripStars_id (s : jsstring) :
  ~ In star_char s -> Part001Normalizer.stripStars s = s.
Proof.
  unfold Part001Normalizer.stripStars. rewrite replace_class_filter.
  induction s as [|c t IH]; intros H; cbn [filter]; [reflexivity|].
  destruct (42 =? c)%N eqn:E; cbn [negb].
  - apply N.eqb_eq in E. exfalso. apply H. left. now rewrite <- E.
  - f_equal. apply IH. intro Hin. apply H. now right.
Qed.

Lemma stripStars_In (s : jsstring) (c : codeunit) :
  In c (Part001Normalizer.stripStars s) -> In c s.
Proof.
  unfold Part001Normalizer.stripStars. rewrite replace_class_filter.
  intros H. now apply filter_In in H.
Qed.

(** The code units of the token before the asterisk stage come from the
    lower-cased line, except for inserted spaces. *)
Lemma before_stars_In (ingredient : jsstring) (c : codeunit) :
  In c (Part001Normalizer.stripUnits
          (Part001Normalizer.stripQuantities (mainClause ingredient))) ->
  c = space \/ In c (toLowerCase ingredient).
Proof.
  intros H. apply replace_go_In in H. destruct H as [[<-|[]]|H]; [now left|].
  right. unfold Part001Normalizer.stripQuantities in H.
  rewrite replace_class_filter in H. apply filter_In in H. destruct H as [H _].
  unfold Part001Normalizer.mainClause in H. apply before_comma_In in H.
  apply replace_go_In in H. destruct H as [[]|H]. exact H.
Qed.

Lemma cleanIngredient_no_quantity (ingredient : jsstring) (c : codeunit) :
  In c (cleanIngredient ingredient) -> is_quantity_char c = false.
Proof.
  unfold Part001Normalizer.cleanIngredient, Part001Normalizer.collapseSpaces.
  intros H. apply replace_go_In in H. destruct H as [[<-|[]]|H]; [reflexivity|].
  apply trim_In, stripStars_In in H.
  apply replace_go_In in H. destruct H as [[<-|[]]|H]; [reflexivity|].
  now apply stripQuantities_clean in H.
Qed.

Lemma cleanIngredient_no_unit (ingredient u : jsstring) :
  ~ In star_char (toLowerCase ingredient) ->
  In u Part001Normalizer.unit_vocabulary ->
  ~ occurs u (cleanIngredient ingredient).
Proof.
  intros Hstar Hu H.
  destruct (wellformed_unit_inv u (vocabulary_wellformed Hu)) as (Hne & _ & Hsp).
  unfold Part001Normalizer.cleanIngredient, Part001Normalizer.collapseSpaces,
    replace_all in H.
  apply go_occurs in H; try assumption.
  apply trim_occurs in H.
  rewrite stripStars_id in H.
  - now apply stripUnits_removes in H.
  - intro Hin. apply before_stars_In in Hin. destruct Hin as [Hin|Hin];
      [discriminate | contradiction].
Qed.

Lemma extractIngredientNames_In (ingredients : list jsstring) (tok : jsstring) :
  In tok (extractIngredientNames ingredients) ->
  exists ingredient, In ingredient ingredients /\ tok = cleanIngredient ingredient.
Proof.
  unfold Part001Normalizer.extractIngredientNames. intros H.
  apply filter_In in H. destruct H as [H _]. apply in_map_iff in H.
  destruct H as (raw & <- & Hraw). now exists raw.
Qed.

End WithLowerCase.
End NormalizerFacts.

(* ================================================================== *)
(** * The match scorer *)
(* ================================================================== *)

Module ScoringFacts.
Import JS Prisma Statements.

Lemma filter_length_le (A : Type) (p : A -> bool) (l : list A) :
  (List.length (filter p l) <= List.length l)%nat.
Proof. induction l as [|x l IH]; simpl; [lia|]. destruct (p x); simpl; lia. Qed.

Lemma filter_length_mono (A : Type) (p q : A -> bool) (l : list A) :
  (forall x, p x = true -> q x = true) ->
  (List.length (filter p l) <= List.length (filter q l))%nat.
Proof.
  intros H. induction l as [|x l IH]; simpl; [lia|].
  destruct (p x) eqn:Ep.
  - rewrite (H x Ep). simpl. lia.
  - destruct (q x); simpl; lia.
Qed.

Lemma filter_nil_forallb (A : Type) (p : A -> bool) (l : list A) :
  filter (fun x => negb (p x)) l = [] <-> forallb p l = true.
Proof.
  induction l as [|x l IH]; simpl; [tauto|].
  destruct (p x); simpl; [exact IH|]. split; discriminate.
Qed.

Lemma existsb_incl (A : Type) (p : A -> bool) (l1 l2 : list A) :
  incl l1 l2 -> existsb p l1 = true -> existsb p l2 = true.
Proof.
  intros Hi H. apply existsb_exists in H. destruct H as (x & Hx & Hp).
  apply existsb_exists. exists x. split; [now apply Hi | assumption].
Qed.

(** Below 200 ingredients only a full match rounds to 100. *)
Lemma percentage_100_full (m n : nat) :
  (m <= n)%nat -> (0 < n < 200)%nat -> Number.percentage m n = 100%Z -> m = n.
Proof.
  intros Hmn Hn H.
  destruct (Nat.eq_dec m n) as [|Hne]; [assumption | exfalso].
  unfold Number.percentage, Number.Math_round, Number.fmul, Number.fdiv in H.
  destruct (NumberFacts.ratio_bounds Hmn) as [Hlo _].
  assert (Hhi : (Number.of_nat m / Number.of_nat n <= 198 # 199)%Q).
  { apply Qle_shift_div_r.
    - unfold Number.of_nat. change 0%Q with (inject_Z 0). rewrite <- Zlt_Qlt. lia.
    - assert (Hz : (inject_Z (199 * Z.of_nat m) <= inject_Z (198 * Z.of_nat n))%Q)
        by (rewrite <- Zle_Qle; lia).
      rewrite !inject_Z_mult in Hz.
      change (inject_Z 199) with 199%Q in Hz. change (inject_Z 198) with 198%Q in Hz.
      unfold Number.of_nat. lra. }
  set (a := (Number.of_nat m / Number.of_nat n)%Q) in *.
  pose proof (NumberFacts.fl_nonneg a) as H1.
  pose proof (NumberFacts.fl_upper Hlo) as H2.
  assert (H4 : (0 <= Number.fl a * 100)%Q) by lra.
  pose proof (NumberFacts.fl_upper H4) as H5.
  set (x := Number.fl (Number.fl a * 100)) in *.
  assert (Heps : (Number.pow2 (-53) == 1 # 9007199254740992)%Q) by reflexivity.
  rewrite Heps in *.
  pose proof (Qlt_floor (x + (1 # 2))%Q) as Hf. rewrite H in Hf.
  change (inject_Z (100 + 1)) with 101%Q in Hf.
  pose proof (Qfloor_le (x + (1 # 2))%Q) as Hg. rewrite H in Hg.
  change (inject_Z 100) with 100%Q in Hg.
  assert (Number.fl a <= (198 # 199) * (1 + (1 # 9007199254740992)))%Q by nra.
  assert (x <= 100 * ((198 # 199) * (1 + (1 # 9007199254740992)))
                 * (1 + (1 # 9007199254740992)))%Q by nra.
  lra.
Qed.

Section WithLowerCase.
Variable toLowerCase : jsstring -> jsstring.

Lemma part001_invariant (availableIngredients : list jsstring) (recipe : Recipe) :
  percentageInvariant
    (Part001.extractIngredientNames toLowerCase (ingredients recipe))
    (Part001.scoreRecipe toLowerCase availableIngredients recipe).
Proof.
  unfold percentageInvariant, Part001.scoreRecipe.
  set (required := Part001.extractIngredientNames toLowerCase (ingredients recipe)).
  destruct (List.length required =? 0)%nat eqn:E; cbn [matchPercentage
    missingIngredients matchingIngredientsCount totalIngredientsCount].
  - apply Nat.eqb_eq in E. repeat split; try lia.
  - apply Nat.eqb_neq in E. repeat split; try lia.
    + apply NumberFacts.percentage_range. lia.
    + apply NumberFacts.percentage_range. lia.
Qed.


End WithLowerCase.
End ScoringFacts.

(* ================================================================== *)
(** * Ranking *)
(* ================================================================== *)

Module RankingFacts.
Import JS Prisma.

Lemma filterAndSort_perm (minMatchPercentage : Z) (l : list MatchResult) :
  Permutation (filterAndSort minMatchPercentage l)
              (filter (fun r => (minMatchPercentage <=? matchPercentage r)%Z) l).
Proof. unfold filterAndSort. apply (ArrayFacts.sort_perm matchPercentage). Qed.

Lemma filterAndSort_In (minMatchPercentage : Z) (l : list MatchResult) (r : MatchResult) :
  In r (filterAndSort minMatchPercentage l)
  <-> In r l /\ (minMatchPercentage <= matchPercentage r)%Z.
Proof.
  rewrite <- Z.leb_le, <- (filter_In (fun r => (minMatchPercentage <=? matchPercentage r)%Z)).
  split; apply Permutation_in;
    [|apply Permutation_sym]; apply filterAndSort_perm.
Qed.

Lemma filterAndSort_sorted (minMatchPercentage : Z) (l : list MatchResult) :
  Ranking.nonIncreasing matchPercentage (filterAndSort minMatchPercentage l).
Proof. unfold filterAndSort. apply (ArrayFacts.sort_sorted matchPercentage). Qed.

Lemma filterAndSort_stable (minMatchPercentage p : Z) (l : list MatchResult) :
  filter (Ranking.keyIs matchPercentage p) (filterAndSort minMatchPercentage l)
  = filter (Ranking.keyIs matchPercentage p)
           (filter (fun r => (minMatchPercentage <=? matchPercentage r)%Z) l).
Proof. unfold filterAndSort. apply (ArrayFacts.sort_stable matchPercentage). Qed.

End RankingFacts.

(* ================================================================== *)
(** * The binary64 percentage against the exact one *)
(* ================================================================== *)

Module Rounding.
Import JS Prisma Statements Number NumberFacts.

Local Open Scope Q_scope.




(** [exactRound] is [Math.round] of the exact value. *)
Lemma exactRound_Math_round (m n : nat) :
  (0 < n)%nat -> exactRound m n = Math_round (of_nat m / of_nat n * 100).
Proof.
  intros Hn. unfold exactRound, Math_round. rewrite Zdiv_Qdiv.
  apply Qfloor_comp.
  assert (HN : ~ inject_Z (Z.of_nat n) == 0).
  { change 0 with (inject_Z 0). rewrite inject_Z_injective. lia. }
  rewrite inject_Z_plus, !inject_Z_mult. unfold of_nat.
  change (inject_Z 200) with 200. change (inject_Z 2) with 2.
  field. exact HN.
Qed.

Local Close Scope Q_scope.


Section WithLowerCase.
Variable toLowerCase : jsstring -> jsstring.



End WithLowerCase.
End Rounding.

(* ================================================================== *)
(** * Properties of the scorer and of the exact strategy *)
(* ================================================================== *)

Module Scoring.
Import JS Prisma Statements.

(** The binary64 model agrees with the IEEE 754 operations of the Standard
    Library on every count up to 60 ingredients. *)
Example fl_agrees_with_ieee754 :
  forallb (fun n => forallb (fun m => Number.agrees_with_spec m n) (List.seq 0 (S n)))
          (List.seq 1 60) = true.
Proof. vm_compute. reflexivity. Qed.

(** Rounding the quotient before the product can fall below a half that the
    exact value reaches: 23 of 40 is 57.5, and is scored 57. *)
Example percentage_23_of_40 :
  Number.percentage 23 40 = 57%Z
  /\ Number.Math_round (Number.of_nat 23 / Number.of_nat 40 * 100)%Q = 58%Z.
Proof. split; vm_compute; reflexivity. Qed.

Example percentage_1_of_3 : Number.percentage 1 3 = 33%Z.
Proof. vm_compute. reflexivity. Qed.




(** C7. For a fixed recipe, and available sets A included in B, the
    matching count that the percentage scorer reports against B is at least
    the one it reports against A (part_001 and resolvers.ts). *)
Theorem matchingCount_monotone :
  forall (toLowerCase : jsstring -> jsstring) (A B : list jsstring) (recipe : Recipe),
    incl A B ->
    countLe (matchingIngredientsCount (Part001.scoreRecipe toLowerCase A recipe))
            (matchingIngredientsCount (Part001.scoreRecipe toLowerCase B recipe))
    /\ countLe (matchingIngredientsCount (ResolversTs.scoreRecipe toLowerCase A recipe))
               (matchingIngredientsCount (ResolversTs.scoreRecipe toLowerCase B recipe)).
Proof.
  intros lower A B rec Hincl. split.
  - unfold Part001.scoreRecipe.
    set (required := Part001.extractIngredientNames lower (ingredients rec)).
    destruct (List.length required =? 0)%nat; cbn; [exact I|].
    assert (H : (List.length (filter (fun req => negb (Part001.matchedBy (List.map lower B) req)) required)
                 <= List.length (filter (fun req => negb (Part001.matchedBy (List.map lower A) req)) required))%nat).
    { apply ScoringFacts.filter_length_mono. intros req H.
      apply negb_true_iff in H. apply negb_true_iff.
      destruct (Part001.matchedBy (List.map lower A) req) eqn:E; [|reflexivity].
      unfold Part001.matchedBy in *.
      apply (@ScoringFacts.existsb_incl _ _ (List.map lower A) (List.map lower B)) in E;
        [congruence | now apply incl_map]. }
    lia.
  - unfold ResolversTs.scoreRecipe.
    set (required := ResolversTs.extractIngredientNames lower (ingredients rec)).
    cbn.
    assert (H : (List.length (filter (fun req => negb (ResolversTs.matchedBy lower B req)) required)
                 <= List.length (filter (fun req => negb (ResolversTs.matchedBy lower A req)) required))%nat).
    { apply ScoringFacts.filter_length_mono. intros req H.
      apply negb_true_iff in H. apply negb_true_iff.
      destruct (ResolversTs.matchedBy lower A req) eqn:E; [|reflexivity].
      unfold ResolversTs.matchedBy in *.
      apply (@ScoringFacts.existsb_incl _ _ A B) in E; [congruence | assumption]. }
    lia.
Qed.

(** One available ingredient, then two, against a bowl of rice and pepper. *)
Lemma matchingCount_monotone_witness :
  incl [str "rice"] [str "rice"; str "pepper"]
  /\ countLe (matchingIngredientsCount
                (Part001.scoreRecipe asciiLower [str "rice"] Samples.riceBowl))
             (matchingIngredientsCount
                (Part001.scoreRecipe asciiLower [str "rice"; str "pepper"]
                                     Samples.riceBowl)).
Proof.
  assert (H : incl [str "rice"] [str "rice"; str "pepper"]).
  { intros x [<-|[]]. left. reflexivity. }
  split; [exact H|].
  exact (proj1 (matchingCount_monotone asciiLower Samples.riceBowl H)).
Defined.

Example riceBowl_counts :
  matchingIngredientsCount (Part001.scoreRecipe asciiLower [str "rice"] Samples.riceBowl)
  = Some 1%nat
  /\ matchingIngredientsCount
       (Part001.scoreRecipe asciiLower [str "rice"; str "pepper"] Samples.riceBowl)
     = Some 2%nat.
Proof. split; vm_compute; reflexivity. Qed.

End Scoring.

(* ================================================================== *)
(** * Exact mode against the percentage scorer *)
(* ================================================================== *)

Module ExactMode.
Import JS Prisma Statements.

Section WithLowerCase.
Variable toLowerCase : jsstring -> jsstring.

Local Abbreviation required :=
  (fun recipe => Part001.extractIngredientNames toLowerCase (ingredients recipe)).

Lemma scoreRecipe_recipe (availableIngredients : list jsstring) (rec : Recipe) :
  recipe (Part001.scoreRecipe toLowerCase availableIngredients rec) = rec.
Proof. unfold Part001.scoreRecipe. now destruct (_ =? _)%nat. Qed.

(** The filter callback of [recipesWithExactIngredients]. *)
Lemma exact_In (availableIngredients : list jsstring)
      (filters : option RecipeFilters) (st : Store) (rec : Recipe) :
  In rec (result (Part001.recipesWithExactIngredients toLowerCase
                    availableIngredients filters) st)
  <-> In rec (filter (satisfies (buildPrismaWhereClause filters)) (table st))
      /\ required rec <> []
      /\ forallb (Part001.matchedBy (List.map toLowerCase availableIngredients))
                 (required rec) = true.
Proof.
  unfold result. cbn. rewrite filter_In.
  destruct (required rec) as [|x l] eqn:E; cbn [List.length Nat.eqb].
  - split; [intros [_ H]; discriminate | intros (_ & H & _); congruence].
  - split; [intros [H1 H2] | intros (H1 & _ & H2)]; repeat split;
      try assumption; discriminate.
Qed.

Lemma full_match_scores_100 (availableIngredients : list jsstring) (rec : Recipe) :
  required rec <> [] ->
  forallb (Part001.matchedBy (List.map toLowerCase availableIngredients))
          (required rec) = true ->
  matchPercentage (Part001.scoreRecipe toLowerCase availableIngredients rec) = 100%Z.
Proof.
  intros Hne Hall. unfold Part001.scoreRecipe.
  destruct (required rec) as [|x l] eqn:E; [congruence|].
  cbn [List.length Nat.eqb matchPercentage].
  apply ScoringFacts.filter_nil_forallb in Hall. rewrite Hall.
  cbn [List.length]. rewrite Nat.sub_0_r.
  apply NumberFacts.percentage_full. lia.
Qed.

Lemma score_100_full_match (availableIngredients : list jsstring) (rec : Recipe) :
  (List.length (required rec) < 200)%nat ->
  matchPercentage (Part001.scoreRecipe toLowerCase availableIngredients rec) = 100%Z ->
  required rec <> []
  /\ forallb (Part001.matchedBy (List.map toLowerCase availableIngredients))
             (required rec) = true.
Proof.
  intros Hlen H. unfold Part001.scoreRecipe in H.
  destruct (required rec) as [|x l] eqn:E;
    cbn [List.length Nat.eqb matchPercentage] in H; [discriminate|].
  split; [discriminate|].
  apply ScoringFacts.filter_nil_forallb.
  set (missing := filter _ (x :: l)) in *.
  pose proof (ScoringFacts.filter_length_le
                (fun req => negb (Part001.matchedBy
                                    (List.map toLowerCase availableIngredients) req))
                (x :: l)) as Hle.
  fold missing in Hle. cbn [List.length] in Hle, Hlen.
  apply ScoringFacts.percentage_100_full in H; [|lia|lia].
  destruct missing; [reflexivity | cbn [List.length] in *; lia].
Qed.

End WithLowerCase.

(** In resolvers.ts the exact strategy tests the raw lines while the scorer
    tests the normalised names: "garlic, minced" is returned for the
    available word "minced" and scored 0. In part_001 a recipe with 199 of
    its 200 ingredients available is scored 100 and is not returned by the
    exact strategy. *)
Lemma exact_mode_is_not_threshold_100 :
  (In Samples.garlicMinced
      (result (ResolversTs.recipesWithExactIngredients asciiLower [str "minced"] None)
              (Samples.storeOf [Samples.garlicMinced]))
   /\ matchPercentage
        (ResolversTs.scoreRecipe asciiLower [str "minced"] Samples.garlicMinced) = 0%Z)
  /\ (matchPercentage
        (Part001.scoreRecipe asciiLower [str "rice"] Samples.riceAndPepper) = 100%Z
      /\ result (Part001.recipesWithExactIngredients asciiLower [str "rice"] None)
                (Samples.storeOf [Samples.riceAndPepper]) = []).
Proof.
  split; split.
  - vm_compute. left. reflexivity.
  - vm_compute. reflexivity.
  - vm_compute. reflexivity.
  - vm_compute. reflexivity.
Qed.

(** C2, amended. In part_001 every recipe returned by the exact strategy is
    scored exactly 100 by the percentage scorer with the same available set
    and filters, and is returned by recipesByIngredientMatch at threshold
    100; conversely a candidate scored 100 is returned by the exact
    strategy provided it has fewer than 200 normalised ingredients. *)
Theorem exact_mode_scores_100 :
  forall (toLowerCase : jsstring -> jsstring)
         (availableIngredients : list jsstring) (filters : option RecipeFilters)
         (st : Store) (rec : Recipe),
    let exact :=
      result (Part001.recipesWithExactIngredients toLowerCase
                availableIngredients filters) st in
    let scored := Part001.scoreRecipe toLowerCase availableIngredients rec in
    (In rec exact ->
     matchPercentage scored = 100%Z
     /\ In scored (result (Part001.recipesByIngredientMatch toLowerCase
                             availableIngredients 100 filters) st))
    /\ (In rec (filter (satisfies (buildPrismaWhereClause filters)) (table st)) ->
        (List.length (Part001.extractIngredientNames toLowerCase (ingredients rec))
         < 200)%nat ->
        matchPercentage scored = 100%Z ->
        In rec exact).
Proof.
  intros lower avail filters st rec exact scored. split.
  - intros H. apply exact_In in H. destruct H as (Hc & Hne & Hall).
    assert (H100 : matchPercentage scored = 100%Z)
      by now apply full_match_scores_100.
    split; [assumption|].
    unfold result. cbn. apply RankingFacts.filterAndSort_In. split.
    + apply in_map. exact Hc.
    + fold scored. lia.
  - intros Hc Hlen H100. apply exact_In. split; [assumption|].
    now apply score_100_full_match.
Qed.

Lemma exact_mode_scores_100_witness :
  In Samples.riceBowl
     (result (Part001.recipesWithExactIngredients asciiLower
                [str "rice"; str "pepper"] None)
             (Samples.storeOf [Samples.riceBowl]))
  /\ matchPercentage
       (Part001.scoreRecipe asciiLower [str "rice"; str "pepper"] Samples.riceBowl)
     = 100%Z.
Proof.
  assert (H : In Samples.riceBowl
                 (result (Part001.recipesWithExactIngredients asciiLower
                            [str "rice"; str "pepper"] None)
                         (Samples.storeOf [Samples.riceBowl]))).
  { vm_compute. left. reflexivity. }
  split; [exact H|].
  exact (proj1 (proj1 (exact_mode_scores_100 asciiLower [str "rice"; str "pepper"]
                         None (Samples.storeOf [Samples.riceBowl]) Samples.riceBowl) H)).
Defined.

End ExactMode.

(* ================================================================== *)
(** * Thresholding and ranking *)
(* ================================================================== *)

Module Rank.
Import JS Prisma.

(** Every scoring resolver ends in [filterAndSort]. *)
Lemma recipesByIngredientMatch_results :
  forall (toLowerCase : jsstring -> jsstring)
         (availableIngredients : list jsstring) (minMatchPercentage : Z)
         (filters : option RecipeFilters) (st : Store),
    let candidates := filter (satisfies (buildPrismaWhereClause filters)) (table st) in
    result (Part001.recipesByIngredientMatch toLowerCase availableIngredients
              minMatchPercentage filters) st
    = filterAndSort minMatchPercentage
        (List.map (Part001.scoreRecipe toLowerCase availableIngredients) candidates)
    /\ result (ResolversTs.recipesByIngredientMatch toLowerCase availableIngredients
                 minMatchPercentage filters) st
       = filterAndSort minMatchPercentage
           (List.map (ResolversTs.scoreRecipe toLowerCase availableIngredients)
                     candidates).
Proof. intros. split; reflexivity. Qed.

(** C5. For every sequence of scored results and every minMatchPercentage,
    the ranking stage returns exactly the entries with matchPercentage >=
    minMatchPercentage (the threshold is inclusive, and nothing is lost or
    duplicated), in non-increasing order of matchPercentage. *)
Theorem ranking_filters_and_sorts :
  forall (minMatchPercentage : Z) (recipesWithScores : list MatchResult),
    let ranked := filterAndSort minMatchPercentage recipesWithScores in
    (forall r, In r ranked
               <-> In r recipesWithScores
                   /\ (minMatchPercentage <= matchPercentage r)%Z)
    /\ Permutation ranked
         (filter (fun r => (minMatchPercentage <=? matchPercentage r)%Z)
                 recipesWithScores)
    /\ StronglySorted (fun a b => (matchPercentage b <= matchPercentage a)%Z) ranked.
Proof.
  intros minp l ranked. split; [|split].
  - intros r. apply RankingFacts.filterAndSort_In.
  - apply RankingFacts.filterAndSort_perm.
  - apply RankingFacts.filterAndSort_sorted.
Qed.

(** C10. The ranking is stable: for every sequence of scored results and
    every percentage p, the entries scored p appear in the ranked output in
    the order they have in the input sequence. Any other stable ordering
    by descending matchPercentage would be the same list. *)
Theorem ranking_is_stable :
  forall (minMatchPercentage : Z) (recipesWithScores : list MatchResult),
    let kept := filter (fun r => (minMatchPercentage <=? matchPercentage r)%Z)
                       recipesWithScores in
    let ranked := filterAndSort minMatchPercentage recipesWithScores in
    (forall p : Z,
        filter (fun r => (matchPercentage r =? p)%Z) ranked
        = filter (fun r => (matchPercentage r =? p)%Z) kept)
    /\ (forall out : list MatchResult,
           StronglySorted (fun a b => (matchPercentage b <= matchPercentage a)%Z) out ->
           (forall p : Z, filter (fun r => (matchPercentage r =? p)%Z) out
                          = filter (fun r => (matchPercentage r =? p)%Z) kept) ->
           out = ranked).
Proof.
  intros minp l kept ranked. split.
  - intros p. apply RankingFacts.filterAndSort_stable.
  - intros out Hs Hf. unfold ranked, filterAndSort.
    apply (@ArrayFacts.stable_sort_unique _ matchPercentage); assumption.
Qed.

(** Entries at 50, 100, 49 and 50 with threshold 50: the entry below the
    threshold is dropped and the two ties keep their order. *)
Example ranking_sample :
  filterAndSort 50 [Samples.entry 1 50; Samples.entry 2 100;
                    Samples.entry 3 49; Samples.entry 4 50]
  = [Samples.entry 2 100; Samples.entry 1 50; Samples.entry 4 50].
Proof. vm_compute. reflexivity. Qed.

Lemma ranking_is_stable_witness :
  let scores := [Samples.entry 1 50; Samples.entry 2 100;
                 Samples.entry 3 49; Samples.entry 4 50] in
  let out := [Samples.entry 2 100; Samples.entry 1 50; Samples.entry 4 50] in
  StronglySorted (fun a b => (matchPercentage b <= matchPercentage a)%Z) out
  /\ out = filterAndSort 50 scores.
Proof.
  intros scores out.
  assert (Hs : StronglySorted
                 (fun a b => (matchPercentage b <= matchPercentage a)%Z) out).
  { repeat constructor; cbn; lia. }
  split; [exact Hs|].
  apply (proj2 (ranking_is_stable 50 scores) out Hs).
  intros p.
  destruct (Z.eq_dec p 100) as [->|H100]; [vm_compute; reflexivity|].
  destruct (Z.eq_dec p 50) as [->|H50]; [vm_compute; reflexivity|].
  change (filter (fun r => (50 <=? matchPercentage r)%Z) scores)
    with [Samples.entry 1 50; Samples.entry 2 100; Samples.entry 4 50].
  assert (Hnone : forall l, Forall (fun r => matchPercentage r <> p) l ->
                            filter (fun r => (matchPercentage r =? p)%Z) l = []).
  { induction 1 as [|r l Hr _ IH]; cbn [filter]; [reflexivity|].
    destruct (Z.eqb_spec (matchPercentage r) p); [contradiction | exact IH]. }
  rewrite !Hnone; [reflexivity | |]; repeat constructor; cbn; lia.
Defined.

End Rank.

(* ================================================================== *)
(** * Properties of the normalisers *)
(* ================================================================== *)

Module Normalizer.
Import JS Prisma Text Statements.

Lemma seeded_in_vocabulary (u : jsstring) :
  In u Units.seeded -> In u Part001Normalizer.unit_vocabulary.
Proof. intros H. unfold Part001Normalizer.unit_vocabulary. apply in_or_app. now left. Qed.

(** The normaliser of resolvers.ts strips a leading quantity only, so "salt
    2 g" keeps its digit and its unit; the normaliser of part_001 removes
    asterisks after the units, so "o*z" becomes the unit "oz". *)
Lemma digits_and_units_can_survive :
  (In (str "salt 2 g") (ResolversTs.extractIngredientNames asciiLower [str "salt 2 g"])
   /\ hasQuantityChar (str "salt 2 g")
   /\ In (str "g") Units.seeded
   /\ occurs_as_word (str "g") (str "salt 2 g"))
  /\ (In (str "oz") (Part001.extractIngredientNames asciiLower [str "o*z"])
      /\ In (str "oz") Units.seeded
      /\ occurs_as_word (str "oz") (str "oz")).
Proof.
  split; [split; [|split; [|split]] | split; [|split]].
  - vm_compute. left. reflexivity.
  - exists 50%N. split; [vm_compute; tauto | reflexivity].
  - vm_compute. tauto.
  - exists (str "salt 2 "), []. repeat split.
  - vm_compute. left. reflexivity.
  - vm_compute. tauto.
  - exists [], []. repeat split.
Qed.

(** C3, amended. Every token produced by the normaliser of part_001
    contains none of the code units of its quantity class (the ASCII digits
    and the fraction glyphs of the pattern), wherever they stood in the
    line; and when no lower-cased line contains an asterisk, no token
    contains a word of the unit vocabulary (the twelve seeded words and
    clove, large, medium, small, can, cans), as a whole word or otherwise. *)
Theorem part001_tokens_without_quantities_and_units :
  forall (toLowerCase : jsstring -> jsstring) (ingredients : list jsstring)
         (tok : jsstring),
    In tok (Part001.extractIngredientNames toLowerCase ingredients) ->
    (forall c, In c tok -> is_quantity_char c = false)
    /\ ((forall line, In line ingredients -> ~ In 42%N (toLowerCase line)) ->
        forall u, In u Part001Normalizer.unit_vocabulary ->
                  ~ occurs u tok /\ ~ occurs_as_word u tok).
Proof.
  intros lower lines tok Htok.
  apply NormalizerFacts.extractIngredientNames_In in Htok.
  destruct Htok as (line & Hline & ->). split.
  - intros c Hc. now apply NormalizerFacts.cleanIngredient_no_quantity in Hc.
  - intros Hstar u Hu.
    assert (Hno : ~ occurs u (Part001Normalizer.cleanIngredient lower line)).
    { apply NormalizerFacts.cleanIngredient_no_unit; [|assumption].
      now apply Hstar. }
    split; [assumption|].
    intro H. apply Hno. now apply TextFacts.occurs_as_word_occurs.
Qed.

Lemma part001_tokens_without_quantities_and_units_witness :
  In (str "o ive oi") (Part001.extractIngredientNames asciiLower [str "2 tbsp olive oil"])
  /\ (forall c, In c (str "o ive oi") -> is_quantity_char c = false)
  /\ ~ occurs_as_word (str "tbsp") (str "o ive oi").
Proof.
  assert (Hin : In (str "o ive oi")
                   (Part001.extractIngredientNames asciiLower [str "2 tbsp olive oil"])).
  { vm_compute. left. reflexivity. }
  assert (Hstar : forall line, In line [str "2 tbsp olive oil"] ->
                               ~ In 42%N (asciiLower line)).
  { intros line [<-|[]]. vm_compute. intros H.
    repeat (destruct H as [H|H]; [discriminate|]). exact H. }
  assert (Hu : In (str "tbsp") Part001Normalizer.unit_vocabulary).
  { vm_compute. tauto. }
  destruct (part001_tokens_without_quantities_and_units asciiLower _ _ Hin)
    as [Hq Hunits].
  split; [exact Hin|]. split; [exact Hq|].
  exact (proj2 (Hunits Hstar _ Hu)).
Defined.

(** C8. The unit patterns carry no word boundary: the unit stage of part_001
    cuts "l" out of "flour" and "g" out of "ginger", and the prefix pattern
    of part_000 takes the "g" of "garlic" and the "l" of "lemon" for
    units. *)
Theorem unit_stage_cuts_inside_words :
  Part001Normalizer.stripUnits (str "flour") = str "f our"
  /\ Part001.extractIngredientNames asciiLower
       [str "ginger"; str "flour"; str "2 cups flour"]
     = [str "in er"; str "f our"; str "s f our"]
  /\ Part000.extractIngredientNames asciiLower [str "2 garlic cloves"; str "1 lemon"]
     = [str "arlic cloves"; str "emon"].
Proof. repeat split; vm_compute; reflexivity. Qed.

(** Lines of the specification's scenario, through the three normalisers. *)
Example scenario_lines :
  let lines := [str "2 tbsp olive oil"; str "1 onion, diced"; str "salt"] in
  ResolversTs.extractIngredientNames asciiLower lines
  = [str "olive oil"; str "onion"; str "salt"]
  /\ Part000.extractIngredientNames asciiLower lines
     = [str "olive oil"; str "onion"; str "salt"]
  /\ Part001.extractIngredientNames asciiLower lines
     = [str "o ive oi"; str "onion"; str "sa t"].
Proof. repeat split; vm_compute; reflexivity. Qed.

End Normalizer.

(* ================================================================== *)
(** * Properties of the resolvers *)
(* ================================================================== *)

Module Resolvers.
Import JS Prisma Statements.

(** ** Empty input *)

(** In part_000 every strategy returns the empty result for an empty
    primary list, without a request to the store. *)
Lemma part000_short_circuits :
  forall (toLowerCase : jsstring -> jsstring) (filters : option RecipeFilters)
         (minMatchPercentage : Z) (limit : option Z) (st : Store),
    Part000.findRecipesByCategories [] filters st = ([], [])
    /\ Part000.recipesWithExactIngredients toLowerCase [] filters st = ([], [])
    /\ Part000.recipesByIngredientMatch toLowerCase [] minMatchPercentage filters st
       = ([], [])
    /\ Part000.findRecipesByIngredientNames toLowerCase [] filters st = ([], [])
    /\ Part000.recipesWithFullTextSearch [] filters st = ([], [])
    /\ Part000.recipesWithSmartMatching toLowerCase [] minMatchPercentage filters st
       = ([], [])
    /\ Part000.quickRecipeSuggestions toLowerCase [] limit filters st = ([], []).
Proof. intros. repeat split. Qed.

(** In part_001 only the full-text strategy does so. *)
Lemma part001_fullText_short_circuits :
  forall (filters : option RecipeFilters) (st : Store),
    Part001.recipesWithFullTextSearch [] filters st = ([], []).
Proof. reflexivity. Qed.

(** C4. In part_001 the percentage strategy has no test for an empty
    availableIngredients: it always sends findMany to the store, and with
    minMatchPercentage 0 it returns every candidate, scored 0; likewise
    findRecipesByIngredientNames returns every candidate for an empty
    ingredientNames. *)
Theorem part001_empty_input_reaches_store :
  (forall (toLowerCase : jsstring -> jsstring) (availableIngredients : list jsstring)
          (minMatchPercentage : Z) (filters : option RecipeFilters) (st : Store),
      calls (Part001.recipesByIngredientMatch toLowerCase availableIngredients
               minMatchPercentage filters) st
      = [FindMany (buildPrismaWhereClause filters)])
  /\ List.map recipe
       (result (Part001.recipesByIngredientMatch asciiLower [] 0 None)
               (Samples.storeOf [Samples.riceBowl]))
     = [Samples.riceBowl]
  /\ calls (Part001.recipesByIngredientMatch asciiLower [] 0 None)
           (Samples.storeOf [Samples.riceBowl])
     = [FindMany {| AND := None |}]
  /\ Part001.findRecipesByIngredientNames asciiLower [] None
       (Samples.storeOf [Samples.riceBowl])
     = ([Samples.riceBowl], [FindMany {| AND := None |}]).
Proof.
  split; [reflexivity|]. repeat split; vm_compute; reflexivity.
Qed.

(** ** Filters of the full-text strategy *)

(** In part_001 the vegan test is the one of the claim when the filter is
    absent or true. *)
Lemma part001_veganMatch_spec (f : RecipeFilters) (rec : Recipe) :
  filters_vegan f <> Some false ->
  Part001.veganMatch (Some f) rec
  = match filters_vegan f with
    | Some b => Bool.eqb (vegan rec) b
    | None => true
    end.
Proof.
  destruct f as [[[|]|] cs]; cbn; intros H; try reflexivity. congruence.
Qed.

Lemma part001_categoryMatch_spec (f : RecipeFilters) (rec : Recipe) :
  Part001.categoryMatch (Some f) rec
  = match filters_categories f with
    | Some cs => shares_category cs rec
    | None => true
    end.
Proof. destruct f as [v [cs|]]; reflexivity. Qed.

(** resolvers.ts tests [typeof filters.vegan !== "boolean"] instead. *)
Lemma resolversTs_veganMatch_false (rec : Recipe) :
  ResolversTs.veganMatch Samples.onlyNonVegan rec = negb (vegan rec).
Proof. unfold ResolversTs.veganMatch. cbn. now destruct (vegan rec). Qed.

(** C6. In part_001 a query with filters.vegan = false keeps every
    retrieved row: [!filters?.vegan] is true for false, so the vegan test
    accepts vegan recipes as well. *)
Theorem vegan_false_keeps_vegan_rows :
  (forall (cs : option (list jsstring)) (rec : Recipe),
      Part001.veganMatch
        (Some {| filters_vegan := Some false; filters_categories := cs |}) rec
      = true)
  /\ vegan Samples.riceBowl = true
  /\ List.map (fun r => row (sr_recipe r))
       (result (Part001.recipesWithFullTextSearch [str "rice"]
                  (Some Samples.onlyNonVegan))
               (Samples.storeOf [Samples.riceBowl]))
     = [Samples.riceBowl]
  /\ result (ResolversTs.recipesWithFullTextSearch [str "rice"]
               (Some Samples.onlyNonVegan))
            (Samples.storeOf [Samples.riceBowl])
     = [].
Proof.
  split; [reflexivity|]. repeat split; vm_compute; reflexivity.
Qed.

(** ** Slices *)

Lemma firstn_incl (A : Type) (n : nat) (l : list A) (x : A) :
  In x (firstn n l) -> In x l.
Proof.
  intros H. rewrite <- (firstn_skipn n l). apply in_or_app. now left.
Qed.

Lemma slice0_nonneg (A : Type) (l : list A) (e : Z) :
  (0 <= e)%Z -> Array.slice0 l e = firstn (Z.to_nat e) l.
Proof.
  intros H. unfold Array.slice0.
  destruct (e <? 0)%Z eqn:E; [lia | reflexivity].
Qed.

End Resolvers.

(* ================================================================== *)
(** * Filters and candidates *)
(* ================================================================== *)

Module Filtering.
Import JS Prisma Shapes.

Lemma jsstring_eqb_eq (a b : jsstring) : jsstring_eqb a b = true <-> a = b.
Proof.
  unfold jsstring_eqb. destruct (list_eq_dec N.eq_dec a b); split; congruence.
Qed.

Lemma shares_category_spec (cs : list jsstring) (rec : Recipe) :
  shares_category cs rec = true
  <-> exists cat, In cat cs /\ In cat (categories rec).
Proof.
  unfold shares_category. rewrite existsb_exists. split.
  - intros (cat & Hc & H). apply existsb_exists in H. destruct H as (x & Hx & E).
    apply jsstring_eqb_eq in E. subst x. now exists cat.
  - intros (cat & Hc & H). exists cat. split; [assumption|].
    apply existsb_exists. exists cat. split; [assumption|]. now apply jsstring_eqb_eq.
Qed.

Lemma where_clause_spec (filters : option RecipeFilters) (rec : Recipe) :
  satisfies (buildPrismaWhereClause filters) rec = true
  <-> meetsFilters filters rec.
Proof.
  destruct filters as [[v cs]|]; [|cbn; tauto].
  unfold meetsFilters. cbn [filters_vegan filters_categories].
  assert (Hv : forall b, Bool.eqb (vegan rec) b = true <-> vegan rec = b).
  { intros b. destruct (vegan rec), b; cbn; split; congruence. }
  destruct v as [b|]; destruct cs as [[|c cs]|]; cbn -[shares_category];
    rewrite ?andb_true_r, ?andb_true_iff, ?Hv, ?shares_category_spec.
  - split; [intros H; split; [intros ? [= <-]; assumption | intros ? ? [=]]
           | intros [H _]; now apply H].
  - split.
    + intros [H1 H2]. split; [intros ? [= <-]; assumption|].
      intros ? ? [= <- <-]. exact H2.
    + intros [H1 H2]. split; [now apply H1 | now apply H2].
  - split; [intros H; split; [intros ? [= <-]; assumption | intros ? ? [=]]
           | intros [H _]; now apply H].
  - split; [intros _; split; [intros ? [=] | intros ? ? [=]] | reflexivity].
  - split.
    + intros H. split; [intros ? [=]|]. intros ? ? [= <- <-]. exact H.
    + intros [_ H]. now apply H.
  - split; [intros _; split; [intros ? [=] | intros ? ? [=]] | reflexivity].
Qed.

(** X1. The where clause built from the optional filters holds of a recipe
    exactly when its vegan flag equals filters.vegan, if that is given, and
    it shares a category with filters.categories, if that is given and not
    empty; absent filters and an empty category list constrain nothing. *)
Theorem where_clause_meaning :
  forall (filters : option RecipeFilters) (rec : Recipe),
    satisfies (buildPrismaWhereClause filters) rec = true
    <-> meetsFilters filters rec.
Proof. exact where_clause_spec. Qed.

Lemma candidates_In (filters : option RecipeFilters) (st : Store) (rec : Recipe) :
  In rec (filter (satisfies (buildPrismaWhereClause filters)) (table st))
  <-> In rec (table st) /\ meetsFilters filters rec.
Proof. rewrite filter_In, where_clause_spec. tauto. Qed.



Section WithLowerCase.
Variable toLowerCase : jsstring -> jsstring.

Lemma scored_recipe (availableIngredients : list jsstring) (rec : Recipe) :
  recipe (Part001.scoreRecipe toLowerCase availableIngredients rec) = rec.
Proof. unfold Part001.scoreRecipe. now destruct (_ =? _)%nat. Qed.

Lemma slice0_incl (A : Type) (l : list A) (e : Z) (x : A) :
  In x (Array.slice0 l e) -> In x l.
Proof.
  unfold Array.slice0. intros H.
  destruct (e <? 0)%Z; now apply Resolvers.firstn_incl in H.
Qed.

End WithLowerCase.

(** X3. Every recipe returned by the exact, ingredient-name, quick or
    percentage strategy of part_001 is a stored recipe that meets the
    filters. *)
Theorem part001_results_meet_filters :
  forall (toLowerCase : jsstring -> jsstring)
         (availableIngredients ingredientNames : list jsstring)
         (minMatchPercentage : Z) (limit : option Z)
         (filters : option RecipeFilters) (st : Store) (rec : Recipe),
    In rec (result (Part001.recipesWithExactIngredients toLowerCase
                      availableIngredients filters) st)
    \/ In rec (result (Part001.findRecipesByIngredientNames toLowerCase
                         ingredientNames filters) st)
    \/ In rec (result (Part001.quickRecipeSuggestions toLowerCase
                         availableIngredients limit filters) st)
    \/ In rec (List.map recipe
                 (result (Part001.recipesByIngredientMatch toLowerCase
                            availableIngredients minMatchPercentage filters) st)) ->
    In rec (table st) /\ meetsFilters filters rec.
Proof.
  intros lower avail names minp limit filters st rec H.
  apply candidates_In. unfold result in H. cbn in H.
  rewrite !app_nil_r in H || idtac.
  destruct H as [H|[H|[H|H]]].
  - now apply filter_In in H.
  - now apply filter_In in H.
  - apply slice0_incl in H. now apply filter_In in H.
  - apply in_map_iff in H. destruct H as (r & <- & H).
    apply RankingFacts.filterAndSort_In in H. destruct H as [H _].
    apply in_map_iff in H. destruct H as (rec' & <- & H).
    now rewrite scored_recipe.
Qed.

Lemma part001_results_meet_filters_witness :
  In Samples.riceBowl
     (result (Part001.recipesWithExactIngredients asciiLower
                [str "rice"; str "pepper"] (Some Samples.onlyVegan))
             (Samples.storeOf [Samples.garlicMinced; Samples.riceBowl]))
  /\ meetsFilters (Some Samples.onlyVegan) Samples.riceBowl.
Proof.
  assert (H : In Samples.riceBowl
                 (result (Part001.recipesWithExactIngredients asciiLower
                            [str "rice"; str "pepper"] (Some Samples.onlyVegan))
                         (Samples.storeOf [Samples.garlicMinced; Samples.riceBowl]))).
  { vm_compute. left. reflexivity. }
  split; [exact H|].
  exact (proj2 (part001_results_meet_filters asciiLower [str "rice"; str "pepper"]
                  [] 0 None (Some Samples.onlyVegan)
                  (Samples.storeOf [Samples.garlicMinced; Samples.riceBowl])
                  Samples.riceBowl (or_introl H))).
Defined.

End Filtering.

(* ================================================================== *)
(** * How the strategies respond to their arguments *)
(* ================================================================== *)

Module Strategies.
Import JS Prisma Shapes.

Lemma percentage_zero (n : nat) : Number.percentage 0 n = 0%Z.
Proof.
  unfold Number.percentage, Number.fdiv.
  assert (H : (Number.of_nat 0 / Number.of_nat n == 0)%Q).
  { unfold Number.of_nat. cbn [Z.of_nat]. unfold Qdiv. now rewrite Qmult_0_l. }
  rewrite (NumberFacts.fl_proper H). vm_compute. reflexivity.
Qed.

Lemma filter_none (A : Type) (p : A -> bool) (l : list A) :
  (forall x, In x l -> p x = false) -> filter p l = [].
Proof.
  induction l as [|x l IH]; intros H; cbn [filter]; [reflexivity|].
  rewrite (H x (or_introl eq_refl)). apply IH. intros y Hy. apply H. now right.
Qed.

Lemma filter_all (A : Type) (p : A -> bool) (l : list A) :
  (forall x, In x l -> p x = true) -> filter p l = l.
Proof.
  induction l as [|x l IH]; intros H; cbn [filter]; [reflexivity|].
  rewrite (H x (or_introl eq_refl)). f_equal. apply IH. intros y Hy. apply H. now right.
Qed.

Lemma includes_empty (s : jsstring) : includes s [] = true.
Proof. destruct s; reflexivity. Qed.

Section WithLowerCase.
Variable toLowerCase : jsstring -> jsstring.

Local Abbreviation required :=
  (fun rec => Part001.extractIngredientNames toLowerCase (ingredients rec)).
Local Abbreviation candidates :=
  (fun filters st => filter (satisfies (buildPrismaWhereClause filters)) (table st)).

Lemma scoreRecipe_range (availableIngredients : list jsstring) (rec : Recipe) :
  (0 <= matchPercentage (Part001.scoreRecipe toLowerCase availableIngredients rec)
   <= 100)%Z.
Proof.
  destruct (ScoringFacts.part001_invariant toLowerCase availableIngredients rec)
    as (_ & _ & H). exact H.
Qed.

Lemma matchedBy_incl (A B : list jsstring) (req : jsstring) :
  incl A B -> Part001.matchedBy A req = true -> Part001.matchedBy B req = true.
Proof. intros H. unfold Part001.matchedBy. now apply ScoringFacts.existsb_incl. Qed.

Lemma lower_in_expanded (availableIngredients : list jsstring) :
  incl (List.map toLowerCase availableIngredients)
       (Part001.expandIngredients toLowerCase availableIngredients).
Proof.
  intros x H. apply in_map_iff in H. destruct H as (ing & <- & H).
  unfold Part001.expandIngredients. apply in_flat_map. exists ing.
  split; [assumption | now left].
Qed.

Lemma quick_matching_In (availableIngredients : list jsstring) (rec : Recipe) :
  required rec <> [] ->
  forallb (Part001.matchedBy (List.map toLowerCase availableIngredients))
          (required rec) = true ->
  Part001.hasMatchingIngredient toLowerCase
    (List.map toLowerCase availableIngredients) rec = true.
Proof.
  intros Hne Hall. unfold Part001.hasMatchingIngredient.
  destruct (required rec) as [|x l] eqn:E; [congruence|].
  cbn [forallb] in Hall. apply andb_true_iff in Hall. destruct Hall as [Hx _].
  cbn [existsb]. unfold Part001.matchedBy in Hx. now rewrite Hx.
Qed.

End WithLowerCase.

(** A store with one recipe scored 100, one scored 50 and one scored 0 for
    the available word "rice". *)
Example three_scores :
  List.map matchPercentage
    (result (Part001.recipesByIngredientMatch asciiLower [str "rice"] 0 None)
            (Samples.storeOf [Samples.garlicMinced; Samples.riceBowl;
                              Samples.mkRecipe 4 ["rice"%string] true]))
  = [100; 50; 0]%Z.
Proof. vm_compute. reflexivity. Qed.

(** X4. Raising minMatchPercentage only removes entries from the result of
    recipesByIngredientMatch, and at a threshold of 0 or less every
    candidate is returned, once. *)
Theorem threshold_monotone :
  forall (toLowerCase : jsstring -> jsstring) (availableIngredients : list jsstring)
         (filters : option RecipeFilters) (st : Store) (lo hi : Z),
    (lo <= hi)%Z ->
    (forall r,
        In r (result (Part001.recipesByIngredientMatch toLowerCase
                        availableIngredients hi filters) st) ->
        In r (result (Part001.recipesByIngredientMatch toLowerCase
                        availableIngredients lo filters) st))
    /\ ((lo <= 0)%Z ->
        Permutation
          (List.map recipe
             (result (Part001.recipesByIngredientMatch toLowerCase
                        availableIngredients lo filters) st))
          (filter (satisfies (buildPrismaWhereClause filters)) (table st))).
Proof.
  intros lower avail filters st lo hi Hle. unfold result. cbn. split.
  - intros r H. apply RankingFacts.filterAndSort_In in H.
    apply RankingFacts.filterAndSort_In. split; [tauto | lia].
  - intros H0. rewrite RankingFacts.filterAndSort_perm.
    rewrite filter_all.
    + rewrite map_map. erewrite map_ext; [rewrite map_id; reflexivity|].
      intros rec. apply Filtering.scored_recipe.
    + intros r Hr. apply in_map_iff in Hr. destruct Hr as (rec & <- & _).
      apply Z.leb_le. pose proof (scoreRecipe_range lower avail rec). lia.
Qed.

Lemma threshold_monotone_witness :
  (50 <= 100)%Z
  /\ forall r,
      In r (result (Part001.recipesByIngredientMatch asciiLower [str "rice"] 100 None)
                   (Samples.storeOf [Samples.riceBowl])) ->
      In r (result (Part001.recipesByIngredientMatch asciiLower [str "rice"] 50 None)
                   (Samples.storeOf [Samples.riceBowl])).
Proof.
  assert (H : (50 <= 100)%Z) by lia.
  split; [exact H|].
  exact (proj1 (threshold_monotone asciiLower [str "rice"] None
                  (Samples.storeOf [Samples.riceBowl]) H)).
Defined.

(** X5. With no available ingredient, part_001 scores every recipe 0 and
    reports all its normalised ingredients missing, so recipesByIngredientMatch
    returns nothing for a positive threshold, and the exact and quick
    strategies return nothing. *)
Theorem nothing_available :
  forall (toLowerCase : jsstring -> jsstring) (minMatchPercentage : Z)
         (limit : option Z) (filters : option RecipeFilters) (st : Store),
    (forall rec,
        matchPercentage (Part001.scoreRecipe toLowerCase [] rec) = 0%Z
        /\ missingIngredients (Part001.scoreRecipe toLowerCase [] rec)
           = Part001.extractIngredientNames toLowerCase (ingredients rec))
    /\ ((0 < minMatchPercentage)%Z ->
        result (Part001.recipesByIngredientMatch toLowerCase []
                  minMatchPercentage filters) st = [])
    /\ result (Part001.recipesWithExactIngredients toLowerCase [] filters) st = []
    /\ result (Part001.quickRecipeSuggestions toLowerCase [] limit filters) st = [].
Proof.
  intros lower minp limit filters st.
  assert (Hscore : forall rec,
             matchPercentage (Part001.scoreRecipe lower [] rec) = 0%Z
             /\ missingIngredients (Part001.scoreRecipe lower [] rec)
                = Part001.extractIngredientNames lower (ingredients rec)).
  { intros rec. unfold Part001.scoreRecipe.
    destruct (List.length _ =? 0)%nat eqn:E; cbn [matchPercentage missingIngredients];
      [split; reflexivity|].
    cbn [List.map]. rewrite filter_all by reflexivity.
    rewrite Nat.sub_diag. split; [apply percentage_zero | reflexivity]. }
  split; [exact Hscore|]. split; [|split].
  - intros Hpos. unfold result. cbn. unfold filterAndSort.
    rewrite filter_none; [reflexivity|].
    intros r Hr. apply in_map_iff in Hr. destruct Hr as (rec & <- & _).
    apply Z.leb_gt. rewrite (proj1 (Hscore rec)). exact Hpos.
  - unfold result. cbn. apply filter_none. intros rec _.
    destruct (List.length _ =? 0)%nat eqn:E; [reflexivity|].
    destruct (Part001.extractIngredientNames lower (ingredients rec));
      [discriminate | reflexivity].
  - unfold result. cbn. rewrite filter_none;
      [unfold Array.slice0; destruct (_ <? 0)%Z; apply firstn_nil|].
    intros rec _. unfold Part001.hasMatchingIngredient.
    induction (Part001.extractIngredientNames lower (ingredients rec));
      [reflexivity | exact IHl].
Qed.

(** X6. An available term whose lower-cased form is the empty string is
    contained in every ingredient: every recipe with a normalised ingredient
    is then scored 100 by part_001. *)
Theorem empty_term_matches_everything :
  forall (toLowerCase : jsstring -> jsstring) (availableIngredients : list jsstring)
         (term : jsstring) (rec : Recipe),
    In term availableIngredients ->
    toLowerCase term = [] ->
    Part001.extractIngredientNames toLowerCase (ingredients rec) <> [] ->
    matchPercentage (Part001.scoreRecipe toLowerCase availableIngredients rec)
    = 100%Z
    /\ missingIngredients (Part001.scoreRecipe toLowerCase availableIngredients rec)
       = [].
Proof.
  intros lower avail term rec Hin Hlow Hne.
  assert (Hall : forallb (Part001.matchedBy (List.map lower avail))
                         (Part001.extractIngredientNames lower (ingredients rec))
                 = true).
  { apply forallb_forall. intros req _. unfold Part001.matchedBy.
    apply existsb_exists. exists []. split; [|apply includes_empty].
    rewrite <- Hlow. now apply in_map. }
  split; [now apply ExactMode.full_match_scores_100|].
  unfold Part001.scoreRecipe.
  destruct (List.length _ =? 0)%nat eqn:E; cbn [missingIngredients].
  - apply Nat.eqb_eq in E. now destruct (Part001.extractIngredientNames _ _).
  - now apply ScoringFacts.filter_nil_forallb.
Qed.

Lemma empty_term_matches_everything_witness :
  In [] [str "saffron"; []]
  /\ matchPercentage
       (Part001.scoreRecipe asciiLower [str "saffron"; []] Samples.riceBowl)
     = 100%Z.
Proof.
  assert (H : In (@nil codeunit) [str "saffron"; []]) by (right; left; reflexivity).
  split; [exact H|].
  refine (proj1 (empty_term_matches_everything asciiLower _ [] Samples.riceBowl
                   H eq_refl _)).
  vm_compute. discriminate.
Defined.

(** X7. Adding available ingredients never removes a recipe from the result
    of recipesWithExactIngredients (part_001). *)
Theorem exact_monotone :
  forall (toLowerCase : jsstring -> jsstring) (A B : list jsstring)
         (filters : option RecipeFilters) (st : Store) (rec : Recipe),
    incl A B ->
    In rec (result (Part001.recipesWithExactIngredients toLowerCase A filters) st) ->
    In rec (result (Part001.recipesWithExactIngredients toLowerCase B filters) st).
Proof.
  intros lower A B filters st rec Hincl H.
  apply ExactMode.exact_In in H. destruct H as (Hc & Hne & Hall).
  apply ExactMode.exact_In. repeat split; try assumption.
  rewrite forallb_forall in *. intros req Hreq.
  eapply matchedBy_incl; [|now apply Hall]. now apply incl_map.
Qed.

Lemma exact_monotone_witness :
  incl [str "rice"; str "pepper"] [str "rice"; str "pepper"; str "salt"]
  /\ In Samples.riceBowl
        (result (Part001.recipesWithExactIngredients asciiLower
                   [str "rice"; str "pepper"; str "salt"] None)
                (Samples.storeOf [Samples.riceBowl])).
Proof.
  assert (Hi : incl [str "rice"; str "pepper"] [str "rice"; str "pepper"; str "salt"]).
  { intros x [<-|[<-|[]]]; [left | right; left]; reflexivity. }
  split; [exact Hi|].
  apply (exact_monotone asciiLower None (Samples.storeOf [Samples.riceBowl])
           Samples.riceBowl Hi).
  vm_compute. left. reflexivity.
Defined.

(** X8. findRecipesByIngredientNames of part_001 returns the candidates whose
    normalised ingredients cover every requested name: asking for more
    names never adds a recipe, and asking for none returns every
    candidate. *)
Theorem names_antimonotone :
  forall (toLowerCase : jsstring -> jsstring) (names more : list jsstring)
         (filters : option RecipeFilters) (st : Store),
    incl names more ->
    (forall rec,
        In rec (result (Part001.findRecipesByIngredientNames toLowerCase
                          more filters) st) ->
        In rec (result (Part001.findRecipesByIngredientNames toLowerCase
                          names filters) st))
    /\ result (Part001.findRecipesByIngredientNames toLowerCase [] filters) st
       = filter (satisfies (buildPrismaWhereClause filters)) (table st).
Proof.
  intros lower names more filters st Hincl. unfold result. cbn. split.
  - intros rec H. apply filter_In in H. destruct H as [Hc H].
    apply filter_In. split; [assumption|].
    rewrite forallb_forall in *. intros name Hn. apply H. now apply Hincl.
  - now apply filter_all.
Qed.

Lemma names_antimonotone_witness :
  incl [str "rice"] [str "rice"; str "pepper"]
  /\ forall rec,
      In rec (result (Part001.findRecipesByIngredientNames asciiLower
                        [str "rice"; str "pepper"] None)
                     (Samples.storeOf [Samples.riceBowl])) ->
      In rec (result (Part001.findRecipesByIngredientNames asciiLower
                        [str "rice"] None)
                     (Samples.storeOf [Samples.riceBowl])).
Proof.
  assert (Hi : incl [str "rice"] [str "rice"; str "pepper"]).
  { intros x [<-|[]]. left. reflexivity. }
  split; [exact Hi|].
  exact (proj1 (names_antimonotone asciiLower None
                  (Samples.storeOf [Samples.riceBowl]) Hi)).
Defined.

End Strategies.

(* ================================================================== *)
(** * Monotonicity of the binary64 percentage *)
(* ================================================================== *)

Module Monotone.
Import Number NumberFacts.
Local Open Scope Q_scope.

Lemma round_half_even_proper (a b : Q) :
  a == b -> round_half_even a = round_half_even b.
Proof.
  intros H. unfold round_half_even.
  assert (Hf : Qfloor a = Qfloor b) by (now apply Qfloor_comp).
  assert (Hc : Qcompare (a - inject_Z (Qfloor a)) (1 # 2)
               = Qcompare (b - inject_Z (Qfloor b)) (1 # 2)).
  { apply Qcompare_comp; [|reflexivity]. rewrite Hf. lra. }
  now rewrite Hc, Hf.
Qed.

Lemma round_half_even_mono (a b : Q) :
  a <= b -> (round_half_even a <= round_half_even b)%Z.
Proof.
  intros H.
  destruct (Z_le_gt_dec (round_half_even a) (round_half_even b)) as [|Hgt];
    [assumption | exfalso].
  pose proof (round_half_even_le a) as Ha.
  pose proof (round_half_even_ge b) as Hb.
  assert (Hz : inject_Z (round_half_even b + 1) <= inject_Z (round_half_even a))
    by (rewrite <- Zle_Qle; lia).
  rewrite inject_Z_plus in Hz. change (inject_Z 1) with 1 in Hz.
  assert (Heq : a == b) by lra.
  apply round_half_even_proper in Heq. lia.
Qed.

Lemma round_half_even_Z (z : Z) : round_half_even (inject_Z z) = z.
Proof.
  unfold round_half_even. rewrite Qfloor_Z.
  replace (Qcompare (inject_Z z - inject_Z z) (1 # 2)) with Lt; [reflexivity|].
  symmetry. apply (proj1 (Qlt_alt _ _)). lra.
Qed.

Lemma pow2_ge_1 (k : Z) : (0 <= k)%Z -> 1 <= pow2 k.
Proof.
  intros H. rewrite pow2_inject by assumption.
  change 1 with (inject_Z 1). rewrite <- Zle_Qle.
  pose proof (Z.pow_pos_nonneg 2 k). lia.
Qed.

Lemma pow2_mono (a b : Z) : (a <= b)%Z -> pow2 a <= pow2 b.
Proof.
  intros H. replace b with (a + (b - a))%Z by lia. rewrite pow2_add.
  pose proof (pow2_pos a).
  assert (1 <= pow2 (b - a)) by (apply pow2_ge_1; lia). nra.
Qed.

Lemma ilog2_mono (x y : Q) : 0 < x -> x <= y -> (ilog2 x <= ilog2 y)%Z.
Proof.
  intros Hx Hxy.
  destruct (Z_le_gt_dec (ilog2 x) (ilog2 y)) as [|Hgt]; [assumption | exfalso].
  pose proof (ilog2_le Hx) as H1.
  assert (Hy : 0 < y) by lra.
  pose proof (ilog2_lt Hy) as H2.
  assert (pow2 (ilog2 y + 1) <= pow2 (ilog2 x)) by (apply pow2_mono; lia). lra.
Qed.

(** Rounding to binary64 is monotone. *)
Lemma fl_mono (x y : Q) : 0 <= x -> x <= y -> fl x <= fl y.
Proof.
  intros Hx Hxy.
  pose proof (fl_nonneg y) as Hy0.
  unfold fl in *.
  pose proof (Qred_correct x) as Hrx. pose proof (Qred_correct y) as Hry.
  set (qx := Qred x) in *. set (qy := Qred y) in *.
  destruct (Qle_bool qx 0) eqn:Ex; [exact Hy0|].
  assert (Hqx : 0 < qx).
  { apply Qnot_le_lt. intro H. apply Qle_bool_iff in H. congruence. }
  destruct (Qle_bool qy 0) eqn:Ey.
  { apply Qle_bool_iff in Ey. lra. }
  assert (Hq : qx <= qy) by lra.
  pose proof (ilog2_mono Hqx Hq) as He.
  set (ex := ilog2 qx) in *. set (ey := ilog2 qy) in *.
  pose proof (pow2_pos (ex - 52)) as Px. pose proof (pow2_pos (ey - 52)) as Py.
  destruct (Z.eq_dec ex ey) as [Heq|Hne].
  - rewrite <- Heq in *.
    apply Qmult_le_compat_r; [|lra]. rewrite <- Zle_Qle.
    apply round_half_even_mono. apply Qmult_le_compat_r; [assumption|].
    apply Qlt_le_weak, Qinv_lt_0_compat. assumption.
  - assert (Hqy : 0 < qy) by lra.
    pose proof (ilog2_lt Hqx) as Hux. fold ex in Hux.
    pose proof (ilog2_le Hqy) as Hly. fold ey in Hly.
    assert (H53 : pow2 (ex + 1) == inject_Z (2 ^ 53) * pow2 (ex - 52)).
    { replace (ex + 1)%Z with (53 + (ex - 52))%Z by lia. rewrite pow2_add.
      now rewrite (@pow2_inject 53) by lia. }
    assert (H52 : pow2 ey == inject_Z (2 ^ 52) * pow2 (ey - 52)).
    { replace ey with (52 + (ey - 52))%Z at 1 by lia. rewrite pow2_add.
      now rewrite (@pow2_inject 52) by lia. }
    assert (Hrx' : inject_Z (round_half_even (qx / pow2 (ex - 52)))
                   <= inject_Z (2 ^ 53)).
    { rewrite <- Zle_Qle. rewrite <- (round_half_even_Z (2 ^ 53)).
      apply round_half_even_mono.
      apply Qle_shift_div_r; [assumption|]. lra. }
    assert (Hry' : inject_Z (2 ^ 52)
                   <= inject_Z (round_half_even (qy / pow2 (ey - 52)))).
    { rewrite <- Zle_Qle. rewrite <- (round_half_even_Z (2 ^ 52)).
      apply round_half_even_mono.
      apply Qle_shift_div_l; [assumption|]. lra. }
    assert (Hm' : pow2 (ex + 1) <= pow2 ey) by (apply pow2_mono; lia).
    assert (inject_Z (round_half_even (qx / pow2 (ex - 52))) * pow2 (ex - 52)
            <= inject_Z (2 ^ 53) * pow2 (ex - 52))
      by (apply Qmult_le_compat_r; lra).
    assert (inject_Z (2 ^ 52) * pow2 (ey - 52)
            <= inject_Z (round_half_even (qy / pow2 (ey - 52))) * pow2 (ey - 52))
      by (apply Qmult_le_compat_r; lra).
    lra.
Qed.

(** For a fixed number of ingredients, more matches never score lower. *)
Lemma percentage_mono (m1 m2 n : nat) :
  (m1 <= m2)%nat -> (m2 <= n)%nat -> (percentage m1 n <= percentage m2 n)%Z.
Proof.
  intros H12 H2n. unfold percentage, Math_round, fmul, fdiv.
  assert (H1n : (m1 <= n)%nat) by lia.
  destruct (ratio_bounds H1n) as [Hlo _].
  assert (Ha : of_nat m1 / of_nat n <= of_nat m2 / of_nat n).
  { destruct n as [|n].
    - assert (m1 = 0 /\ m2 = 0)%nat as [-> ->] by lia. apply Qle_refl.
    - apply Qmult_le_compat_r.
      + unfold of_nat. rewrite <- Zle_Qle. lia.
      + apply Qlt_le_weak, Qinv_lt_0_compat. unfold of_nat.
        change 0 with (inject_Z 0). rewrite <- Zlt_Qlt. lia. }
  pose proof (fl_mono Hlo Ha) as H1.
  pose proof (fl_nonneg (of_nat m1 / of_nat n)) as H0.
  assert (Hb : fl (of_nat m1 / of_nat n) * 100 <= fl (of_nat m2 / of_nat n) * 100)
    by lra.
  assert (Hb0 : 0 <= fl (of_nat m1 / of_nat n) * 100) by lra.
  pose proof (fl_mono Hb0 Hb) as H2.
  apply Qfloor_resp_le. lra.
Qed.

End Monotone.

(* ================================================================== *)
(** * Scores across available sets and strategies *)
(* ================================================================== *)

Module Scores.
Import JS Prisma Shapes.

Lemma filter_incl_impl (A : Type) (p q : A -> bool) (l : list A) :
  (forall x, p x = true -> q x = true) -> incl (filter p l) (filter q l).
Proof.
  intros H x Hx. apply filter_In in Hx. apply filter_In.
  split; [tauto | apply H; tauto].
Qed.

Section WithLowerCase.
Variable toLowerCase : jsstring -> jsstring.

(** The percentage of part_001 as a function of the missing list. *)
Lemma part001_score_shape (available : list jsstring) (rec : Recipe) :
  let required := Part001.extractIngredientNames toLowerCase (ingredients rec) in
  let missing :=
    filter (fun req => negb (Part001.matchedBy (List.map toLowerCase available) req))
           required in
  matchPercentage (Part001.scoreRecipe toLowerCase available rec)
  = Number.percentage (List.length required - List.length missing)
                      (List.length required).
Proof.
  intros required missing. unfold Part001.scoreRecipe. fold required.
  destruct (List.length required =? 0)%nat eqn:E; cbn [matchPercentage];
    [|reflexivity].
  apply Nat.eqb_eq in E. rewrite E, Nat.sub_0_l. symmetry.
  apply Strategies.percentage_zero.
Qed.

Lemma part001_smart_shape (expanded : list jsstring) (rec : Recipe) :
  let required := Part001.extractIngredientNames toLowerCase (ingredients rec) in
  let missing :=
    filter (fun req => negb (Part001.matchedBy expanded req)) required in
  matchPercentage (Part001.smartScoreRecipe toLowerCase expanded rec)
  = Number.percentage (List.length required - List.length missing)
                      (List.length required)
  /\ incl (missingIngredients (Part001.smartScoreRecipe toLowerCase expanded rec))
          missing.
Proof.
  intros required missing. unfold Part001.smartScoreRecipe. fold required.
  destruct (List.length required =? 0)%nat eqn:E;
    cbn [matchPercentage missingIngredients].
  - apply Nat.eqb_eq in E. rewrite E, Nat.sub_0_l. split.
    + symmetry. apply Strategies.percentage_zero.
    + destruct required; [intros x [] | discriminate].
  - split; [reflexivity | apply incl_refl].
Qed.

Lemma missing_antitone (A B : list jsstring) (required : list jsstring) :
  incl A B ->
  let missing := fun avail =>
    filter (fun req => negb (Part001.matchedBy avail req)) required in
  incl (missing B) (missing A)
  /\ (List.length required - List.length (missing A)
      <= List.length required - List.length (missing B))%nat.
Proof.
  intros Hincl missing.
  assert (Himp : forall req, negb (Part001.matchedBy B req) = true ->
                             negb (Part001.matchedBy A req) = true).
  { intros req H. apply negb_true_iff in H. apply negb_true_iff.
    destruct (Part001.matchedBy A req) eqn:E; [|reflexivity].
    now rewrite (Strategies.matchedBy_incl _ Hincl E) in H. }
  split.
  - now apply filter_incl_impl.
  - pose proof (ScoringFacts.filter_length_mono _ _ required Himp). unfold missing. lia.
Qed.

End WithLowerCase.

(** X9. For a fixed recipe, adding available ingredients never lowers the
    matchPercentage that part_001 or resolvers.ts gives it: the binary64
    quotient, product and Math.round are all monotone. *)
Theorem matchPercentage_monotone :
  forall (toLowerCase : jsstring -> jsstring) (A B : list jsstring) (rec : Recipe),
    incl A B ->
    (matchPercentage (Part001.scoreRecipe toLowerCase A rec)
     <= matchPercentage (Part001.scoreRecipe toLowerCase B rec))%Z
    /\ (matchPercentage (ResolversTs.scoreRecipe toLowerCase A rec)
        <= matchPercentage (ResolversTs.scoreRecipe toLowerCase B rec))%Z.
Proof.
  intros lower A B rec Hincl. split.
  - rewrite !part001_score_shape.
    destruct (missing_antitone
                (Part001.extractIngredientNames lower (ingredients rec))
                (incl_map lower Hincl)) as [_ Hlen].
    apply Monotone.percentage_mono; [exact Hlen | lia].
  - unfold ResolversTs.scoreRecipe. cbn [matchPercentage].
    set (required := ResolversTs.extractIngredientNames lower (ingredients rec)).
    destruct (0 <? List.length required)%nat; [|lia].
    apply Monotone.percentage_mono; [|lia].
    assert (H : (List.length (filter (fun req => negb (ResolversTs.matchedBy lower B req)) required)
                 <= List.length (filter (fun req => negb (ResolversTs.matchedBy lower A req)) required))%nat).
    { apply ScoringFacts.filter_length_mono. intros req H.
      apply negb_true_iff in H. apply negb_true_iff.
      destruct (ResolversTs.matchedBy lower A req) eqn:E; [|reflexivity].
      unfold ResolversTs.matchedBy in *.
      apply (@ScoringFacts.existsb_incl _ _ A B) in E; [congruence | assumption]. }
    lia.
Qed.

Lemma matchPercentage_monotone_witness :
  incl [str "rice"] [str "rice"; str "pepper"]
  /\ (matchPercentage (Part001.scoreRecipe asciiLower [str "rice"] Samples.riceBowl)
      <= matchPercentage
           (Part001.scoreRecipe asciiLower [str "rice"; str "pepper"]
                                Samples.riceBowl))%Z.
Proof.
  assert (H : incl [str "rice"] [str "rice"; str "pepper"]).
  { intros x [<-|[]]. left. reflexivity. }
  split; [exact H|].
  exact (proj1 (matchPercentage_monotone asciiLower Samples.riceBowl H)).
Defined.

(** X10. In part_001, smart matching only widens the available set: for
    available terms that are not inherited property names of the synonym
    table, every ingredient smart matching reports missing is also missing
    for the percentage scorer, and the smart score is at least the plain
    score. *)
Theorem smart_matching_dominates :
  forall (toLowerCase : jsstring -> jsstring) (availableIngredients : list jsstring)
         (rec : Recipe),
    plainKeys toLowerCase availableIngredients ->
    let plain := Part001.scoreRecipe toLowerCase availableIngredients rec in
    let smart :=
      Part001.smartScoreRecipe toLowerCase
        (Part001.expandIngredients toLowerCase availableIngredients) rec in
    incl (missingIngredients smart) (missingIngredients plain)
    /\ (matchPercentage plain <= matchPercentage smart)%Z.
Proof.
  intros lower avail rec _ plain smart.
  pose proof (Strategies.lower_in_expanded lower avail) as Hincl.
  destruct (missing_antitone
              (Part001.extractIngredientNames lower (ingredients rec)) Hincl)
    as [Hmiss Hlen].
  destruct (part001_smart_shape lower
              (Part001.expandIngredients lower avail) rec) as [Hs Hsm].
  split.
  - unfold smart, plain. intros x Hx. apply Hsm, Hmiss in Hx.
    unfold Part001.scoreRecipe.
    destruct (List.length _ =? 0)%nat eqn:E; cbn [missingIngredients]; [|exact Hx].
    apply filter_In in Hx. tauto.
  - unfold smart, plain. rewrite Hs, part001_score_shape.
    apply Monotone.percentage_mono; [exact Hlen | lia].
Qed.

Lemma smart_matching_dominates_witness :
  plainKeys asciiLower [str "onion"]
  /\ (matchPercentage
        (Part001.scoreRecipe asciiLower [str "onion"]
           (Samples.mkRecipe 5 ["1 red onion"%string; "rice"%string] true))
      <= matchPercentage
           (Part001.smartScoreRecipe asciiLower
              (Part001.expandIngredients asciiLower [str "onion"])
              (Samples.mkRecipe 5 ["1 red onion"%string; "rice"%string] true)))%Z.
Proof.
  assert (H : plainKeys asciiLower [str "onion"]).
  { intros ing [<-|[]]. vm_compute. intros H.
    repeat (destruct H as [H|H]; [discriminate|]). exact H. }
  split; [exact H|].
  exact (proj2 (smart_matching_dominates
                  (Samples.mkRecipe 5 ["1 red onion"%string; "rice"%string] true) H)).
Defined.

(** X11. Every recipe that the exact strategy of part_001 returns is a quick
    suggestion for the same available set and filters, once the limit is at
    least the size of the table. *)
Theorem exact_results_are_quick_suggestions :
  forall (toLowerCase : jsstring -> jsstring) (availableIngredients : list jsstring)
         (n : Z) (filters : option RecipeFilters) (st : Store) (rec : Recipe),
    (0 < n)%Z ->
    (Z.of_nat (List.length (table st)) <= n)%Z ->
    In rec (result (Part001.recipesWithExactIngredients toLowerCase
                      availableIngredients filters) st) ->
    In rec (result (Part001.quickRecipeSuggestions toLowerCase
                      availableIngredients (Some n) filters) st).
Proof.
  intros lower avail n filters st rec Hn Hlen H.
  apply ExactMode.exact_In in H. destruct H as (Hc & Hne & Hall).
  assert (Hq : result (Part001.quickRecipeSuggestions lower avail (Some n) filters) st
               = Array.slice0
                   (filter (Part001.hasMatchingIngredient lower (List.map lower avail))
                      (filter (satisfies (buildPrismaWhereClause filters)) (table st)))
                   (Part001.limitOrDefault (Some n))) by reflexivity.
  assert (Hl : Part001.limitOrDefault (Some n) = n) by (destruct n; [lia | reflexivity..]).
  rewrite Hq, Hl, Resolvers.slice0_nonneg by lia.
  rewrite firstn_all2.
  - apply filter_In. split; [assumption|].
    now apply Strategies.quick_matching_In.
  - pose proof (ScoringFacts.filter_length_le
                  (Part001.hasMatchingIngredient lower (List.map lower avail))
                  (filter (satisfies (buildPrismaWhereClause filters)) (table st))).
    pose proof (ScoringFacts.filter_length_le
                  (satisfies (buildPrismaWhereClause filters)) (table st)).
    lia.
Qed.

Lemma exact_results_are_quick_suggestions_witness :
  (0 < 5)%Z
  /\ In Samples.riceBowl
        (result (Part001.quickRecipeSuggestions asciiLower
                   [str "rice"; str "pepper"] (Some 5%Z) None)
                (Samples.storeOf [Samples.riceBowl])).
Proof.
  split; [reflexivity|].
  apply (@exact_results_are_quick_suggestions asciiLower [str "rice"; str "pepper"]
           5%Z None (Samples.storeOf [Samples.riceBowl]) Samples.riceBowl eq_refl).
  - vm_compute. discriminate.
  - vm_compute. left. reflexivity.
Defined.

(** X12. The scorers that the invariant of the percentage scorer does not
    name keep its range: the percentage scorer of part_000 and the smart
    scorers of the three files give 0 to a recipe without normalised
    ingredients and a matchPercentage between 0 and 100 to every recipe. *)
Theorem other_scorers_range :
  forall (toLowerCase : jsstring -> jsstring)
         (availableIngredients expanded : list jsstring) (rec : Recipe),
    let inRange := fun (required : list jsstring) (r : MatchResult) =>
      (required = [] -> matchPercentage r = 0%Z)
      /\ (0 <= matchPercentage r <= 100)%Z in
    inRange (Part000.extractIngredientNames toLowerCase (ingredients rec))
            (Part000.scoreRecipe toLowerCase availableIngredients rec)
    /\ inRange (Part000.extractIngredientNames toLowerCase (ingredients rec))
               (Part000.smartScoreRecipe toLowerCase expanded rec)
    /\ inRange (Part001.extractIngredientNames toLowerCase (ingredients rec))
               (Part001.smartScoreRecipe toLowerCase expanded rec)
    /\ inRange (ResolversTs.extractIngredientNames toLowerCase (ingredients rec))
               (ResolversTsRest.smartScoreRecipe toLowerCase expanded rec).
Proof.
  intros lower avail expanded rec inRange. unfold inRange.
  assert (Hsub : forall (p : jsstring -> bool) (l : list jsstring),
             (0 <= Number.percentage (List.length l - List.length (filter p l))
                                     (List.length l) <= 100)%Z).
  { intros p l. apply NumberFacts.percentage_range. lia. }
  repeat split.
  - intros E. unfold Part000.scoreRecipe. now rewrite E.
  - unfold Part000.scoreRecipe. destruct (_ =? _)%nat; cbn [matchPercentage];
      [lia | apply Hsub].
  - unfold Part000.scoreRecipe. destruct (_ =? _)%nat; cbn [matchPercentage];
      [lia | apply Hsub].
  - intros E. unfold Part000.smartScoreRecipe. now rewrite E.
  - unfold Part000.smartScoreRecipe. destruct (_ =? _)%nat; cbn [matchPercentage];
      [lia | apply Hsub].
  - unfold Part000.smartScoreRecipe. destruct (_ =? _)%nat; cbn [matchPercentage];
      [lia | apply Hsub].
  - intros E. unfold Part001.smartScoreRecipe. now rewrite E.
  - unfold Part001.smartScoreRecipe. destruct (_ =? _)%nat; cbn [matchPercentage];
      [lia | apply Hsub].
  - unfold Part001.smartScoreRecipe. destruct (_ =? _)%nat; cbn [matchPercentage];
      [lia | apply Hsub].
  - intros E. unfold ResolversTsRest.smartScoreRecipe. now rewrite E.
  - unfold ResolversTsRest.smartScoreRecipe. cbn [matchPercentage].
    destruct (_ <? _)%nat; [apply Hsub | vm_compute; congruence].
  - unfold ResolversTsRest.smartScoreRecipe. cbn [matchPercentage].
    destruct (_ <? _)%nat; [apply Hsub | vm_compute; congruence].
Qed.

End Scores.

(* ================================================================== *)
(** * The strategies evaluated by the database *)
(* ================================================================== *)

Module Database.
Import JS Prisma Shapes.

Lemma resolversTs_filter_is_where_clause (f : RecipeFilters) (rec : Recipe) :
  ResolversTs.veganMatch f rec && ResolversTs.categoryMatch f rec
  = satisfies (buildPrismaWhereClause (Some f)) rec.
Proof.
  destruct f as [[b|] [[|c cs]|]];
    unfold ResolversTs.veganMatch, ResolversTs.categoryMatch, satisfies;
    cbn -[shares_category]; rewrite ?andb_true_r; reflexivity.
Qed.

(** X13. In resolvers.ts the two strategies evaluated in SQL filter the rows
    they retrieve with the very condition that the where clause of the other
    strategies states; the full-text strategy returns at most 50 entries
    there and at most 100 in part_000 and part_001. *)
Theorem sql_strategies_filter_like_where_clause :
  forall (toLowerCase : jsstring -> jsstring) (availableIngredients : list jsstring)
         (limit : option Z) (filters : option RecipeFilters)
         (st : Store) (sql : ResolversTsRest.SqlStore),
    availableIngredients <> [] ->
    let retrieved :=
      firstn 50 (textSearch st (join (str " | ") availableIngredients) true) in
    let pattern :=
      join (str "|")
           (List.map (fun ing => str "%" ++ toLowerCase ing ++ str "%")
                     availableIngredients) in
    List.map sr_recipe
      (result (ResolversTs.recipesWithFullTextSearch availableIngredients filters) st)
    = filter (fun r => satisfies (buildPrismaWhereClause filters) (row r)) retrieved
    /\ fst (ResolversTsRest.quickRecipeSuggestions toLowerCase availableIngredients
              limit filters sql)
       = filter (satisfies (buildPrismaWhereClause filters))
                (ResolversTsRest.querySimilarTo sql pattern limit)
    /\ (List.length (result (ResolversTs.recipesWithFullTextSearch
                               availableIngredients filters) st) <= 50)%nat
    /\ (List.length (result (Part001.recipesWithFullTextSearch
                               availableIngredients filters) st) <= 100)%nat
    /\ (List.length (result (Part000.recipesWithFullTextSearch
                               availableIngredients filters) st) <= 100)%nat.
Proof.
  intros lower avail limit filters st sql Hne retrieved pattern.
  destruct avail as [|a avail]; [congruence|].
  assert (Hall : forall (A : Type) (l : list A), filter (fun _ => true) l = l).
  { intros A l. now apply Strategies.filter_all. }
  assert (H1 : List.map sr_recipe
                 (result (ResolversTs.recipesWithFullTextSearch (a :: avail) filters) st)
               = filter (fun r => satisfies (buildPrismaWhereClause filters) (row r))
                        retrieved).
  { unfold result. cbn -[join firstn satisfies buildPrismaWhereClause].
    rewrite map_map. cbn [sr_recipe]. rewrite map_id.
    destruct filters as [f|].
    - apply filter_ext. intros r. apply resolversTs_filter_is_where_clause.
    - symmetry. apply Hall. }
  split; [exact H1|]. split; [|split; [|split]].
  - unfold ResolversTsRest.quickRecipeSuggestions.
    cbn -[join satisfies buildPrismaWhereClause].
    destruct filters as [f|].
    + apply filter_ext. intros r. apply resolversTs_filter_is_where_clause.
    + symmetry. apply Hall.
  - rewrite <- (length_map sr_recipe), H1.
    pose proof (ScoringFacts.filter_length_le
                  (fun r => satisfies (buildPrismaWhereClause filters) (row r))
                  retrieved).
    pose proof (firstn_le_length 50
                  (textSearch st (join (str " | ") (a :: avail)) true)).
    fold retrieved in H0. lia.
  - unfold result. cbn -[join firstn]. rewrite length_map.
    match goal with
    | |- (List.length (filter ?p (firstn ?k ?l)) <= _)%nat =>
        pose proof (ScoringFacts.filter_length_le p (firstn k l));
        pose proof (firstn_le_length k l)
    end.
    lia.
  - unfold result. cbn -[join firstn]. rewrite length_map.
    match goal with
    | |- (List.length (filter ?p (firstn ?k ?l)) <= _)%nat =>
        pose proof (ScoringFacts.filter_length_le p (firstn k l));
        pose proof (firstn_le_length k l)
    end.
    lia.
Qed.

Lemma sql_strategies_filter_like_where_clause_witness :
  [str "rice"] <> []
  /\ List.map sr_recipe
       (result (ResolversTs.recipesWithFullTextSearch [str "rice"]
                  (Some Samples.onlyVegan))
               (Samples.storeOf [Samples.garlicMinced; Samples.riceBowl]))
     = filter (fun r => satisfies (buildPrismaWhereClause (Some Samples.onlyVegan))
                                  (row r))
              (firstn 50 (textSearch
                            (Samples.storeOf [Samples.garlicMinced; Samples.riceBowl])
                            (join (str " | ") [str "rice"]) true)).
Proof.
  assert (H : [str "rice"] <> []) by discriminate.
  split; [exact H|].
  exact (proj1 (sql_strategies_filter_like_where_clause asciiLower None
                  (Some Samples.onlyVegan)
                  (Samples.storeOf [Samples.garlicMinced; Samples.riceBowl])
                  {| ResolversTsRest.queryRawUnsafe := fun _ _ => [];
                     ResolversTsRest.querySimilarTo := fun _ _ => [] |} H)).
Defined.

(** ** The statement of findRecipesByIngredientNames *)

Lemma addName_fold (names : list jsstring) (b : ResolversTsRest.Builder) :
  let b' := fold_left ResolversTsRest.addName names b in
  ResolversTsRest.whereClauses b'
  = ResolversTsRest.whereClauses b
    ++ List.map (fun i => str "array_to_string(ingredients, ' ') ILIKE $"
                          ++ ResolversTsRest.decimal i)
                (List.seq (ResolversTsRest.paramIndex b) (List.length names))
  /\ ResolversTsRest.queryParams b'
     = ResolversTsRest.queryParams b
       ++ List.map (fun name => ResolversTsRest.SqlText (str "%" ++ name ++ str "%"))
                   names
  /\ ResolversTsRest.paramIndex b'
     = (ResolversTsRest.paramIndex b + List.length names)%nat.
Proof.
  revert b. induction names as [|name names IH]; intros b; cbn [fold_left].
  - cbn. rewrite !app_nil_r. repeat split. lia.
  - destruct (IH (ResolversTsRest.addName b name)) as (H1 & H2 & H3).
    cbn zeta in *. rewrite H1, H2, H3.
    cbn [ResolversTsRest.addName ResolversTsRest.whereClauses
         ResolversTsRest.queryParams ResolversTsRest.paramIndex
         List.length List.seq List.map].
    rewrite <- !app_assoc. repeat split. lia.
Qed.

(** X14. The statement that findRecipesByIngredientNames of resolvers.ts
    hands to $queryRawUnsafe is fixed by the number of names and by which
    filters are given: the names and filter values appear only among the
    bound values, one per placeholder, numbered $1, $2, ... in order; for an
    empty list of names no statement is sent. *)
Theorem ingredient_names_statement :
  forall (ingredientNames : list jsstring) (filters : option RecipeFilters),
    let n := List.length ingredientNames in
    let clauses := numberedClauses n (filterShape filters) in
    ResolversTsRest.buildStatement ingredientNames filters
    = (str "SELECT * FROM " ++ ResolversTsRest.quote ++ str "Recipe"
       ++ ResolversTsRest.quote
       ++ (if (0 <? List.length clauses)%nat
           then str " WHERE " ++ join (str " AND ") clauses
           else [])
       ++ str " LIMIT 50;",
       boundValues ingredientNames filters)
    /\ List.length (boundValues ingredientNames filters) = List.length clauses
    /\ (forall (names' : list jsstring) (filters' : option RecipeFilters),
           List.length names' = n -> filterShape filters' = filterShape filters ->
           fst (ResolversTsRest.buildStatement names' filters')
           = fst (ResolversTsRest.buildStatement ingredientNames filters))
    /\ (forall sql : ResolversTsRest.SqlStore,
           snd (ResolversTsRest.findRecipesByIngredientNames ingredientNames
                  filters sql)
           = match ingredientNames with
             | [] => []
             | _ :: _ => [ResolversTsRest.RawUnsafe
                            (fst (ResolversTsRest.buildStatement ingredientNames filters))
                            (boundValues ingredientNames filters)]
             end).
Proof.
  intros names filters n clauses.
  assert (Hbuild : forall names filters,
             ResolversTsRest.buildStatement names filters
             = (str "SELECT * FROM " ++ ResolversTsRest.quote ++ str "Recipe"
                ++ ResolversTsRest.quote
                ++ (if (0 <? List.length
                               (numberedClauses (List.length names) (filterShape filters)))%nat
                    then str " WHERE "
                         ++ join (str " AND ")
                              (numberedClauses (List.length names) (filterShape filters))
                    else [])
                ++ str " LIMIT 50;",
                boundValues names filters)).
  { clear. intros names filters. unfold ResolversTsRest.buildStatement.
    destruct (addName_fold names
                {| ResolversTsRest.whereClauses := [];
                   ResolversTsRest.queryParams := [];
                   ResolversTsRest.paramIndex := 1 |}) as (H1 & H2 & H3).
    cbn zeta in H1, H2, H3.
    cbn [ResolversTsRest.whereClauses ResolversTsRest.queryParams
         ResolversTsRest.paramIndex app] in H1, H2, H3.
    set (b := fold_left ResolversTsRest.addName names _) in *.
    assert (Hshape :
              ResolversTsRest.whereClauses
                (ResolversTsRest.addCategories (ResolversTsRest.addVegan b filters) filters)
              = numberedClauses (List.length names) (filterShape filters)
              /\ ResolversTsRest.queryParams
                   (ResolversTsRest.addCategories (ResolversTsRest.addVegan b filters)
                                                  filters)
                 = boundValues names filters).
    { unfold numberedClauses, boundValues, filterShape.
      destruct filters as [[[v|] [[|c cs]|]]|];
        cbn [ResolversTsRest.addVegan ResolversTsRest.addCategories
             ResolversTsRest.whereClauses ResolversTsRest.queryParams
             ResolversTsRest.paramIndex fst snd filters_vegan filters_categories];
        rewrite ?H1, ?H2, ?H3, <- ?app_assoc, ?app_nil_r; cbn [app Nat.add];
        split; reflexivity. }
    destruct Hshape as [Hw Hp]. rewrite Hw, Hp.
    destruct (0 <? _)%nat; rewrite <- ?app_assoc; cbn [app]; reflexivity. }
  split; [apply Hbuild|]. split; [|split].
  - unfold boundValues, clauses, numberedClauses, filterShape, n.
    destruct filters as [[[v|] [[|c cs]|]]|];
      cbn [fst snd filters_vegan filters_categories];
      rewrite ?length_app, ?length_map, ?length_seq; cbn [List.length];
      reflexivity.
  - intros names' filters' Hlen Hshape.
    rewrite !Hbuild. cbn [fst]. now rewrite Hlen, Hshape.
  - intros sql. unfold ResolversTsRest.findRecipesByIngredientNames.
    destruct names as [|name names]; [reflexivity|].
    cbn [List.length Nat.eqb]. rewrite (Hbuild (name :: names) filters).
    reflexivity.
Qed.

Example statement_for_two_names :
  fst (ResolversTsRest.buildStatement [str "rice"; str "x'; DROP TABLE"]
         (Some Samples.onlyVegan))
  = str "SELECT * FROM " ++ ResolversTsRest.quote ++ str "Recipe"
    ++ ResolversTsRest.quote
    ++ str " WHERE array_to_string(ingredients, ' ') ILIKE $1 AND array_to_string(ingredients, ' ') ILIKE $2 AND vegan = $3 LIMIT 50;".
Proof. vm_compute. reflexivity. Qed.

End Database.

(* ================================================================== *)
(** * The shape of normalised tokens *)
(* ================================================================== *)

Module Tokens.
Import JS Prisma Text TextFacts Shapes.

(** ** Trimming *)

Lemma startsClean_trimStart (s : jsstring) : startsClean (trimStart s) = true.
Proof.
  induction s as [|c t IH]; [reflexivity|]. cbn [trimStart].
  destruct (is_space c) eqn:E; [exact IH|]. cbn. now rewrite E.
Qed.

Lemma trimStart_clean (s : jsstring) : startsClean s = true -> trimStart s = s.
Proof.
  destruct s as [|c t]; [reflexivity|]. cbn. intros H.
  apply negb_true_iff in H. now rewrite H.
Qed.

Lemma trimStart_snoc (l : jsstring) (d : codeunit) :
  is_space d = false -> trimStart (l ++ [d]) = trimStart l ++ [d].
Proof.
  intros Hd. induction l as [|c l IH]; cbn [app trimStart].
  - now rewrite Hd.
  - destruct (is_space c); [exact IH | reflexivity].
Qed.

Lemma endsClean_trimEnd (s : jsstring) : endsClean (trimEnd s) = true.
Proof.
  unfold endsClean, trimEnd. rewrite rev_involutive. apply startsClean_trimStart.
Qed.

Lemma startsClean_trimEnd (s : jsstring) :
  startsClean s = true -> startsClean (trimEnd s) = true.
Proof.
  destruct s as [|d s]; [reflexivity|]. cbn [startsClean]. intros H.
  apply negb_true_iff in H. unfold trimEnd. cbn [rev].
  rewrite trimStart_snoc by assumption. rewrite rev_app_distr. cbn.
  now rewrite H.
Qed.

Lemma trim_clean (s : jsstring) :
  startsClean (trim s) = true /\ endsClean (trim s) = true.
Proof.
  unfold trim. split.
  - apply startsClean_trimEnd, startsClean_trimStart.
  - apply endsClean_trimEnd.
Qed.

Lemma trim_fixed (s : jsstring) :
  startsClean s = true -> endsClean s = true -> trim s = s.
Proof.
  intros Hs He. unfold trim. rewrite (trimStart_clean _ Hs).
  unfold trimEnd. unfold endsClean in He. rewrite (trimStart_clean _ He).
  apply rev_involutive.
Qed.

Lemma endsClean_tail (c : codeunit) (t : jsstring) :
  t <> [] -> endsClean (c :: t) = true -> endsClean t = true.
Proof.
  unfold endsClean. cbn [rev]. intros Hne.
  destruct (rev t) as [|d r] eqn:E.
  - apply (f_equal (@rev codeunit)) in E. rewrite rev_involutive in E. contradiction.
  - cbn. tauto.
Qed.

Lemma endsClean_suffix (a r : jsstring) :
  r <> [] -> endsClean (a ++ r) = true -> endsClean r = true.
Proof.
  unfold endsClean. rewrite rev_app_distr. intros Hne.
  destruct (rev r) as [|d r'] eqn:E.
  - apply (f_equal (@rev codeunit)) in E. rewrite rev_involutive in E. contradiction.
  - cbn. tauto.
Qed.

Lemma trimStart_split (t : jsstring) :
  exists a, t = a ++ trimStart t /\ Forall (fun c => is_space c = true) a.
Proof.
  induction t as [|c t (a & Ha & Hs)]; [now exists []|].
  cbn [trimStart]. destruct (is_space c) eqn:E.
  - exists (c :: a). split; [cbn; now f_equal | now constructor].
  - now exists [].
Qed.

Lemma all_spaces_not_clean (c : codeunit) (a : jsstring) :
  is_space c = true -> Forall (fun c => is_space c = true) a ->
  endsClean (c :: a) = false.
Proof.
  intros Hc Ha. unfold endsClean.
  assert (H : Forall (fun c => is_space c = true) (rev (c :: a))).
  { apply Forall_rev. now constructor. }
  destruct (rev (c :: a)) as [|d r] eqn:E.
  - apply (f_equal (@List.length codeunit)) in E. rewrite length_rev in E. discriminate.
  - inversion H; subst. cbn. now rewrite H2.
Qed.

(** ** Collapsing white space *)

Lemma star_space_trims (t : jsstring) : star is_space t Some = Some (trimStart t).
Proof.
  induction t as [|c t IH]; [reflexivity|]. cbn [star trimStart].
  destruct (is_space c); [now rewrite IH | reflexivity].
Qed.

Lemma run_spaces (c : codeunit) (t : jsstring) :
  run (plus is_space) (c :: t)
  = if is_space c then Some (trimStart t) else None.
Proof.
  unfold run, plus, seq, one. destruct (is_space c); [apply star_space_trims | reflexivity].
Qed.

Lemma go_skips (m : Matcher) (rep a r : jsstring) :
  replace_go m rep (a ++ r) (List.length a) = replace_go m rep r 0.
Proof. induction a as [|c a IH]; [reflexivity | exact IH]. Qed.

Lemma collapse_word (c : codeunit) (t : jsstring) :
  is_space c = false ->
  replace_go (plus is_space) [space] (c :: t) 0
  = c :: replace_go (plus is_space) [space] t 0.
Proof. intros H. cbn [replace_go]. now rewrite run_spaces, H. Qed.

Lemma collapse_gap (c : codeunit) (t : jsstring) :
  is_space c = true ->
  replace_go (plus is_space) [space] (c :: t) 0
  = space :: replace_go (plus is_space) [space] (trimStart t) 0.
Proof.
  intros H. cbn [replace_go]. rewrite run_spaces, H.
  destruct (trimStart_split t) as (a & Ha & _).
  assert (Hl : (List.length (c :: t) - List.length (trimStart t))%nat
               = S (List.length a)).
  { rewrite Ha at 1. cbn [List.length]. rewrite length_app. lia. }
  rewrite Hl. cbn [app]. f_equal. rewrite Ha at 1. apply go_skips.
Qed.

Lemma collapse_spaced (n : nat) :
  forall s, (List.length s <= n)%nat -> endsClean s = true ->
            spaced InWord (replace_go (plus is_space) [space] s 0) = true.
Proof.
  induction n as [|n IH]; intros s Hlen Hend.
  - destruct s; [reflexivity | cbn in Hlen; lia].
  - destruct s as [|c t]; [reflexivity|].
    cbn [List.length] in Hlen.
    destruct (is_space c) eqn:Ec.
    + rewrite collapse_gap by assumption.
      destruct (trimStart_split t) as (a & Ha & Hsp).
      destruct (trimStart t) as [|d r] eqn:Et.
      * rewrite app_nil_r in Ha. subst a.
        now rewrite (@all_spaces_not_clean c t Ec Hsp) in Hend.
      * assert (Hd : is_space d = false).
        { pose proof (startsClean_trimStart t) as H. rewrite Et in H.
          now apply negb_true_iff in H. }
        assert (Hr : endsClean (d :: r) = true).
        { apply (@endsClean_suffix (c :: a)); [discriminate|].
          cbn [app]. now rewrite <- Ha. }
        rewrite collapse_word by assumption.
        cbn [spaced]. unfold space at 1. cbn [is_space]. cbn.
        rewrite Hd. cbn [negb andb].
        apply IH.
        -- assert (List.length t = List.length a + S (List.length r))%nat
             by (rewrite Ha at 1; now rewrite length_app).
           lia.
        -- destruct r as [|e r]; [reflexivity|].
           apply (@endsClean_tail d); [discriminate | exact Hr].
    + rewrite collapse_word by assumption. cbn [spaced]. rewrite Ec.
      apply IH; [lia|].
      destruct t as [|e t]; [reflexivity|].
      apply (@endsClean_tail c); [discriminate | exact Hend].
Qed.

Lemma collapse_trimmed (s : jsstring) :
  singleSpaced (Part001Normalizer.collapseSpaces (trim s)) = true.
Proof.
  destruct (trim_clean s) as [Hs He].
  unfold Part001Normalizer.collapseSpaces, replace_all, singleSpaced.
  destruct (trim s) as [|d x]; [reflexivity|].
  cbn [startsClean] in Hs. apply negb_true_iff in Hs.
  rewrite collapse_word by assumption. cbn [spaced]. rewrite Hs. cbn [negb andb].
  apply (collapse_spaced (n := List.length x)); [lia|].
  destruct x as [|e x]; [reflexivity|].
  apply (@endsClean_tail d); [discriminate | exact He].
Qed.

Lemma before_comma_clean (s : jsstring) : ~ In 44%N (before_comma s).
Proof.
  induction s as [|c t IH]; cbn [before_comma]; [tauto|].
  destruct (c =? 44)%N eqn:E; [tauto|].
  intros [H|H]; [|contradiction]. subst c. discriminate.
Qed.

(** X15. Every token of the normaliser of part_001 is a non-empty sequence
    of words free of white space, separated by single U+0020 and with no
    white space at either end; it contains no comma and no asterisk. *)
Theorem part001_token_shape :
  forall (toLowerCase : jsstring -> jsstring) (ingredients : list jsstring)
         (tok : jsstring),
    In tok (Part001.extractIngredientNames toLowerCase ingredients) ->
    tok <> []
    /\ singleSpaced tok = true
    /\ ~ In 44%N tok
    /\ ~ In 42%N tok.
Proof.
  intros lower lines tok H.
  unfold Part001.extractIngredientNames, Part001Normalizer.extractIngredientNames in H.
  apply filter_In in H. destruct H as [H Hne].
  apply in_map_iff in H. destruct H as (line & <- & _).
  split; [now destruct (Part001Normalizer.cleanIngredient lower line)|].
  split; [apply collapse_trimmed|].
  assert (Hchars : forall c,
             In c (Part001Normalizer.cleanIngredient lower line) ->
             c = space
             \/ In c (Part001Normalizer.stripStars
                        (Part001Normalizer.stripUnits
                           (Part001Normalizer.stripQuantities
                              (Part001Normalizer.mainClause lower line))))).
  { intros c Hc. apply replace_go_In in Hc. destruct Hc as [[<-|[]]|Hc]; [now left|].
    right. now apply trim_In in Hc. }
  split; intros Hc; apply Hchars in Hc; destruct Hc as [Hc|Hc]; try discriminate.
  - apply NormalizerFacts.stripStars_In, replace_go_In in Hc.
    destruct Hc as [[Hc|[]]|Hc]; [discriminate|].
    unfold Part001Normalizer.stripQuantities in Hc.
    rewrite replace_class_filter in Hc. apply filter_In in Hc. destruct Hc as [Hc _].
    now apply before_comma_clean in Hc.
  - unfold Part001Normalizer.stripStars in Hc.
    rewrite replace_class_filter in Hc. apply filter_In in Hc. destruct Hc as [_ Hc].
    discriminate.
Qed.

Lemma part001_token_shape_witness :
  In (str "o ive oi")
     (Part001.extractIngredientNames asciiLower [str "  2 tbsp  Olive   Oil* , cold"])
  /\ singleSpaced (str "o ive oi") = true.
Proof.
  assert (H : In (str "o ive oi")
                 (Part001.extractIngredientNames asciiLower
                    [str "  2 tbsp  Olive   Oil* , cold"])).
  { vm_compute. left. reflexivity. }
  split; [exact H|].
  exact (proj1 (proj2 (part001_token_shape asciiLower _ _ H))).
Defined.

(** X16. Every token of the normaliser of part_000 is non-empty, has no
    white space at either end and contains no comma; trimming it again
    changes nothing. *)
Theorem part000_token_shape :
  forall (toLowerCase : jsstring -> jsstring) (ingredients : list jsstring)
         (tok : jsstring),
    In tok (Part000.extractIngredientNames toLowerCase ingredients) ->
    tok <> []
    /\ startsClean tok = true /\ endsClean tok = true
    /\ trim tok = tok
    /\ ~ In 44%N tok.
Proof.
  intros lower lines tok H.
  unfold Part000.extractIngredientNames, Part000Normalizer.extractIngredientNames in H.
  apply filter_In in H. destruct H as [H Hne].
  apply in_map_iff in H. destruct H as (line & <- & _).
  unfold Part000Normalizer.cleanIngredient in *.
  destruct (trim_clean
              (before_comma
                 (replace_all Part000Normalizer.parenthetical []
                    (replace_anchored Part000Normalizer.quantity_unit_prefix []
                       (lower line))))) as [Hs He].
  split; [now destruct (trim _)|].
  split; [exact Hs|]. split; [exact He|]. split; [now apply trim_fixed|].
  intros Hc. apply trim_In in Hc. now apply before_comma_clean in Hc.
Qed.

Lemma part000_token_shape_witness :
  In (str "olive oil")
     (Part000.extractIngredientNames asciiLower [str "2 tbsp Olive Oil , cold"])
  /\ trim (str "olive oil") = str "olive oil".
Proof.
  assert (H : In (str "olive oil")
                 (Part000.extractIngredientNames asciiLower
                    [str "2 tbsp Olive Oil , cold"])).
  { vm_compute. left. reflexivity. }
  split; [exact H|].
  exact (proj1 (proj2 (proj2 (proj2 (part000_token_shape asciiLower _ _ H))))).
Defined.


(** A bare number survives in resolvers.ts and is dropped by the other two. *)
Example bare_number :
  ResolversTs.extractIngredientNames asciiLower [str "2"; str "salt"]
  = [str "2"; str "salt"]
  /\ Part000.extractIngredientNames asciiLower [str "2"; str "salt"] = [str "salt"]
  /\ Part001.extractIngredientNames asciiLower [str "2"; str "salt"] = [str "sa t"].
Proof. repeat split; vm_compute; reflexivity. Qed.

End Tokens.

(* ================================================================== *)
(** * Popular categories *)
(* ================================================================== *)

Module Popular.
Import JS Prisma Shapes HomeScreen.

Local Abbreviation byCount :=
  (fun e : jsstring * nat => Z.of_nat (snd e)).

Lemma eqb_refl (k : jsstring) : jsstring_eqb k k = true.
Proof. now apply Filtering.jsstring_eqb_eq. Qed.

Lemma eqb_neq (k k' : jsstring) : k <> k' -> jsstring_eqb k k' = false.
Proof.
  intros H. destruct (jsstring_eqb k k') eqn:E; [|reflexivity].
  now apply Filtering.jsstring_eqb_eq in E.
Qed.

Lemma countCategories_flat (allRecipes : list Recipe) :
  countCategories allRecipes
  = fold_left countCategory (List.flat_map categories allRecipes) [].
Proof.
  unfold countCategories. generalize (@nil (jsstring * nat)).
  induction allRecipes as [|r rs IH]; intros m; [reflexivity|].
  cbn [fold_left flat_map]. now rewrite fold_left_app, IH.
Qed.

Lemma mapGet_mapSet (m : CategoryCounts) (k k' : jsstring) (v : nat) :
  mapGet (mapSet m k v) k' = if jsstring_eqb k k' then Some v else mapGet m k'.
Proof.
  induction m as [|[k0 v0] m IH]; cbn [mapSet mapGet].
  - reflexivity.
  - destruct (jsstring_eqb k0 k) eqn:E0; cbn [mapGet].
    + apply Filtering.jsstring_eqb_eq in E0. subst k0.
      now destruct (jsstring_eqb k k').
    + rewrite IH. destruct (jsstring_eqb k0 k') eqn:E1; [|reflexivity].
      apply Filtering.jsstring_eqb_eq in E1. subst k0.
      destruct (jsstring_eqb k k') eqn:E2; [|reflexivity].
      apply Filtering.jsstring_eqb_eq in E2. subst k'.
      rewrite eqb_refl in E0. discriminate.
Qed.

Lemma keys_mapSet (m : CategoryCounts) (k k' : jsstring) (v : nat) :
  In k' (List.map fst (mapSet m k v)) <-> k' = k \/ In k' (List.map fst m).
Proof.
  induction m as [|[k0 v0] m IH]; cbn [mapSet List.map fst In].
  - intuition.
  - destruct (jsstring_eqb k0 k) eqn:E0; cbn [List.map fst In].
    + apply Filtering.jsstring_eqb_eq in E0. subst k0. intuition.
    + rewrite IH. intuition.
Qed.

Lemma NoDup_mapSet (m : CategoryCounts) (k : jsstring) (v : nat) :
  NoDup (List.map fst m) -> NoDup (List.map fst (mapSet m k v)).
Proof.
  induction m as [|[k0 v0] m IH]; cbn [mapSet List.map fst]; intros H.
  - repeat constructor. intros [].
  - inversion H as [|? ? Hnot Hnd]; subst.
    destruct (jsstring_eqb k0 k) eqn:E0; cbn [List.map fst].
    + now constructor.
    + constructor; [|now apply IH].
      intros Hin. apply keys_mapSet in Hin. destruct Hin as [->|Hin]; [|contradiction].
      now rewrite eqb_refl in E0.
Qed.

Lemma NoDup_counts (l : list jsstring) (m : CategoryCounts) :
  NoDup (List.map fst m) -> NoDup (List.map fst (fold_left countCategory l m)).
Proof.
  revert m. induction l as [|c l IH]; intros m H; [exact H|].
  cbn [fold_left]. apply IH. now apply NoDup_mapSet.
Qed.

(** The loop counts occurrences. *)
Lemma counts_fold (l : list jsstring) (m : CategoryCounts) (k : jsstring) :
  mapGet (fold_left countCategory l m) k
  = match count_occ (list_eq_dec N.eq_dec) l k with
    | O => mapGet m k
    | S n => Some ((match mapGet m k with Some v => v | None => 0 end) + S n)%nat
    end.
Proof.
  revert m. induction l as [|c l IH]; intros m; [reflexivity|].
  cbn [fold_left]. rewrite IH. unfold countCategory. rewrite !mapGet_mapSet.
  cbn [count_occ].
  destruct (list_eq_dec N.eq_dec c k) as [->|Hne].
  - rewrite eqb_refl.
    destruct (count_occ (list_eq_dec N.eq_dec) l k); f_equal; lia.
  - rewrite (eqb_neq Hne). reflexivity.
Qed.

Lemma counts_get (allRecipes : list Recipe) (k : jsstring) :
  mapGet (countCategories allRecipes) k
  = match occurrences allRecipes k with
    | O => None
    | S n => Some (S n)
    end.
Proof.
  rewrite countCategories_flat, counts_fold. unfold occurrences.
  now destruct (count_occ (list_eq_dec N.eq_dec) _ k).
Qed.

Lemma In_mapGet (m : CategoryCounts) (k : jsstring) (v : nat) :
  NoDup (List.map fst m) -> (In (k, v) m <-> mapGet m k = Some v).
Proof.
  induction m as [|[k0 v0] m IH]; cbn [List.map fst In mapGet]; intros H.
  - split; [tauto | discriminate].
  - inversion H as [|? ? Hnot Hnd]; subst.
    destruct (jsstring_eqb k0 k) eqn:E0.
    + apply Filtering.jsstring_eqb_eq in E0. subst k0. split.
      * intros [[= ->]|Hin]; [reflexivity|].
        exfalso. apply Hnot. apply in_map_iff. now exists (k, v).
      * intros [= ->]. now left.
    + rewrite <- (IH Hnd). split; [|tauto].
      intros [[= -> _]|Hin]; [now rewrite eqb_refl in E0 | assumption].
Qed.

Lemma entry_count (allRecipes : list Recipe) (e : jsstring * nat) :
  In e (countCategories allRecipes) ->
  snd e = occurrences allRecipes (fst e) /\ (0 < snd e)%nat.
Proof.
  destruct e as [k v]. intros H. cbn [fst snd].
  apply In_mapGet in H.
  - rewrite counts_get in H. destruct (occurrences allRecipes k); [discriminate|].
    injection H as <-. split; [reflexivity | lia].
  - rewrite countCategories_flat. apply NoDup_counts. constructor.
Qed.

Lemma sorted_entries (allRecipes : list Recipe) :
  let sorted := Array.sort (fun a b => (byCount b - byCount a)%Z)
                           (countCategories allRecipes) in
  Permutation sorted (countCategories allRecipes)
  /\ Ranking.nonIncreasing byCount sorted
  /\ popularCategories allRecipes = List.map fst (firstn 10 sorted).
Proof.
  intros sorted. split; [|split].
  - apply (ArrayFacts.sort_perm byCount).
  - apply (ArrayFacts.sort_sorted byCount).
  - reflexivity.
Qed.

Lemma sorted_app (A : Type) (R : A -> A -> Prop) (a b : list A) :
  StronglySorted R (a ++ b) ->
  StronglySorted R a /\ forall x y, In x a -> In y b -> R x y.
Proof.
  induction a as [|x a IH]; cbn [app]; intros H.
  - split; [constructor | intros ? ? []].
  - inversion H as [|? ? Hs Hf]; subst. destruct (IH Hs) as [Ha Hab].
    rewrite Forall_forall in Hf. split.
    + constructor; [assumption|]. apply Forall_forall. intros y Hy.
      apply Hf. apply in_or_app. now left.
    + intros x' y [<-|Hx'] Hy; [|now apply Hab].
      apply Hf. apply in_or_app. now right.
Qed.

Lemma sorted_map (A B : Type) (R : A -> A -> Prop) (R' : B -> B -> Prop)
      (f : A -> B) (l : list A) :
  (forall x y, In x l -> In y l -> R x y -> R' (f x) (f y)) ->
  StronglySorted R l -> StronglySorted R' (List.map f l).
Proof.
  intros Hf H. induction H as [|x l Hs IH Hx]; cbn [List.map]; [constructor|].
  constructor.
  - apply IH. intros a b Ha Hb. apply Hf; now right.
  - rewrite Forall_forall in *. intros y Hy. apply in_map_iff in Hy.
    destruct Hy as (z & <- & Hz). apply Hf; [now left | now right | now apply Hx].
Qed.

(** X18. categoryCounts holds, for every category listed by some recipe, the
    number of times it is listed in the table, and no entry for any other
    string. *)
Theorem category_counts_correct :
  forall (allRecipes : list Recipe) (category : jsstring),
    mapGet (countCategories allRecipes) category
    = (if (0 <? occurrences allRecipes category)%nat
       then Some (occurrences allRecipes category)
       else None)
    /\ NoDup (List.map fst (countCategories allRecipes)).
Proof.
  intros rs c. split.
  - rewrite counts_get. now destruct (occurrences rs c).
  - rewrite countCategories_flat. apply NoDup_counts. constructor.
Qed.

(** X19. popularCategories lists at most ten categories, without
    repetition, each of them listed by some recipe, in non-increasing order
    of the number of times they are listed. *)
Theorem popular_categories_sound :
  forall allRecipes : list Recipe,
    let popular := popularCategories allRecipes in
    (List.length popular <= 10)%nat
    /\ NoDup popular
    /\ (forall c, In c popular -> In c (List.flat_map categories allRecipes))
    /\ StronglySorted
         (fun c1 c2 => (occurrences allRecipes c2 <= occurrences allRecipes c1)%nat)
         popular.
Proof.
  intros rs popular.
  destruct (sorted_entries rs) as (Hperm & Hsorted & Hpop).
  cbn zeta in Hperm, Hsorted, Hpop.
  set (sorted := Array.sort _ (countCategories rs)) in *.
  assert (Hsplit : sorted = firstn 10 sorted ++ skipn 10 sorted)
    by (symmetry; apply firstn_skipn).
  assert (Hin : forall e, In e (firstn 10 sorted) -> In e (countCategories rs)).
  { intros e He. apply (Permutation_in _ Hperm). rewrite Hsplit.
    apply in_or_app. now left. }
  unfold popular. rewrite Hpop. split; [|split; [|split]].
  - rewrite length_map. apply firstn_le_length.
  - assert (Hnd : NoDup (List.map fst sorted)).
    { apply (Permutation_NoDup (Permutation_sym (Permutation_map fst Hperm))).
      rewrite countCategories_flat. apply NoDup_counts. constructor. }
    rewrite Hsplit, map_app in Hnd. now apply NoDup_app_remove_r in Hnd.
  - intros c Hc. apply in_map_iff in Hc. destruct Hc as (e & <- & He).
    destruct (entry_count rs e (Hin e He)) as [Hocc Hpos].
    unfold occurrences in Hocc. rewrite Hocc in Hpos.
    now apply count_occ_In in Hpos.
  - unfold Ranking.nonIncreasing in Hsorted. rewrite Hsplit in Hsorted.
    apply sorted_app in Hsorted. destruct Hsorted as [Htop _].
    eapply sorted_map; [|exact Htop].
    intros x y Hx Hy Hxy. cbn beta in Hxy.
    destruct (entry_count rs x (Hin x Hx)) as [<- _].
    destruct (entry_count rs y (Hin y Hy)) as [<- _]. lia.
Qed.

(** X20. A category that some recipe lists is left out of popularCategories
    only when ten categories are returned, each listed at least as often. *)
Theorem popular_categories_top :
  forall (allRecipes : list Recipe) (category : jsstring),
    In category (List.flat_map categories allRecipes) ->
    ~ In category (popularCategories allRecipes) ->
    List.length (popularCategories allRecipes) = 10%nat
    /\ forall c, In c (popularCategories allRecipes) ->
                 (occurrences allRecipes category <= occurrences allRecipes c)%nat.
Proof.
  intros rs cat Hcat Hout.
  destruct (sorted_entries rs) as (Hperm & Hsorted & Hpop).
  cbn zeta in Hperm, Hsorted, Hpop.
  set (sorted := Array.sort _ (countCategories rs)) in *.
  assert (Hsplit : sorted = firstn 10 sorted ++ skipn 10 sorted)
    by (symmetry; apply firstn_skipn).
  assert (Hentry : In (cat, occurrences rs cat) sorted).
  { apply (Permutation_in _ (Permutation_sym Hperm)).
    apply In_mapGet; [rewrite countCategories_flat; apply NoDup_counts; constructor|].
    rewrite counts_get.
    assert (Hpos : (0 < occurrences rs cat)%nat).
    { unfold occurrences. now apply count_occ_In. }
    destruct (occurrences rs cat); [lia | reflexivity]. }
  assert (Hrest : In (cat, occurrences rs cat) (skipn 10 sorted)).
  { rewrite Hsplit in Hentry. apply in_app_or in Hentry.
    destruct Hentry as [H|H]; [|exact H].
    exfalso. apply Hout. rewrite Hpop. apply in_map_iff.
    now exists (cat, occurrences rs cat). }
  split.
  - rewrite Hpop, length_map. apply firstn_length_le.
    destruct (le_lt_dec 10 (List.length sorted)) as [|Hlt]; [assumption|].
    rewrite skipn_all2 in Hrest by lia. contradiction.
  - intros c Hc. rewrite Hpop in Hc. apply in_map_iff in Hc.
    destruct Hc as (e & <- & He).
    unfold Ranking.nonIncreasing in Hsorted. rewrite Hsplit in Hsorted.
    apply sorted_app in Hsorted. destruct Hsorted as [_ Hcross].
    specialize (Hcross e _ He Hrest). cbn [snd] in Hcross.
    assert (Hine : In e (countCategories rs)).
    { apply (Permutation_in _ Hperm). rewrite Hsplit. apply in_or_app. now left. }
    destruct (entry_count rs e Hine) as [<- _]. lia.
Qed.

Lemma popular_categories_top_witness :
  In (str "j") (List.flat_map categories pantry)
  /\ popularCategories pantry
     = List.map str ["k"; "a"; "b"; "c"; "d"; "e"; "f"; "g"; "h"; "i"]%string
  /\ List.length (popularCategories pantry) = 10%nat.
Proof.
  assert (Hin : In (str "j") (List.flat_map categories pantry)).
  { vm_compute. tauto. }
  assert (Hpop : popularCategories pantry
                 = List.map str ["k"; "a"; "b"; "c"; "d"; "e"; "f"; "g"; "h"; "i"]%string).
  { vm_compute. reflexivity. }
  split; [exact Hin|]. split; [exact Hpop|].
  refine (proj1 (popular_categories_top pantry (str "j") Hin _)).
  rewrite Hpop. vm_compute. intros H.
  repeat (destruct H as [H|H]; [discriminate|]). exact H.
Defined.

End Popular.

(* ================================================================== *)
(** * Substring matching, empty recipes and anchored patterns *)
(* ================================================================== *)

Module Matching.
Import JS Prisma Text Shapes.

Lemma startsWith_starts (s sub : jsstring) :
  startsWith s sub = true <-> starts sub s.
Proof.
  revert s. induction sub as [|p sub IH]; intros s.
  - split; [intros _; now exists s | now destruct s].
  - destruct s as [|c s]; cbn [startsWith].
    + split; [discriminate | intros [post H]; discriminate].
    + rewrite andb_true_iff, N.eqb_eq, IH. split.
      * intros [-> [post ->]]. now exists post.
      * intros [post H]. cbn in H. injection H as -> ->. split; [reflexivity|].
        now exists post.
Qed.

(** [includes] is occurrence as a contiguous run of code units. *)
Lemma includes_occurs (s sub : jsstring) :
  includes s sub = true <-> occurs sub s.
Proof.
  induction s as [|c s IH]; cbn [includes].
  - rewrite orb_false_r, startsWith_starts. split.
    + apply TextFacts.starts_occurs.
    + intros (pre & post & H). destruct pre; [now exists post|discriminate].
  - rewrite orb_true_iff, startsWith_starts, IH. split.
    + intros [H|H]; [now apply TextFacts.starts_occurs | now apply TextFacts.occurs_cons].
    + apply TextFacts.occurs_cons_inv.
Qed.

(** X21. In part_001 and part_000 the missingIngredients of a scored recipe
    are, in order, exactly the normalised ingredients in which no
    lower-cased available term occurs as a contiguous substring, and the
    reported matching count and the missing ingredients add up to the
    total. *)
Theorem missing_ingredients_meaning :
  forall (toLowerCase : jsstring -> jsstring) (availableIngredients : list jsstring)
         (rec : Recipe),
    let noTermOccurs := fun req =>
      forall avail, In avail availableIngredients ->
                    ~ occurs (toLowerCase avail) req in
    let describes := fun (required : list jsstring) (r : MatchResult) =>
      (forall req, In req (missingIngredients r)
                   <-> In req required /\ noTermOccurs req)
      /\ (exists keep, missingIngredients r = filter keep required)
      /\ (forall m t, matchingIngredientsCount r = Some m ->
                      totalIngredientsCount r = Some t ->
                      t = List.length required
                      /\ (m + List.length (missingIngredients r) = t)%nat) in
    describes (Part001.extractIngredientNames toLowerCase (ingredients rec))
              (Part001.scoreRecipe toLowerCase availableIngredients rec)
    /\ describes (Part000.extractIngredientNames toLowerCase (ingredients rec))
                 (Part000.scoreRecipe toLowerCase availableIngredients rec).
Proof.
  intros lower avail rec noTermOccurs describes.
  assert (Hmatch : forall req,
             negb (existsb (fun a => includes req a) (List.map lower avail)) = true
             <-> noTermOccurs req).
  { intros req. rewrite negb_true_iff. unfold noTermOccurs. split.
    - intros H a Ha Hocc. apply includes_occurs in Hocc.
      assert (existsb (fun a => includes req a) (List.map lower avail) = true).
      { apply existsb_exists. exists (lower a). split; [now apply in_map | exact Hocc]. }
      congruence.
    - intros H. destruct (existsb _ _) eqn:E; [|reflexivity].
      apply existsb_exists in E. destruct E as (x & Hx & Hinc).
      apply in_map_iff in Hx. destruct Hx as (a & <- & Ha).
      apply includes_occurs in Hinc. now apply H in Hinc. }
  assert (Hlen : forall (p : jsstring -> bool) (l : list jsstring),
             (List.length l - List.length (filter p l) + List.length (filter p l)
              = List.length l)%nat).
  { intros p l. pose proof (ScoringFacts.filter_length_le p l). lia. }
  unfold describes. split.
  - unfold Part001.scoreRecipe, Part001.matchedBy.
    set (required := Part001.extractIngredientNames lower (ingredients rec)).
    destruct (List.length required =? 0)%nat eqn:E;
      cbn [missingIngredients matchingIngredientsCount totalIngredientsCount].
    + apply Nat.eqb_eq, length_zero_iff_nil in E. rewrite E. split; [|split].
      * intros req. cbn. tauto.
      * now exists (fun _ => true).
      * intros m t H. discriminate.
    + split; [|split].
      * intros req. rewrite filter_In, Hmatch. tauto.
      * eexists. reflexivity.
      * intros m t [= <-] [= <-]. split; [reflexivity | apply Hlen].
  - unfold Part000.scoreRecipe, Part000.matchedBy.
    set (required := Part000.extractIngredientNames lower (ingredients rec)).
    destruct (List.length required =? 0)%nat eqn:E;
      cbn [missingIngredients matchingIngredientsCount totalIngredientsCount].
    + apply Nat.eqb_eq, length_zero_iff_nil in E. rewrite E. split; [|split].
      * intros req. cbn. tauto.
      * now exists (fun _ => true).
      * intros m t [= <-] [= <-]. split; reflexivity.
    + split; [|split].
      * intros req. rewrite filter_In, Hmatch. tauto.
      * eexists. reflexivity.
      * intros m t [= <-] [= <-]. split; [reflexivity | apply Hlen].
Qed.

(** X22. A candidate recipe without ingredient lines is returned by
    recipesWithExactIngredients of resolvers.ts for every available set and
    by that of part_000 for every non-empty one, since [every] holds of an
    empty array; part_001 tests for it and never returns such a recipe. *)
Theorem recipe_without_ingredients :
  forall (toLowerCase : jsstring -> jsstring) (availableIngredients : list jsstring)
         (filters : option RecipeFilters) (st : Store) (rec : Recipe),
    In rec (table st) ->
    meetsFilters filters rec ->
    ingredients rec = [] ->
    In rec (result (ResolversTs.recipesWithExactIngredients toLowerCase
                      availableIngredients filters) st)
    /\ (availableIngredients <> [] ->
        In rec (result (Part000.recipesWithExactIngredients toLowerCase
                          availableIngredients filters) st))
    /\ ~ In rec (result (Part001.recipesWithExactIngredients toLowerCase
                           availableIngredients filters) st).
Proof.
  intros lower avail filters st rec Hin Hf Hnil.
  assert (Hc : In rec (filter (satisfies (buildPrismaWhereClause filters)) (table st)))
    by (apply Filtering.candidates_In; tauto).
  split; [|split].
  - unfold result. cbn. apply filter_In. split; [exact Hc | now rewrite Hnil].
  - intros Hne. destruct avail as [|a avail]; [congruence|].
    unfold result. cbn. apply filter_In. split; [exact Hc | now rewrite Hnil].
  - intros H. apply ExactMode.exact_In in H. destruct H as (_ & Hreq & _).
    apply Hreq. now rewrite Hnil.
Qed.

Lemma recipe_without_ingredients_witness :
  In (Samples.mkRecipe 9 [] true) (table (Samples.storeOf [Samples.mkRecipe 9 [] true]))
  /\ In (Samples.mkRecipe 9 [] true)
        (result (ResolversTs.recipesWithExactIngredients asciiLower [str "rice"] None)
                (Samples.storeOf [Samples.mkRecipe 9 [] true])).
Proof.
  assert (H : In (Samples.mkRecipe 9 [] true)
                 (table (Samples.storeOf [Samples.mkRecipe 9 [] true])))
    by (left; reflexivity).
  split; [exact H|].
  exact (proj1 (@recipe_without_ingredients asciiLower [str "rice"] None
                  (Samples.storeOf [Samples.mkRecipe 9 [] true])
                  (Samples.mkRecipe 9 [] true) H I eq_refl)).
Defined.

(** The quantity patterns of resolvers.ts and part_000 are anchored at a
    leading ASCII digit. *)
Lemma quantity_prefix_needs_leading_digit (s : jsstring) :
  match s with
  | [] => True
  | c :: _ => is_digit c = false
  end ->
  replace_anchored ResolversTsNormalizer.quantity_unit_prefix [] s = s
  /\ replace_anchored ResolversTsNormalizer.leading_number [] s = s
  /\ replace_anchored Part000Normalizer.quantity_unit_prefix [] s = s.
Proof.
  destruct s as [|c t]; intros H; unfold replace_anchored, run,
    ResolversTsNormalizer.quantity_unit_prefix, ResolversTsNormalizer.leading_number,
    Part000Normalizer.quantity_unit_prefix, plus, seq, one.
  - repeat split.
  - rewrite H. repeat split.
Qed.

Lemma replace_all_untouched (m : Matcher) (rep s : jsstring) (x : codeunit) :
  run m [] = None ->
  (forall c t, c <> x -> run m (c :: t) = None) ->
  ~ In x s -> replace_all m rep s = s.
Proof.
  intros Hnil Hrun. unfold replace_all.
  induction s as [|c t IH]; intros Hx; cbn [replace_go].
  - now rewrite Hnil.
  - rewrite Hrun by (intros ->; apply Hx; now left).
    f_equal. apply IH. intros H. apply Hx. now right.
Qed.

Lemma replace_first_untouched (m : Matcher) (rep s : jsstring) (x : codeunit) :
  run m [] = None ->
  (forall c t, c <> x -> run m (c :: t) = None) ->
  ~ In x s -> replace_first m rep s = s.
Proof.
  intros Hnil Hrun.
  induction s as [|c t IH]; intros Hx; cbn [replace_first].
  - now rewrite Hnil.
  - rewrite Hrun by (intros ->; apply Hx; now left).
    f_equal. apply IH. intros H. apply Hx. now right.
Qed.

Lemma before_comma_untouched (s : jsstring) : ~ In 44%N s -> before_comma s = s.
Proof.
  induction s as [|c t IH]; intros Hx; cbn [before_comma]; [reflexivity|].
  destruct (c =? 44)%N eqn:E.
  - apply N.eqb_eq in E. exfalso. apply Hx. now left.
  - f_equal. apply IH. intros H. apply Hx. now right.
Qed.

Lemma one_char_guard (x c : codeunit) (t : jsstring) (m : Matcher) :
  c <> x -> run (seq (one (N.eqb x)) m) (c :: t) = None.
Proof.
  intros H. unfold run, seq, one.
  destruct (N.eqb_spec x c); [congruence | reflexivity].
Qed.

(** X23. A line that is already clean is only lower-cased by the normalisers
    of resolvers.ts and part_000: when its lower-cased form does not start
    with an ASCII digit, contains no parenthesis opening and no comma, and
    has no white space at either end, that form is the token. *)
Theorem clean_lines_are_only_lowercased :
  forall (toLowerCase : jsstring -> jsstring) (line : jsstring),
    match toLowerCase line with
    | [] => True
    | c :: _ => is_digit c = false
    end ->
    ~ In 40%N (toLowerCase line) ->
    ~ In 44%N (toLowerCase line) ->
    startsClean (toLowerCase line) = true ->
    endsClean (toLowerCase line) = true ->
    ResolversTsNormalizer.cleanIngredient toLowerCase line = toLowerCase line
    /\ Part000Normalizer.cleanIngredient toLowerCase line = toLowerCase line.
Proof.
  intros lower line Hdigit Hparen Hcomma Hs He.
  destruct (quantity_prefix_needs_leading_digit (lower line) Hdigit) as (H1 & H2 & H3).
  split.
  - unfold ResolversTsNormalizer.cleanIngredient. rewrite H1, H2.
    rewrite (@replace_first_untouched _ _ _ 44%N); try assumption;
      [|reflexivity | intros c t Hc; now apply one_char_guard].
    rewrite (@replace_all_untouched _ _ _ 40%N); try assumption;
      [|reflexivity | intros c t Hc; now apply one_char_guard].
    rewrite Tokens.trim_fixed by assumption.
    now destruct (truthy (lower line)).
  - unfold Part000Normalizer.cleanIngredient. rewrite H3.
    rewrite (@replace_all_untouched _ _ _ 40%N); try assumption;
      [|reflexivity | intros c t Hc; now apply one_char_guard].
    rewrite before_comma_untouched by assumption.
    now apply Tokens.trim_fixed.
Qed.

Lemma clean_lines_are_only_lowercased_witness :
  startsClean (asciiLower (str "Olive Oil")) = true
  /\ Part000Normalizer.cleanIngredient asciiLower (str "Olive Oil") = str "olive oil".
Proof.
  split; [reflexivity|].
  refine (proj2 (@clean_lines_are_only_lowercased asciiLower (str "Olive Oil")
                   eq_refl _ _ eq_refl eq_refl));
    vm_compute; intros H; repeat (destruct H as [H|H]; [discriminate|]); exact H.
Defined.

End Matching.

(* ================================================================== *)
(** * Quick suggestions and their limit *)
(* ================================================================== *)

Module Suggestions.
Import JS Prisma Text Shapes.

Lemma Selected_filter (A : Type) (P : A -> Prop) (p : A -> bool) (l : list A) :
  (forall x, p x = true <-> P x) -> Selected P l (filter p l).
Proof.
  intros H. induction l as [|x l IH]; cbn [filter]; [constructor|].
  destruct (p x) eqn:E.
  - apply Selected_keep; [now apply H | exact IH].
  - apply Selected_skip; [|exact IH]. intros HP. apply H in HP. congruence.
Qed.

Lemma Selected_In (A : Type) (P : A -> Prop) (l s : list A) (x : A) :
  Selected P l s -> (In x s <-> In x l /\ P x).
Proof.
  induction 1 as [|y l s Hy _ IH|y l s Hy _ IH]; cbn [In].
  - tauto.
  - rewrite IH. split; [intros [<-|[? ?]]; auto | intros [[<-|?] ?]; auto].
  - rewrite IH. split; [intros [? ?]; auto | intros [[<-|?] ?]; [contradiction | auto]].
Qed.

Lemma Selected_unique (A : Type) (P : A -> Prop) (l s s' : list A) :
  Selected P l s -> Selected P l s' -> s = s'.
Proof.
  intros H. revert s'.
  induction H as [|y l s Hy _ IH|y l s Hy _ IH]; intros s' H'; inversion H'; subst;
    try contradiction; try reflexivity; [f_equal|]; now apply IH.
Qed.

Lemma filter_filter (A : Type) (p q : A -> bool) (l : list A) :
  filter p (filter q l) = filter (fun x => q x && p x) l.
Proof.
  induction l as [|x l IH]; cbn [filter]; [reflexivity|].
  destruct (q x); cbn [filter andb]; [|exact IH]. now rewrite IH.
Qed.

Section WithLowerCase.
Variable toLowerCase : jsstring -> jsstring.

Lemma hasMatchingIngredient_quickMatch (availableIngredients : list jsstring)
      (rec : Recipe) :
  Part001.hasMatchingIngredient toLowerCase
    (List.map toLowerCase availableIngredients) rec = true
  <-> quickMatch toLowerCase availableIngredients
                 (Part001.extractIngredientNames toLowerCase (ingredients rec)).
Proof.
  unfold Part001.hasMatchingIngredient, quickMatch. rewrite existsb_exists. split.
  - intros (ing & Hing & H). apply existsb_exists in H.
    destruct H as (al & Hal & H). apply in_map_iff in Hal.
    destruct Hal as (a & <- & Ha). apply Matching.includes_occurs in H.
    now exists ing, a.
  - intros (ing & a & Hing & Ha & H). exists ing. split; [assumption|].
    apply existsb_exists. exists (toLowerCase a).
    split; [now apply in_map | now apply Matching.includes_occurs].
Qed.

Lemma lineMatches_quickMatch (availableIngredients : list jsstring) (rec : Recipe) :
  existsb (Part000.lineMatches toLowerCase availableIngredients) (ingredients rec)
  = true
  <-> quickMatch toLowerCase availableIngredients
                 (List.map toLowerCase (ingredients rec)).
Proof.
  unfold Part000.lineMatches, quickMatch. rewrite existsb_exists. split.
  - intros (line & Hline & H). apply existsb_exists in H.
    destruct H as (a & Ha & H). apply Matching.includes_occurs in H.
    exists (toLowerCase line), a. split; [now apply in_map | now split].
  - intros (ing & a & Hing & Ha & H). apply in_map_iff in Hing.
    destruct Hing as (line & <- & Hline). exists line. split; [assumption|].
    apply existsb_exists. exists a.
    split; [assumption | now apply Matching.includes_occurs].
Qed.

(** The suggestions are a slice of the selected recipes. *)
Lemma part001_quick_selected (availableIngredients : list jsstring)
      (limit : option Z) (filters : option RecipeFilters) (st : Store) :
  exists matching,
    Selected (suggested001 toLowerCase availableIngredients filters) (table st)
             matching
    /\ result (Part001.quickRecipeSuggestions toLowerCase availableIngredients
                 limit filters) st
       = Array.slice0 matching (Part001.limitOrDefault limit).
Proof.
  eexists. split; [|unfold result; cbn; rewrite filter_filter; reflexivity].
  apply Selected_filter. intros rec. unfold suggested001.
  now rewrite andb_true_iff, Filtering.where_clause_spec,
    hasMatchingIngredient_quickMatch.
Qed.

Lemma no_term_no_match (tokens : list jsstring) :
  ~ quickMatch toLowerCase [] tokens.
Proof. intros (ing & a & _ & [] & _). Qed.

Lemma Selected_none (A : Type) (P : A -> Prop) (l : list A) :
  (forall x, ~ P x) -> Selected P l [].
Proof.
  intros H. induction l as [|x l IH]; [constructor|].
  apply Selected_skip; [apply H | exact IH].
Qed.

Lemma part000_quick_selected (availableIngredients : list jsstring)
      (limit : option Z) (filters : option RecipeFilters) (st : Store) :
  exists matching,
    Selected (suggested000 toLowerCase availableIngredients filters) (table st)
             matching
    /\ result (Part000.quickRecipeSuggestions toLowerCase availableIngredients
                 limit filters) st
       = Array.slice0 matching (Part001.limitOrDefault limit).
Proof.
  destruct availableIngredients as [|a avail].
  - exists []. split.
    + apply Selected_none. intros rec [_ H]. now apply no_term_no_match in H.
    + transitivity (@nil Recipe); [reflexivity|].
      unfold Array.slice0. destruct (_ <? 0)%Z; now rewrite firstn_nil.
  - eexists. split; [|unfold result; cbn; rewrite filter_filter; reflexivity].
    apply Selected_filter. intros rec. unfold suggested000.
    now rewrite andb_true_iff, Filtering.where_clause_spec,
      lineMatches_quickMatch.
Qed.

End WithLowerCase.

(** With limit 1 the first of two matching recipes is returned, with no
    limit both. *)
Example first_of_two :
  result (Part001.quickRecipeSuggestions asciiLower [str "rice"] (Some 1%Z) None)
         (Samples.storeOf [Samples.garlicMinced; Samples.riceBowl;
                           Samples.riceAndPepper])
  = [Samples.riceBowl]
  /\ result (Part001.quickRecipeSuggestions asciiLower [str "rice"] None None)
            (Samples.storeOf [Samples.garlicMinced; Samples.riceBowl;
                              Samples.riceAndPepper])
     = [Samples.riceBowl; Samples.riceAndPepper].
Proof. split; vm_compute; reflexivity. Qed.

(** X24. For a positive limit n, quickRecipeSuggestions of part_001 and of
    part_000 return the first n, and for an absent limit the first 10, of
    the stored recipes, in the order of the store, that meet the filters
    and have an ingredient in which some lower-cased available term occurs
    (a normalised ingredient in part_001, a lower-cased line in
    part_000). *)
Theorem quick_suggestions_first_matching :
  forall (toLowerCase : jsstring -> jsstring) (availableIngredients : list jsstring)
         (n : Z) (filters : option RecipeFilters) (st : Store),
    (0 < n)%Z ->
    exists matching001 matching000,
      Selected (suggested001 toLowerCase availableIngredients filters) (table st)
               matching001
      /\ Selected (suggested000 toLowerCase availableIngredients filters) (table st)
                  matching000
      /\ result (Part001.quickRecipeSuggestions toLowerCase availableIngredients
                   (Some n) filters) st
         = firstn (Z.to_nat n) matching001
      /\ result (Part001.quickRecipeSuggestions toLowerCase availableIngredients
                   None filters) st
         = firstn 10 matching001
      /\ result (Part000.quickRecipeSuggestions toLowerCase availableIngredients
                   (Some n) filters) st
         = firstn (Z.to_nat n) matching000
      /\ result (Part000.quickRecipeSuggestions toLowerCase availableIngredients
                   None filters) st
         = firstn 10 matching000.
Proof.
  intros lower avail n filters st Hn.
  assert (Hl : Part001.limitOrDefault (Some n) = n)
    by (destruct n; [lia | reflexivity..]).
  destruct (part001_quick_selected lower avail (Some n) filters st) as (m1 & S1 & E1).
  destruct (part001_quick_selected lower avail None filters st) as (m1' & S1' & E1').
  destruct (part000_quick_selected lower avail (Some n) filters st) as (m0 & S0 & E0).
  destruct (part000_quick_selected lower avail None filters st) as (m0' & S0' & E0').
  rewrite (Selected_unique S1' S1) in E1'. rewrite (Selected_unique S0' S0) in E0'.
  rewrite Hl, Resolvers.slice0_nonneg in E1, E0 by lia.
  exists m1, m0. repeat split; assumption.
Qed.

Lemma quick_suggestions_first_matching_witness :
  (0 < 1)%Z
  /\ exists matching001 matching000,
      Selected (suggested001 asciiLower [str "rice"] None)
               (table (Samples.storeOf [Samples.garlicMinced; Samples.riceBowl;
                                        Samples.riceAndPepper]))
               matching001
      /\ Selected (suggested000 asciiLower [str "rice"] None)
                  (table (Samples.storeOf [Samples.garlicMinced; Samples.riceBowl;
                                           Samples.riceAndPepper]))
                  matching000
      /\ result (Part001.quickRecipeSuggestions asciiLower [str "rice"]
                   (Some 1%Z) None)
                (Samples.storeOf [Samples.garlicMinced; Samples.riceBowl;
                                  Samples.riceAndPepper])
         = firstn (Z.to_nat 1) matching001
      /\ result (Part001.quickRecipeSuggestions asciiLower [str "rice"] None None)
                (Samples.storeOf [Samples.garlicMinced; Samples.riceBowl;
                                  Samples.riceAndPepper])
         = firstn 10 matching001
      /\ result (Part000.quickRecipeSuggestions asciiLower [str "rice"]
                   (Some 1%Z) None)
                (Samples.storeOf [Samples.garlicMinced; Samples.riceBowl;
                                  Samples.riceAndPepper])
         = firstn (Z.to_nat 1) matching000
      /\ result (Part000.quickRecipeSuggestions asciiLower [str "rice"] None None)
                (Samples.storeOf [Samples.garlicMinced; Samples.riceBowl;
                                  Samples.riceAndPepper])
         = firstn 10 matching000.
Proof.
  assert (H : (0 < 1)%Z) by reflexivity.
  split; [exact H|].
  exact (@quick_suggestions_first_matching asciiLower [str "rice"] 1%Z None
           (Samples.storeOf [Samples.garlicMinced; Samples.riceBowl;
                             Samples.riceAndPepper]) H).
Defined.

(** C9. With limit 0, quickRecipeSuggestions of part_001 does not truncate
    the result to the supplied limit: [limit || 10] takes 0 for an absent
    limit, so the call is the call without a limit and returns the first
    ten of the stored recipes that meet the filters and have a matching
    ingredient, one recipe on a store that holds one. In resolvers.ts the
    supplied limit reaches the statement as it is: [LIMIT 0]. *)
Theorem zero_limit_is_taken_for_absent :
  (forall (toLowerCase : jsstring -> jsstring) (availableIngredients : list jsstring)
          (filters : option RecipeFilters) (st : Store),
      Part001.quickRecipeSuggestions toLowerCase availableIngredients (Some 0%Z)
                                     filters st
      = Part001.quickRecipeSuggestions toLowerCase availableIngredients None
                                       filters st
      /\ exists matching,
          Selected (suggested001 toLowerCase availableIngredients filters)
                   (table st) matching
          /\ result (Part001.quickRecipeSuggestions toLowerCase
                       availableIngredients (Some 0%Z) filters) st
             = firstn 10 matching)
  /\ result (Part001.quickRecipeSuggestions asciiLower [str "rice"] (Some 0%Z) None)
            (Samples.storeOf [Samples.riceBowl])
     = [Samples.riceBowl]
  /\ (forall (toLowerCase : jsstring -> jsstring) (first : jsstring)
             (others : list jsstring) (filters : option RecipeFilters)
             (st : ResolversTsRest.SqlStore),
        snd (ResolversTsRest.quickRecipeSuggestions toLowerCase (first :: others)
               (Some 0%Z) filters st)
        = [ResolversTsRest.RawSimilarTo
             (join (str "|")
                   (List.map (fun ing => str "%" ++ toLowerCase ing ++ str "%")
                             (first :: others)))
             (Some 0%Z)]).
Proof.
  split; [|split].
  - intros lower avail filters st. split; [reflexivity|].
    destruct (part001_quick_selected lower avail (Some 0%Z) filters st)
      as (m & S & E).
    exists m. split; assumption.
  - vm_compute. reflexivity.
  - intros lower a avail [f|] st; reflexivity.
Qed.

End Suggestions.
